(** * UavLander: terrain generation, vehicle assembly and the episode step

    A shallow embedding of [uav_gym/envs/box2d/uav_lander.py].

    Numbers: Python floats are read as real numbers ([R]); rounding is not
    modelled.  Node counts and indices are Python ints ([Z]), with Python's
    floor division and negative-index wrap-around written out.
    Exceptions are values of [result].  The generator [self.np_random] is an
    explicit state: a source of unit draws and a cursor. *)

From stdpp Require Import base list gmap.
From Stdlib Require Import ZArith Reals Lra Lia.

Open Scope Z_scope.

(** ** Python exceptions and the error monad *)

Inductive PyError : Type :=
| ValueError | IndexError | ZeroDivisionError | AssertionError
| DeadBody.  (* use of a body handle that is no longer in the world *)

Inductive result (A : Type) : Type :=
| Ok (a : A)
| Raise (e : PyError).
Arguments Ok {A} a.
Arguments Raise {A} e.

Definition bind {A B : Type} (m : result A) (k : A -> result B) : result B :=
  match m with
  | Ok a => k a
  | Raise e => Raise e
  end.

Notation "'let*' x ':=' m 'in' k" := (bind m (fun x => k))
  (at level 10, x pattern, m at level 100, k at level 200).

(** A list comprehension [[f x for x in xs]] whose body may raise. *)
Fixpoint comprehension {A B : Type} (f : A -> result B) (xs : list A)
  : result (list B) :=
  match xs with
  | [] => Ok []
  | x :: xs' =>
      let* y := f x in
      let* ys := comprehension f xs' in
      Ok (y :: ys)
  end.

(** A [for x in xs:] loop threading a state, stopping at the first raise. *)
Fixpoint for_each {A S : Type} (body : A -> S -> result S) (xs : list A) (s : S)
  : result S :=
  match xs with
  | [] => Ok s
  | x :: xs' => let* s' := body x s in for_each body xs' s'
  end.

(** ** Python sequences *)

(** [range(n)]: empty when [n <= 0]. *)
Definition range (n : Z) : list Z :=
  map Z.of_nat (seq 0 (Z.to_nat n)).

(** Resolve a Python index against a length: negative indices count from
    the end, anything outside [-len, len) raises [IndexError]. *)
Definition py_index (len : nat) (i : Z) : result nat :=
  let n := Z.of_nat len in
  if (0 <=? i) && (i <? n) then Ok (Z.to_nat i)
  else if (- n <=? i) && (i <? 0) then Ok (Z.to_nat (n + i))
  else Raise IndexError.

(** [l[i]] *)
Definition getitem {A : Type} (l : list A) (i : Z) : result A :=
  let* k := py_index (length l) i in
  match l !! k with
  | Some x => Ok x
  | None => Raise IndexError
  end.

(** [l[i] = v] *)
Definition setitem {A : Type} (l : list A) (i : Z) (v : A) : result (list A) :=
  let* k := py_index (length l) i in
  Ok (<[k := v]> l).

(** Python [/] of a float by an int. *)
Definition truediv (x : R) (d : Z) : result R :=
  if d =? 0 then Raise ZeroDivisionError else Ok (x / IZR d)%R.

(** ** The random generator *)

(** A generator is a source of unit draws (each meant to lie in [0, 1)) and
    the number of draws consumed so far. *)
Record Generator : Type := mkGenerator {
  source : nat -> R;
  cursor : nat
}.

Definition unit_draws (g : Generator) : Prop :=
  forall k : nat, (0 <= source g k < 1)%R.

Definition random (g : Generator) : R * Generator :=
  (source g (cursor g), mkGenerator (source g) (S (cursor g))).

(** [Generator.uniform(low, high)]: [low + (high - low) * random()]. *)
Definition uniform (low high : R) (g : Generator) : R * Generator :=
  let (u, g') := random g in ((low + (high - low) * u)%R, g').

Fixpoint uniform_list (low high : R) (n : nat) (g : Generator)
  : list R * Generator :=
  match n with
  | O => ([], g)
  | S n' =>
      let (x, g1) := uniform low high g in
      let (xs, g2) := uniform_list low high n' g1 in
      (x :: xs, g2)
  end.

(** [Generator.uniform(low, high, size=(n,))]: a negative dimension raises. *)
Definition uniform_size (low high : R) (n : Z) (g : Generator)
  : result (list R * Generator) :=
  if n <? 0 then Raise ValueError
  else Ok (uniform_list low high (Z.to_nat n) g).

(** ** Constants imported from gymnasium's lunar_lander module

    Their values are not part of this file's source; they are parameters of
    the development.  [gymnasium_constants] below lists the values gymnasium
    ships, used to evaluate the model on concrete inputs. *)

Record Constants : Type := mkConstants {
  VIEWPORT_W : R;
  VIEWPORT_H : R;
  SCALE : R;
  FPS : R;
  INITIAL_RANDOM : R;
  LEG_AWAY : R;
  LEG_DOWN : R;
  LEG_W : R;
  LEG_H : R;
  LEG_SPRING_TORQUE : R;
  LANDER_POLY : list (R * R);
  MAIN_ENGINE_POWER : R;
  SIDE_ENGINE_AWAY : R;
  SIDE_ENGINE_HEIGHT : R;
  SIDE_ENGINE_POWER : R
}.

Definition gymnasium_constants : Constants := {|
  VIEWPORT_W := 600;
  VIEWPORT_H := 400;
  SCALE := 30;
  FPS := 50;
  INITIAL_RANDOM := 1000;
  LEG_AWAY := 20;
  LEG_DOWN := 18;
  LEG_W := 2;
  LEG_H := 8;
  LEG_SPRING_TORQUE := 40;
  LANDER_POLY :=
    [(-14, 17); (-17, 0); (-17, -10); (17, -10); (17, 0); (14, 17)]%R;
  MAIN_ENGINE_POWER := 13;
  SIDE_ENGINE_AWAY := 12;
  SIDE_ENGINE_HEIGHT := 14;
  SIDE_ENGINE_POWER := 0.6
|}.

(** ** The physics world as this environment builds it *)

Definition Vec2 : Type := (R * R)%type.

Inductive Shape : Type :=
| edgeShape (v1 v2 : Vec2)
| polygonShape (vertices : list Vec2)
| boxShape (hx hy : R).

(** A fixture definition.  A field the source leaves out is [None]; the
    engine then uses its default. *)
Record fixtureDef : Type := mkFixture {
  shape : Shape;
  density : option R;
  friction : option R;
  restitution : option R;
  categoryBits : option Z;
  maskBits : option Z
}.

Inductive BodyType : Type := staticBody | dynamicBody.

Record Body : Type := mkBody {
  body_type : BodyType;
  position : Vec2;
  angle : R;
  linearVelocity : Vec2;
  angularVelocity : R;
  awake : bool;
  force : Vec2;
  torque : R;
  fixtures : list fixtureDef
}.

(** Handles of bodies in the world's store. *)
Definition BodyId : Type := nat.

Record revoluteJointDef : Type := mkRevoluteJoint {
  bodyA : BodyId;
  bodyB : BodyId;
  localAnchorA : Vec2;
  localAnchorB : Vec2;
  enableMotor : bool;
  enableLimit : bool;
  maxMotorTorque : R;
  motorSpeed : R;
  lowerAngle : R;
  upperAngle : R
}.

Record World : Type := mkWorld {
  bodies : gmap BodyId Body;
  next_body : BodyId;
  joints : list revoluteJointDef;
  contactListener : bool
}.

(** Bodies start at rest and awake, with no accumulated force. *)
Definition new_body (t : BodyType) (pos : Vec2) (ang : R) (fs : list fixtureDef)
  : Body :=
  mkBody t pos ang (0, 0)%R 0%R true (0, 0)%R 0%R fs.

Definition CreateBody (w : World) (b : Body) : World * BodyId :=
  (mkWorld (<[next_body w := b]> (bodies w)) (S (next_body w))
     (joints w) (contactListener w),
   next_body w).

(** [world.CreateStaticBody(shapes=s)] *)
Definition CreateStaticBody (w : World) (s : Shape) : World * BodyId :=
  CreateBody w
    (new_body staticBody (0, 0)%R 0%R [mkFixture s None None None None None]).

(** [world.CreateDynamicBody(position=.., angle=.., fixtures=f)] *)
Definition CreateDynamicBody (w : World) (pos : Vec2) (ang : R) (f : fixtureDef)
  : World * BodyId :=
  CreateBody w (new_body dynamicBody pos ang [f]).

Definition add_fixture (f : fixtureDef) (b : Body) : Body :=
  mkBody (body_type b) (position b) (angle b) (linearVelocity b)
    (angularVelocity b) (awake b) (force b) (torque b) (fixtures b ++ [f]).

(** [body.CreateEdgeFixture(vertices=[p1, p2], density=d, friction=fr)] *)
Definition CreateEdgeFixture (w : World) (b : BodyId) (p1 p2 : Vec2) (d fr : R)
  : World :=
  mkWorld
    (alter
       (add_fixture
          (mkFixture (edgeShape p1 p2) (Some d) (Some fr) None None None))
       b (bodies w))
    (next_body w) (joints w) (contactListener w).

(** [world.CreateJoint(rjd)] *)
Definition CreateJoint (w : World) (rjd : revoluteJointDef) : World * nat :=
  (mkWorld (bodies w) (next_body w) (joints w ++ [rjd]) (contactListener w),
   length (joints w)).

Definition set_contactListener (w : World) (on : bool) : World :=
  mkWorld (bodies w) (next_body w) (joints w) on.

(** ** The environment object *)

Record Leg : Type := mkLeg {
  leg_body : BodyId;
  ground_contact : bool;
  joint : option nat
}.

Record Env : Type := mkEnv {
  np_random : Generator;
  world : World;
  moon : option BodyId;
  sky_polys : list (list Vec2);
  helipad_x1 : R;
  helipad_x2 : R;
  helipad_y : R;
  lander : option BodyId;
  legs : list Leg;
  drawlist : list BodyId;
  game_over : bool;
  prev_shaping : option R;
  continuous : bool;
  enable_wind : bool;
  wind_power : R;
  turbulence_power : R;
  wind_idx : Z;
  torque_idx : Z
}.

Definition set_np_random (g : Generator) (e : Env) : Env :=
  mkEnv g (world e) (moon e) (sky_polys e) (helipad_x1 e) (helipad_x2 e)
    (helipad_y e) (lander e) (legs e) (drawlist e) (game_over e)
    (prev_shaping e) (continuous e) (enable_wind e) (wind_power e)
    (turbulence_power e) (wind_idx e) (torque_idx e).

Definition set_world (w : World) (e : Env) : Env :=
  mkEnv (np_random e) w (moon e) (sky_polys e) (helipad_x1 e) (helipad_x2 e)
    (helipad_y e) (lander e) (legs e) (drawlist e) (game_over e)
    (prev_shaping e) (continuous e) (enable_wind e) (wind_power e)
    (turbulence_power e) (wind_idx e) (torque_idx e).

Definition set_moon (m : option BodyId) (polys : list (list Vec2)) (e : Env)
  : Env :=
  mkEnv (np_random e) (world e) m polys (helipad_x1 e) (helipad_x2 e)
    (helipad_y e) (lander e) (legs e) (drawlist e) (game_over e)
    (prev_shaping e) (continuous e) (enable_wind e) (wind_power e)
    (turbulence_power e) (wind_idx e) (torque_idx e).

Definition set_helipad (x1 x2 y : R) (e : Env) : Env :=
  mkEnv (np_random e) (world e) (moon e) (sky_polys e) x1 x2 y
    (lander e) (legs e) (drawlist e) (game_over e)
    (prev_shaping e) (continuous e) (enable_wind e) (wind_power e)
    (turbulence_power e) (wind_idx e) (torque_idx e).

Definition set_lander (l : option BodyId) (e : Env) : Env :=
  mkEnv (np_random e) (world e) (moon e) (sky_polys e) (helipad_x1 e)
    (helipad_x2 e) (helipad_y e) l (legs e) (drawlist e) (game_over e)
    (prev_shaping e) (continuous e) (enable_wind e) (wind_power e)
    (turbulence_power e) (wind_idx e) (torque_idx e).

Definition set_legs (ls : list Leg) (e : Env) : Env :=
  mkEnv (np_random e) (world e) (moon e) (sky_polys e) (helipad_x1 e)
    (helipad_x2 e) (helipad_y e) (lander e) ls (drawlist e) (game_over e)
    (prev_shaping e) (continuous e) (enable_wind e) (wind_power e)
    (turbulence_power e) (wind_idx e) (torque_idx e).

Definition set_drawlist (d : list BodyId) (e : Env) : Env :=
  mkEnv (np_random e) (world e) (moon e) (sky_polys e) (helipad_x1 e)
    (helipad_x2 e) (helipad_y e) (lander e) (legs e) d (game_over e)
    (prev_shaping e) (continuous e) (enable_wind e) (wind_power e)
    (turbulence_power e) (wind_idx e) (torque_idx e).

Definition set_game_over (b : bool) (e : Env) : Env :=
  mkEnv (np_random e) (world e) (moon e) (sky_polys e) (helipad_x1 e)
    (helipad_x2 e) (helipad_y e) (lander e) (legs e) (drawlist e) b
    (prev_shaping e) (continuous e) (enable_wind e) (wind_power e)
    (turbulence_power e) (wind_idx e) (torque_idx e).

Definition set_prev_shaping (p : option R) (e : Env) : Env :=
  mkEnv (np_random e) (world e) (moon e) (sky_polys e) (helipad_x1 e)
    (helipad_x2 e) (helipad_y e) (lander e) (legs e) (drawlist e) (game_over e)
    p (continuous e) (enable_wind e) (wind_power e)
    (turbulence_power e) (wind_idx e) (torque_idx e).

Definition set_wind_idx (i : Z) (e : Env) : Env :=
  mkEnv (np_random e) (world e) (moon e) (sky_polys e) (helipad_x1 e)
    (helipad_x2 e) (helipad_y e) (lander e) (legs e) (drawlist e) (game_over e)
    (prev_shaping e) (continuous e) (enable_wind e) (wind_power e)
    (turbulence_power e) i (torque_idx e).

Definition set_torque_idx (i : Z) (e : Env) : Env :=
  mkEnv (np_random e) (world e) (moon e) (sky_polys e) (helipad_x1 e)
    (helipad_x2 e) (helipad_y e) (lander e) (legs e) (drawlist e) (game_over e)
    (prev_shaping e) (continuous e) (enable_wind e) (wind_power e)
    (turbulence_power e) (wind_idx e) i.

(** ** Terrain generation: [_gen_uav_terrain] *)

(** The values [_gen_uav_terrain] has computed when it reaches the physics
    calls: its locals and the three attributes it has set on [self]. *)
Record TerrainNodes : Type := mkTerrainNodes {
  t_height : list R;
  t_chunk_x : list R;
  t_smooth_y : list R;
  t_helipad_y : R;
  t_helipad_x1 : R;
  t_helipad_x2 : R;
  t_width_node : Z;
  t_angle : R;
  t_diff_high : R;
  t_np_random : Generator
}.

Section Terrain.
Context (K : Constants).

Definition W : R := (VIEWPORT_W K / SCALE K)%R.
Definition H : R := (VIEWPORT_H K / SCALE K)%R.
Definition width_para : Z := 6.

(** Line 63: [self.np_random.uniform(0, H / 2, size=(CHUNKS + 1,))] *)
Definition draw_heights (CHUNKS : Z) (g : Generator)
  : result (list R * Generator) :=
  uniform_size 0 (H / 2) (CHUNKS + 1) g.

(** [[W / (CHUNKS - 1) * i for i in range(CHUNKS)]] *)
Definition gen_chunk_x (CHUNKS : Z) : result (list R) :=
  comprehension
    (fun i => let* dx := truediv W (CHUNKS - 1) in Ok (dx * IZR i)%R)
    (range CHUNKS).

(** [[0.33 * (height[i - 1] + height[i + 0] + height[i + 1])
      for i in range(CHUNKS)]] *)
Definition gen_smooth_y (height : list R) (CHUNKS : Z) : result (list R) :=
  comprehension
    (fun i =>
       let* a := getitem height (i - 1) in
       let* b := getitem height (i + 0) in
       let* c := getitem height (i + 1) in
       Ok (0.33 * (a + b + c))%R)
    (range CHUNKS).

(** The body of the loop [for i in range(width_node)] that lays the
    platform nodes on both sides of the center. *)
Definition platform_step (CHUNKS : Z) (helipad_y diff_high : R)
    (i : Z) (smooth_y : list R) : result (list R) :=
  let* smooth_y :=
    setitem smooth_y (CHUNKS / 2 - (i + 1))
      (helipad_y - diff_high * IZR (i + 1))%R in
  setitem smooth_y (CHUNKS / 2 + (i + 1))
    (helipad_y + diff_high * IZR (i + 1))%R.

(** Lines 58 to 87: everything up to the first physics call. *)
Definition terrain_nodes (terrain_node : Z) (flat_platform : bool)
    (g : Generator) : result TerrainNodes :=
  let CHUNKS := terrain_node in
  let* (height, g) := draw_heights CHUNKS g in
  let* chunk_x := gen_chunk_x CHUNKS in
  let* smooth_y := gen_smooth_y height CHUNKS in
  let* (draw, g) := uniform_size (H / 2) (H * 3 / 5) 1 g in
  let* draw0 := getitem draw 0 in
  let* height := setitem height (CHUNKS / 2 + 0) draw0 in
  let* helipad_y := getitem height (CHUNKS / 2 + 0) in
  let width_node := (CHUNKS / width_para - 1) / 2 in
  let* helipad_x1 := getitem chunk_x (CHUNKS / 2 - width_node) in
  let* helipad_x2 := getitem chunk_x (CHUNKS / 2 + width_node) in
  let* smooth_y := setitem smooth_y (CHUNKS / 2 + 0) helipad_y in
  let* (angle, g) :=
    if negb flat_platform then
      let* (draw, g) := uniform_size (- PI / 6) (PI / 6) 1 g in
      let* a := getitem draw 0 in
      Ok (a, g)
    else Ok (0%R, g) in
  let* diff_high := truediv (tan angle * W) (CHUNKS - 1) in
  let* smooth_y :=
    for_each (platform_step CHUNKS helipad_y diff_high)
      (range width_node) smooth_y in
  Ok (mkTerrainNodes height chunk_x smooth_y helipad_y helipad_x1 helipad_x2
        width_node angle diff_high g).

(** The body of the loop [for i in range(CHUNKS - 1)] that builds the
    ground: one edge fixture and one sky polygon per segment. *)
Definition ground_step (chunk_x smooth_y : list R) (m : BodyId)
    (i : Z) (acc : World * list (list Vec2))
  : result (World * list (list Vec2)) :=
  let (w, polys) := acc in
  let* x1 := getitem chunk_x i in
  let* y1 := getitem smooth_y i in
  let* x2 := getitem chunk_x (i + 1) in
  let* y2 := getitem smooth_y (i + 1) in
  let p1 := (x1, y1) in
  let p2 := (x2, y2) in
  Ok (CreateEdgeFixture w m p1 p2 0 0.1,
      polys ++ [[p1; p2; (fst p2, H); (fst p1, H)]]).

Definition _gen_uav_terrain (terrain_node : Z) (flat_platform : bool)
    (self : Env) : result Env :=
  let CHUNKS := terrain_node in
  let* t := terrain_nodes terrain_node flat_platform (np_random self) in
  let self := set_np_random (t_np_random t) self in
  let self :=
    set_helipad (t_helipad_x1 t) (t_helipad_x2 t) (t_helipad_y t) self in
  let (w, m) := CreateStaticBody (world self) (edgeShape (0, 0)%R (W, 0)%R) in
  let* (w, polys) :=
    for_each (ground_step (t_chunk_x t) (t_smooth_y t) m)
      (range (CHUNKS - 1)) (w, []) in
  Ok (set_moon (Some m) polys (set_world w self)).

End Terrain.

(** ** Engine calls on a single body *)

Definition Vadd (a b : Vec2) : Vec2 := (fst a + fst b, snd a + snd b)%R.

(** [body.ApplyForceToCenter(f, wake)]: only a dynamic body takes the force;
    [wake] wakes a sleeping body first, and a body still asleep ignores it. *)
Definition body_ApplyForceToCenter (f : Vec2) (wake : bool) (b : Body) : Body :=
  match body_type b with
  | staticBody => b
  | dynamicBody =>
      let aw := awake b || wake in
      mkBody (body_type b) (position b) (angle b) (linearVelocity b)
        (angularVelocity b) aw
        (if aw then Vadd (force b) f else force b) (torque b) (fixtures b)
  end.

(** [body.ApplyTorque(t, wake)] *)
Definition body_ApplyTorque (t : R) (wake : bool) (b : Body) : Body :=
  match body_type b with
  | staticBody => b
  | dynamicBody =>
      let aw := awake b || wake in
      mkBody (body_type b) (position b) (angle b) (linearVelocity b)
        (angularVelocity b) aw (force b)
        (if aw then (torque b + t)%R else torque b) (fixtures b)
  end.

Definition on_body (f : Body -> Body) (id : BodyId) (w : World) : World :=
  mkWorld (alter f id (bodies w)) (next_body w) (joints w) (contactListener w).

Definition ApplyForceToCenter (w : World) (id : BodyId) (f : Vec2) (wake : bool)
  : World := on_body (body_ApplyForceToCenter f wake) id w.

Definition ApplyTorque (w : World) (id : BodyId) (t : R) (wake : bool)
  : World :=
  on_body (body_ApplyTorque t wake) id w.

(** ** Vehicle assembly: [_gen_uav_lander] *)

Section Vehicle.
Context (K : Constants).

(** The [fixtureDef] of the lander body (lines 107 to 116). *)
Definition lander_fixture : fixtureDef :=
  mkFixture
    (polygonShape
       (map (fun p : R * R => (fst p / SCALE K, snd p / SCALE K)%R)
          (LANDER_POLY K)))
    (Some 5.0%R) (Some 0.1%R) (Some 0.0%R) (Some 0x0010) (Some 0x001).

(** The [fixtureDef] of a leg body (lines 133 to 139); no friction given. *)
Definition leg_fixture : fixtureDef :=
  mkFixture (boxShape (LEG_W K / SCALE K) (LEG_H K / SCALE K))
    (Some 1.0%R) None (Some 0.0%R) (Some 0x0020) (Some 0x001).

Definition leg_position (i : Z) : Vec2 :=
  (VIEWPORT_W K / SCALE K / 2 - IZR i * LEG_AWAY K / SCALE K,
   VIEWPORT_H K / SCALE K)%R.

(** The [revoluteJointDef] of leg [i] as passed to [CreateJoint]: the
    constructor call of lines 144 to 153 followed by the limits set in
    lines 154 to 161. *)
Definition leg_joint (lander_id leg_id : BodyId) (i : Z) : revoluteJointDef :=
  let lower := if i =? -1 then (0.9 - 0.5)%R else (- 0.9)%R in
  let upper := if i =? -1 then 0.9%R else (- 0.9 + 0.5)%R in
  mkRevoluteJoint lander_id leg_id (0, 0)%R
    (IZR i * LEG_AWAY K / SCALE K, LEG_DOWN K / SCALE K)%R
    true true (LEG_SPRING_TORQUE K) (0.3 * IZR i)%R lower upper.

(** The body of the loop [for i in [-1, +1]]. *)
Definition leg_step (lander_id : BodyId) (i : Z) (self : Env) : result Env :=
  let (w, leg) :=
    CreateDynamicBody (world self) (leg_position i) (IZR i * 0.05)%R
      leg_fixture in
  let (w, j) := CreateJoint w (leg_joint lander_id leg i) in
  Ok (set_legs (legs self ++ [mkLeg leg false (Some j)]) (set_world w self)).

Definition _gen_uav_lander (self : Env) : result Env :=
  let initial_y := (VIEWPORT_H K / SCALE K)%R in
  let (w, l) :=
    CreateDynamicBody (world self) (VIEWPORT_W K / SCALE K / 2, initial_y)%R
      0.0%R lander_fixture in
  let self := set_lander (Some l) (set_world w self) in
  let (fx, g) :=
    uniform (- INITIAL_RANDOM K) (INITIAL_RANDOM K) (np_random self) in
  let (fy, g) := uniform (- INITIAL_RANDOM K) (INITIAL_RANDOM K) g in
  let self := set_np_random g self in
  let self :=
    set_world (ApplyForceToCenter (world self) l (fx, fy) true) self in
  let self := set_legs [] self in
  for_each (leg_step l) [-1; 1] self.

End Vehicle.

(** ** Collision filtering and the contact listener *)

(** The engine's defaults for a fixture's filter: category [0x0001], mask
    [0xFFFF]. *)
Definition category_of (f : fixtureDef) : Z := default 0x0001 (categoryBits f).
Definition mask_of (f : fixtureDef) : Z := default 0xFFFF (maskBits f).

(** The engine's filter rule for fixtures without a collision group: two
    fixtures may touch only when each one's category is in the other's mask. *)
Definition should_collide (a b : fixtureDef) : bool :=
  negb (Z.land (mask_of a) (category_of b) =? 0)
  && negb (Z.land (category_of a) (mask_of b) =? 0).

Definition fixtures_of (w : World) (id : BodyId) : list fixtureDef :=
  match bodies w !! id with
  | Some b => fixtures b
  | None => []
  end.

(** Whether the filter lets any fixture of body [a] touch a fixture of body
    [b]. *)
Definition may_touch (w : World) (a b : BodyId) : bool :=
  existsb
    (fun fa => existsb (fun fb => should_collide fa fb) (fixtures_of w b))
    (fixtures_of w a).

Inductive ContactEvent : Type :=
| BeginContact (a b : BodyId)
| EndContact (a b : BodyId).

Definition touches (id a b : BodyId) : bool :=
  Nat.eqb id a || Nat.eqb id b.

Definition mark_leg (a b : BodyId) (flag : bool) (l : Leg) : Leg :=
  if touches (leg_body l) a b then mkLeg (leg_body l) flag (joint l) else l.

(** Modelled from the spec: the class [ContactDetector] is imported, its
    body is not in the source file.  Section 4.3: on a new contact, if either
    body is the lander, mark game-over; if either body is a leg, set that
    leg's ground-contact flag; on contact end, clear that leg's flag. *)
Definition ContactDetector (ev : ContactEvent) (self : Env) : Env :=
  match ev with
  | BeginContact a b =>
      let self :=
        match lander self with
        | Some l => if touches l a b then set_game_over true self else self
        | None => self
        end in
      set_legs (map (mark_leg a b true) (legs self)) self
  | EndContact a b =>
      set_legs (map (mark_leg a b false) (legs self)) self
  end.

(** ** Collaborators outside this file

    The rigid-body solver and the inherited methods of gymnasium's
    [LunarLander] that this class calls are parameters. *)

Record Collaborators : Type := mkCollaborators {
  (** [body.ApplyLinearImpulse(impulse, point, wake)] *)
  ApplyLinearImpulse : World -> BodyId -> Vec2 -> Vec2 -> bool -> World;
  (** [world.Step(dt, velocityIterations, positionIterations)]: the world
      after the step and the contact callbacks fired during it, in order. *)
  world_Step : World -> R -> Z -> Z -> World * list ContactEvent;
  (** [self._create_particle(mass, x, y, ttl)]: a decoration body added to
      the world. *)
  _create_particle : World -> R -> R -> R -> R -> World * BodyId;
  (** [super().reset(seed=seed)] *)
  super_reset : Env -> option Z -> result Env;
  (** [self._destroy()] *)
  _destroy : Env -> Env
}.

(** ** Numeric helpers *)

Definition Rltb (x y : R) : bool := if Rlt_dec x y then true else false.
Definition Rleb (x y : R) : bool := if Rle_dec x y then true else false.

(** [np.clip(x, lo, hi)] *)
Definition clip (x lo hi : R) : R := Rmin (Rmax x lo) hi.

(** [np.sign(x)] *)
Definition sign (x : R) : R :=
  if Rlt_dec 0 x then 1%R else if Rlt_dec x 0 then (-1)%R else 0%R.

Definition b2R (b : bool) : R := if b then 1.0%R else 0.0%R.

(** ** Actions *)

Inductive Action : Type :=
| ContinuousAction (a0 a1 : R)  (* [np.array([a0, a1])] *)
| DiscreteAction (a : Z).

(** [action[0]] and [action[1]]: a scalar cannot be indexed. *)
Definition item0 (a : Action) : result R :=
  match a with
  | ContinuousAction a0 _ => Ok a0
  | DiscreteAction _ => Raise IndexError
  end.
Definition item1 (a : Action) : result R :=
  match a with
  | ContinuousAction _ a1 => Ok a1
  | DiscreteAction _ => Raise IndexError
  end.

(** [action == k] for an int [k]; used in discrete mode only. *)
Definition action_is (a : Action) (k : Z) : bool :=
  match a with DiscreteAction x => x =? k | ContinuousAction _ _ => false end.

(** [np.clip(action, -1, +1)] *)
Definition clip_action (a : Action) : Action :=
  match a with
  | ContinuousAction a0 a1 => ContinuousAction (clip a0 (-1) 1) (clip a1 (-1) 1)
  | DiscreteAction x => DiscreteAction (Z.min (Z.max x (-1)) 1)
  end.

(** [self.action_space.contains(action)] for [Discrete(4)]. *)
Definition action_space_contains (a : Action) : bool :=
  match a with
  | DiscreteAction x => (0 <=? x) && (x <? 4)
  | ContinuousAction _ _ => false
  end.

Definition assert (b : bool) : result unit :=
  if b then Ok tt else Raise AssertionError.

Definition body_of (w : World) (id : BodyId) : result Body :=
  match bodies w !! id with
  | Some b => Ok b
  | None => Raise DeadBody
  end.

(** ** The episode step

    The text of [step] in the source file is a commented-out copy of the
    method the class inherits; it is embedded here line by line. *)

(** The locals of one call to [step] when it reaches its [return]. *)
Record StepLocals : Type := mkStepLocals {
  l_state : list R;
  l_m_power : R;
  l_s_power : R;
  l_shaping : R;
  l_prev_shaping : option R;  (* [self.prev_shaping] as read at line 326 *)
  l_game_over : bool;         (* [self.game_over] as read at line 336 *)
  l_awake : bool;             (* [self.lander.awake] as read at line 339 *)
  l_reward : R;
  l_terminated : bool;
  l_self : Env
}.

Record StepResult : Type := mkStepResult {
  observation : list R;
  reward : R;
  terminated : bool;
  truncated : bool
}.

Section Episode.
Context (K : Constants) (C : Collaborators).

(** Lines 194 to 222: wind and turbulence. *)
Definition apply_wind (l : BodyId) (self : Env) : result Env :=
  let* calm :=
    if enable_wind self then
      let* leg0 := getitem (legs self) 0 in
      if ground_contact leg0 then Ok true
      else
        let* leg1 := getitem (legs self) 1 in
        Ok (ground_contact leg1)
    else Ok true in
  if calm then Ok self
  else
    let wind_mag :=
      (tanh (sin (0.02 * IZR (wind_idx self))
             + sin (PI * 0.01 * IZR (wind_idx self)))
       * wind_power self)%R in
    let self := set_wind_idx (wind_idx self + 1) self in
    let self :=
      set_world (ApplyForceToCenter (world self) l (wind_mag, 0.0)%R true)
        self in
    let torque_mag :=
      (tanh (sin (0.02 * IZR (torque_idx self))
             + sin (PI * 0.01 * IZR (torque_idx self)))
       * turbulence_power self)%R in
    let self := set_torque_idx (torque_idx self + 1) self in
    Ok (set_world (ApplyTorque (world self) l torque_mag true) self).

(** Lines 224 to 229. *)
Definition check_action (self : Env) (action : Action) : result Action :=
  if continuous self then Ok (clip_action action)
  else
    let* _ := assert (action_space_contains action) in
    Ok action.

(** Lines 236 to 265: the main engine; returns [m_power]. *)
Definition main_engine (l : BodyId) (action : Action) (tip side : Vec2)
    (dispersion : R * R) (self : Env) : result (R * Env) :=
  let* fire :=
    if continuous self then
      let* a0 := item0 action in Ok (Rltb 0.0 a0)
    else Ok (action_is action 2) in
  if fire then
    let* m_power :=
      if continuous self then
        let* a0 := item0 action in
        let m_power := ((clip a0 0.0 1.0 + 1.0) * 0.5)%R in
        let* _ := assert (Rleb 0.5 m_power && Rleb m_power 1.0) in
        Ok m_power
      else Ok 1.0%R in
    let ox :=
      (fst tip * (4 / SCALE K + 2 * fst dispersion)
       + fst side * snd dispersion)%R in
    let oy :=
      (- snd tip * (4 / SCALE K + 2 * fst dispersion)
       - snd side * snd dispersion)%R in
    let* b := body_of (world self) l in
    let impulse_pos :=
      (fst (position b) + ox, snd (position b) + oy)%R in
    let (w, p) :=
      _create_particle C (world self) 3.5%R (fst impulse_pos)
        (snd impulse_pos) m_power in
    let self := set_world w self in
    let self :=
      set_world
        (ApplyLinearImpulse C (world self) p
           (ox * MAIN_ENGINE_POWER K * m_power,
            oy * MAIN_ENGINE_POWER K * m_power)%R
           impulse_pos true) self in
    let self :=
      set_world
        (ApplyLinearImpulse C (world self) l
           (- ox * MAIN_ENGINE_POWER K * m_power,
            - oy * MAIN_ENGINE_POWER K * m_power)%R
           impulse_pos true) self in
    Ok (m_power, self)
  else Ok (0.0%R, self).

(** Lines 267 to 299: the orientation engines; returns [s_power]. *)
Definition side_engine (l : BodyId) (action : Action) (tip side : Vec2)
    (dispersion : R * R) (self : Env) : result (R * Env) :=
  let* fire :=
    if continuous self then
      let* a1 := item1 action in Ok (Rltb 0.5 (Rabs a1))
    else Ok (action_is action 1 || action_is action 3) in
  if fire then
    let* (direction, s_power) :=
      if continuous self then
        let* a1 := item1 action in
        let direction := sign a1 in
        let s_power := clip (Rabs a1) 0.5 1.0 in
        let* _ := assert (Rleb 0.5 s_power && Rleb s_power 1.0) in
        Ok (direction, s_power)
      else
        match action with
        | DiscreteAction a => Ok (IZR (a - 2), 1.0%R)
        | ContinuousAction a0 a1 => Raise AssertionError
        end in
    let ox :=
      (fst tip * fst dispersion
       + fst side * (3 * snd dispersion
                     + direction * SIDE_ENGINE_AWAY K / SCALE K))%R in
    let oy :=
      (- snd tip * fst dispersion
       - snd side * (3 * snd dispersion
                     + direction * SIDE_ENGINE_AWAY K / SCALE K))%R in
    let* b := body_of (world self) l in
    let impulse_pos :=
      (fst (position b) + ox - fst tip * 17 / SCALE K,
       snd (position b) + oy + snd tip * SIDE_ENGINE_HEIGHT K / SCALE K)%R in
    let (w, p) :=
      _create_particle C (world self) 0.7%R (fst impulse_pos)
        (snd impulse_pos) s_power in
    let self := set_world w self in
    let self :=
      set_world
        (ApplyLinearImpulse C (world self) p
           (ox * SIDE_ENGINE_POWER K * s_power,
            oy * SIDE_ENGINE_POWER K * s_power)%R
           impulse_pos true) self in
    let self :=
      set_world
        (ApplyLinearImpulse C (world self) l
           (- ox * SIDE_ENGINE_POWER K * s_power,
            - oy * SIDE_ENGINE_POWER K * s_power)%R
           impulse_pos true) self in
    Ok (s_power, self)
  else Ok (0.0%R, self).

(** Line 301: advance the world; the installed listener receives the
    contact callbacks. *)
Definition advance (self : Env) : Env :=
  let (w, events) :=
    world_Step C (world self) (1.0 / FPS K)%R (6 * 30) (2 * 30) in
  let listening := contactListener (world self) in
  let self := set_world w self in
  if listening
  then fold_left (fun e ev => ContactDetector ev e) events self
  else self.

(** Lines 318 to 324 *)
Definition shaping_of (s0 s1 s2 s3 s4 s6 s7 : R) : R :=
  (- 100 * sqrt (s0 * s0 + s1 * s1)
   - 100 * sqrt (s2 * s2 + s3 * s3)
   - 100 * Rabs s4
   + 10 * s6
   + 10 * s7)%R.

(** Lines 317 and 326 to 333: the shaping difference, when there is a
    previous shaping, less the fuel spent. *)
Definition reward_of (prev : option R) (shaping m_power s_power : R) : R :=
  let reward := 0%R in
  let reward :=
    match prev with
    | Some p => (shaping - p)%R
    | None => reward
    end in
  let reward := (reward - m_power * 0.30)%R in
  (reward - s_power * 0.03)%R.

(** Lines 335 to 341: the two termination tests, in the order of the source;
    returns [(terminated, reward)]. *)
Definition outcome_of (reward : R) (over : bool) (s0 : R) (awake : bool)
  : bool * R :=
  let terminated := false in
  let outcome :=
    if over || Rleb 1.0 (Rabs s0) then (true, (-100)%R)
    else (terminated, reward) in
  if negb awake then (true, 100%R) else outcome.

Definition step_locals (self : Env) (action : Action) : result StepLocals :=
  let* l :=
    match lander self with
    | Some l => Ok l
    | None => Raise AssertionError
    end in
  let* self := apply_wind l self in
  let* action := check_action self action in
  (* Engines *)
  let* b := body_of (world self) l in
  let tip := (sin (angle b), cos (angle b)) in
  let side := (- snd tip, fst tip)%R in
  let (d0, g) := uniform (-1.0) 1.0 (np_random self) in
  let (d1, g) := uniform (-1.0) 1.0 g in
  let dispersion := (d0 / SCALE K, d1 / SCALE K)%R in
  let self := set_np_random g self in
  let* (m_power, self) := main_engine l action tip side dispersion self in
  let* (s_power, self) := side_engine l action tip side dispersion self in
  let self := advance self in
  let* b := body_of (world self) l in
  let pos := position b in
  let vel := linearVelocity b in
  let* leg0 := getitem (legs self) 0 in
  let* leg1 := getitem (legs self) 1 in
  let s0 :=
    ((fst pos - VIEWPORT_W K / SCALE K / 2) / (VIEWPORT_W K / SCALE K / 2))%R in
  let s1 :=
    ((snd pos - (helipad_y self + LEG_DOWN K / SCALE K))
     / (VIEWPORT_H K / SCALE K / 2))%R in
  let s2 := (fst vel * (VIEWPORT_W K / SCALE K / 2) / FPS K)%R in
  let s3 := (snd vel * (VIEWPORT_H K / SCALE K / 2) / FPS K)%R in
  let s4 := angle b in
  let s5 := (20.0 * angularVelocity b / FPS K)%R in
  let s6 := b2R (ground_contact leg0) in
  let s7 := b2R (ground_contact leg1) in
  let state := [s0; s1; s2; s3; s4; s5; s6; s7] in
  let shaping := shaping_of s0 s1 s2 s3 s4 s6 s7 in
  let prev := prev_shaping self in
  let reward := reward_of prev shaping m_power s_power in
  let self := set_prev_shaping (Some shaping) self in
  let over := game_over self in
  let outcome := outcome_of reward over s0 (awake b) in
  Ok (mkStepLocals state m_power s_power shaping prev over (awake b)
        (snd outcome) (fst outcome) self).

Definition step (self : Env) (action : Action) : result (StepResult * Env) :=
  let* t := step_locals self action in
  Ok (mkStepResult (l_state t) (l_reward t) (l_terminated t) false, l_self t).

(** ** Reset *)

Definition zero_action (self : Env) : Action :=
  if continuous self then ContinuousAction 0 0 else DiscreteAction 0.

(** Lines 171 to 181: everything [reset] does before its closing step. *)
Definition reset_episode (self : Env) (seed : option Z) : result Env :=
  let* self := super_reset C self seed in
  let self := _destroy C self in
  let self := set_world (set_contactListener (world self) true) self in
  let self := set_game_over false self in
  let self := set_prev_shaping None self in
  let* self := _gen_uav_terrain K 90 false self in
  let* self := _gen_uav_lander K self in
  let self :=
    set_drawlist
      (match lander self with Some l => [l] | None => [] end
       ++ map leg_body (legs self)) self in
  Ok self.

Definition reset (self : Env) (seed : option Z) : result (list R * Env) :=
  let* self := reset_episode self seed in
  let* (r, self) := step self (zero_action self) in
  Ok (observation r, self).

End Episode.

(** ** Preconditions used in the statements *)

(** The solver and the engine calls do not remove bodies from the world. *)
Definition keeps_bodies (C : Collaborators) : Prop :=
  (forall w id imp pt wk l,
     is_Some (bodies w !! l) ->
     is_Some (bodies (ApplyLinearImpulse C w id imp pt wk) !! l))
  /\ (forall w dt vi pi l,
        is_Some (bodies w !! l) ->
        is_Some (bodies (world_Step C w dt vi pi).1 !! l))
  /\ (forall w m x y ttl l,
        is_Some (bodies w !! l) ->
        is_Some (bodies (_create_particle C w m x y ttl).1 !! l)).

(** The action fits the mode of the environment. *)
Definition valid_action (self : Env) (a : Action) : Prop :=
  match a with
  | ContinuousAction _ _ => continuous self = true
  | DiscreteAction x => continuous self = false /\ 0 <= x < 4
  end.

(** An environment on which [step] can be called: [reset] has built the
    lander and its two legs, and the lander body is in the world. *)
Definition step_ready (self : Env) : Prop :=
  (exists l, lander self = Some l /\ is_Some (bodies (world self) !! l))
  /\ (2 <= length (legs self))%nat.


(** What the stages of [step] before the solver leave untouched, for the
    lander handle [l]. *)
Definition carried (l : BodyId) (e e' : Env) : Prop :=
  lander e' = lander e
  /\ legs e' = legs e
  /\ prev_shaping e' = prev_shaping e
  /\ game_over e' = game_over e
  /\ continuous e' = continuous e
  /\ helipad_y e' = helipad_y e
  /\ (is_Some (bodies (world e) !! l) -> is_Some (bodies (world e') !! l)).

(** What [step] leaves as it was: the terrain attributes, the handles of
    the vehicle, the draw list, the mode and the wind configuration. *)
Definition untouched (e e' : Env) : Prop :=
  moon e' = moon e
  /\ sky_polys e' = sky_polys e
  /\ helipad_x1 e' = helipad_x1 e
  /\ helipad_x2 e' = helipad_x2 e
  /\ helipad_y e' = helipad_y e
  /\ lander e' = lander e
  /\ map leg_body (legs e') = map leg_body (legs e)
  /\ drawlist e' = drawlist e
  /\ continuous e' = continuous e
  /\ enable_wind e' = enable_wind e
  /\ wind_power e' = wind_power e
  /\ turbulence_power e' = turbulence_power e.

(** ** Sample inputs

    Concrete constants, generator, world and collaborators on which the
    model is evaluated. *)

(** A generator whose every unit draw is 1/4. *)
Definition sample_generator : Generator :=
  mkGenerator (fun _ => (1 / 4)%R) 0%nat.

Definition empty_world : World := mkWorld ∅ 0%nat [] false.

(** An environment object before any episode. *)
Definition blank_env (cont : bool) : Env :=
  mkEnv sample_generator empty_world None [] 0%R 0%R 0%R None [] [] false None
    cont false 0%R 0%R 0 0.

(** Collaborators of the simplest kind: impulses and the solver leave the
    world as it is, particles are not created, the inherited reset seeds the
    generator and the inherited destroy empties the world. *)
Definition idle_collaborators : Collaborators := {|
  ApplyLinearImpulse := fun w _ _ _ _ => w;
  world_Step := fun w _ _ _ => (w, []);
  _create_particle := fun w _ _ _ _ => (w, 0%nat);
  super_reset := fun e seed =>
    match seed with
    | Some _ => Ok (set_np_random sample_generator e)
    | None => Ok e
    end;
  _destroy := fun e =>
    set_legs [] (set_lander None (set_moon None [] (set_world empty_world e)))
|}.

(** * Properties *)

(** ** Sequences, indexing and the generator *)

Example range_3 : range 3 = [0; 1; 2].
Proof. reflexivity. Qed.

Example range_negative : range (-1) = [].
Proof. reflexivity. Qed.

Example getitem_last : getitem [10; 20; 30] (-1) = Ok 30.
Proof. reflexivity. Qed.

Example getitem_past_the_end : getitem [10; 20; 30] 3 = Raise IndexError.
Proof. reflexivity. Qed.

Example setitem_wraps : setitem [10; 20; 30] (-3) 7 = Ok [7; 20; 30].
Proof. reflexivity. Qed.

Example floor_division_of_minus_one : (0 / width_para - 1) / 2 = -1.
Proof. reflexivity. Qed.

Example two_draws :
  (uniform_list 0 10 2 sample_generator).1
  = [(0 + (10 - 0) * (1 / 4))%R; (0 + (10 - 0) * (1 / 4))%R].
Proof. reflexivity. Qed.


Lemma range_length (n : Z) : length (range n) = Z.to_nat n.
Proof. unfold range. rewrite length_map, length_seq. reflexivity. Qed.

Lemma range_lookup (n : Z) (k : nat) :
  (k < Z.to_nat n)%nat -> range n !! k = Some (Z.of_nat k).
Proof.
  intros Hk. unfold range.
  rewrite list_lookup_fmap, lookup_seq_lt by exact Hk. reflexivity.
Qed.

Lemma range_elem (n i : Z) : i ∈ range n -> 0 <= i < n.
Proof.
  unfold range. intros Hin.
  apply list_elem_of_fmap in Hin as (k & -> & Hk).
  apply elem_of_seq in Hk. lia.
Qed.

Lemma comprehension_map {A B : Type} (f : A -> result B) (g : A -> B)
    (xs : list A) :
  (forall x, x ∈ xs -> f x = Ok (g x)) ->
  comprehension f xs = Ok (map g xs).
Proof.
  induction xs as [|x xs IH]; intros Hf; simpl.
  - reflexivity.
  - rewrite (Hf x) by apply list_elem_of_here. simpl.
    rewrite IH; [reflexivity|].
    intros y Hy. apply Hf. apply list_elem_of_further, Hy.
Qed.

Lemma py_index_nonneg (len : nat) (i : Z) :
  0 <= i < Z.of_nat len -> py_index len i = Ok (Z.to_nat i).
Proof.
  intros Hi. unfold py_index.
  destruct (0 <=? i) eqn:E1; [|lia].
  destruct (i <? Z.of_nat len) eqn:E2; [|lia].
  reflexivity.
Qed.

Lemma py_index_wrap (len : nat) (i : Z) :
  - Z.of_nat len <= i < 0 -> py_index len i = Ok (Z.to_nat (Z.of_nat len + i)).
Proof.
  intros Hi. unfold py_index.
  destruct (0 <=? i) eqn:E1; [lia|]. simpl.
  destruct (- Z.of_nat len <=? i) eqn:E2; [|lia].
  destruct (i <? 0) eqn:E3; [|lia].
  reflexivity.
Qed.


Lemma getitem_nonneg {A : Type} (l : list A) (i : Z) :
  0 <= i < Z.of_nat (length l) ->
  exists x, l !! Z.to_nat i = Some x /\ getitem l i = Ok x.
Proof.
  intros Hi. unfold getitem. rewrite py_index_nonneg by exact Hi. simpl.
  destruct (lookup_lt_is_Some_2 l (Z.to_nat i)) as [x Hx]; [lia|].
  exists x. rewrite Hx. split; reflexivity.
Qed.

Lemma getitem_lookup {A : Type} (l : list A) (i : Z) (x : A) :
  0 <= i -> l !! Z.to_nat i = Some x -> getitem l i = Ok x.
Proof.
  intros Hi Hx. pose proof (lookup_lt_Some _ _ _ Hx) as Hlt.
  unfold getitem. rewrite py_index_nonneg by lia. simpl. rewrite Hx.
  reflexivity.
Qed.

Lemma getitem_wrap {A : Type} (l : list A) (i : Z) :
  - Z.of_nat (length l) <= i < 0 ->
  exists x, getitem l i = Ok x.
Proof.
  intros Hi. unfold getitem. rewrite py_index_wrap by exact Hi. simpl.
  destruct (lookup_lt_is_Some_2 l (Z.to_nat (Z.of_nat (length l) + i)))
    as [x Hx]; [lia|].
  exists x. rewrite Hx. reflexivity.
Qed.


Lemma setitem_nonneg {A : Type} (l : list A) (i : Z) (v : A) :
  0 <= i < Z.of_nat (length l) ->
  setitem l i v = Ok (<[Z.to_nat i := v]> l).
Proof.
  intros Hi. unfold setitem. rewrite py_index_nonneg by exact Hi. reflexivity.
Qed.


Lemma uniform_list_length (low high : R) (n : nat) (g : Generator) :
  length (uniform_list low high n g).1 = n.
Proof.
  revert g. induction n as [|n IH]; intros g; simpl.
  - reflexivity.
  - specialize (IH (mkGenerator (source g) (S (cursor g)))).
    destruct (uniform_list low high n _) as [xs g2]. simpl in *.
    rewrite IH. reflexivity.
Qed.

Lemma uniform_list_generator (low high : R) (n : nat) (g : Generator) :
  (uniform_list low high n g).2 = mkGenerator (source g) (cursor g + n).
Proof.
  revert g. induction n as [|n IH]; intros g; simpl.
  - destruct g as [src c]. simpl. f_equal. lia.
  - specialize (IH (mkGenerator (source g) (S (cursor g)))).
    destruct (uniform_list low high n _) as [xs g2]. simpl in *.
    rewrite IH. f_equal. lia.
Qed.

Lemma uniform_list_lookup (low high : R) (n : nat) (g : Generator) (k : nat) :
  (k < n)%nat ->
  (uniform_list low high n g).1 !! k
  = Some (low + (high - low) * source g (cursor g + k))%R.
Proof.
  revert g k. induction n as [|n IH]; intros g k Hk; [lia|]. simpl.
  pose proof (IH (mkGenerator (source g) (S (cursor g)))) as IH'.
  destruct (uniform_list low high n _) as [xs g2]. simpl in *.
  destruct k as [|k]; simpl.
  - rewrite Nat.add_0_r. reflexivity.
  - rewrite IH' by lia. repeat f_equal. lia.
Qed.

Lemma comprehension_total {A B : Type} (f : A -> result B) (xs : list A) :
  (forall x, x ∈ xs -> exists y, f x = Ok y) ->
  exists ys, comprehension f xs = Ok ys /\ length ys = length xs.
Proof.
  induction xs as [|x xs IH]; intros Hf; simpl.
  - exists []. split; reflexivity.
  - destruct (Hf x) as [y Hy]; [apply list_elem_of_here|].
    destruct IH as (ys & Hys & Hlen).
    { intros z Hz. apply Hf. apply list_elem_of_further, Hz. }
    exists (y :: ys). rewrite Hy, Hys. simpl. split; [reflexivity|].
    rewrite Hlen. reflexivity.
Qed.

(** ** Terrain generation *)

Section TerrainFacts.
Context (K : Constants).

Lemma gen_chunk_x_ok (N : Z) :
  2 <= N ->
  gen_chunk_x K N = Ok (map (fun i => W K / IZR (N - 1) * IZR i)%R (range N)).
Proof.
  intros HN. unfold gen_chunk_x. apply comprehension_map.
  intros i _. unfold truediv.
  destruct (N - 1 =? 0) eqn:E; [lia|]. reflexivity.
Qed.



Lemma gen_smooth_y_ok (height : list R) (N : Z) :
  length height = Z.to_nat (N + 1) -> 0 <= N ->
  exists s, gen_smooth_y height N = Ok s /\ length s = Z.to_nat N.
Proof.
  intros Hlen HN. unfold gen_smooth_y.
  destruct (comprehension_total
    (fun i =>
       let* a := getitem height (i - 1) in
       let* b := getitem height (i + 0) in
       let* c := getitem height (i + 1) in
       Ok (0.33 * (a + b + c))%R) (range N)) as (s & Hs & Hl).
  - intros i Hi. apply range_elem in Hi.
    assert (Ha : exists a, getitem height (i - 1) = Ok a).
    { destruct (Z.eq_dec i 0) as [->|Hne].
      - apply getitem_wrap. lia.
      - destruct (getitem_nonneg height (i - 1)) as (a & _ & Ha); [lia|].
        exists a. exact Ha. }
    destruct Ha as [a Ha].
    destruct (getitem_nonneg height (i + 0)) as (b & _ & Hb); [lia|].
    destruct (getitem_nonneg height (i + 1)) as (c & _ & Hc); [lia|].
    rewrite Ha, Hb, Hc. simpl. eexists. reflexivity.
  - exists s. split; [exact Hs|]. rewrite Hl, range_length. reflexivity.
Qed.

Lemma platform_loop (N : Z) (hy d : R) (n a : nat) (s : list R) :
  Z.of_nat (a + n) <= N / 2 ->
  N / 2 + Z.of_nat (a + n) < Z.of_nat (length s) ->
  exists s',
    for_each (platform_step N hy d) (map Z.of_nat (seq a n)) s = Ok s'
    /\ length s' = length s
    /\ (forall j : Z, Z.of_nat a < j <= Z.of_nat (a + n) ->
          s' !! Z.to_nat (N / 2 - j) = Some (hy - d * IZR j)%R
          /\ s' !! Z.to_nat (N / 2 + j) = Some (hy + d * IZR j)%R)
    /\ (forall k : nat,
          Z.of_nat k < N / 2 - Z.of_nat (a + n)
          \/ N / 2 - Z.of_nat a <= Z.of_nat k <= N / 2 + Z.of_nat a
          \/ N / 2 + Z.of_nat (a + n) < Z.of_nat k ->
          s' !! k = s !! k).
Proof.
  revert a s. induction n as [|n IH]; intros a s Hlo Hhi.
  - exists s. simpl. repeat split; intros; try lia; reflexivity.
  - simpl. unfold platform_step at 1.
    rewrite setitem_nonneg by lia. simpl.
    rewrite setitem_nonneg by (rewrite length_insert; lia).
    simpl.
    set (s1 := <[Z.to_nat (N / 2 + (Z.of_nat a + 1)) :=
                  (hy + d * IZR (Z.of_nat a + 1))%R]>
               (<[Z.to_nat (N / 2 - (Z.of_nat a + 1)) :=
                  (hy - d * IZR (Z.of_nat a + 1))%R]> s)).
    destruct (IH (S a) s1) as (s' & Hrun & Hlen & Hline & Hout).
    { lia. }
    { unfold s1. rewrite !length_insert. lia. }
    exists s'. split; [exact Hrun|]. split.
    { rewrite Hlen. unfold s1. rewrite !length_insert. reflexivity. }
    split.
    + intros j Hj. destruct (Z.eq_dec j (Z.of_nat a + 1)) as [->|Hne].
      * split.
        -- rewrite Hout by lia. unfold s1.
           rewrite list_lookup_insert_ne by lia.
           apply list_lookup_insert_eq. lia.
        -- rewrite Hout by lia. unfold s1.
           apply list_lookup_insert_eq. rewrite length_insert. lia.
      * apply Hline. lia.
    + intros k Hk. rewrite Hout by lia. unfold s1.
      rewrite !list_lookup_insert_ne by lia. reflexivity.
Qed.

End TerrainFacts.

Section TerrainNodesFacts.
Context (K : Constants).

(** For [N >= 3] every index used by lines 58 to 87 is in range: the
    function returns, and its locals have these values. *)
Lemma terrain_nodes_ok (N : Z) (flat : bool) (g : Generator) :
  3 <= N ->
  exists t,
    terrain_nodes K N flat g = Ok t
    /\ t_height t
       = <[Z.to_nat (N / 2) := t_helipad_y t]>
           (uniform_list 0 (H K / 2) (Z.to_nat (N + 1)) g).1
    /\ t_chunk_x t = map (fun i => W K / IZR (N - 1) * IZR i)%R (range N)
    /\ length (t_smooth_y t) = Z.to_nat N
    /\ t_helipad_y t
       = (H K / 2 + (H K * 3 / 5 - H K / 2)
                    * source g (cursor g + Z.to_nat (N + 1)))%R
    /\ t_width_node t = (N / 6 - 1) / 2
    /\ t_helipad_x1 t
       = (W K / IZR (N - 1) * IZR (N / 2 - t_width_node t))%R
    /\ t_helipad_x2 t
       = (W K / IZR (N - 1) * IZR (N / 2 + t_width_node t))%R
    /\ t_angle t
       = (if flat then 0
          else - PI / 6 + (PI / 6 - - PI / 6)
                          * source g (cursor g + Z.to_nat (N + 1) + 1))%R
    /\ t_diff_high t = (tan (t_angle t) * W K / IZR (N - 1))%R
    /\ t_smooth_y t !! Z.to_nat (N / 2) = Some (t_helipad_y t)
    /\ (forall j : Z, 1 <= j <= t_width_node t ->
          t_smooth_y t !! Z.to_nat (N / 2 - j)
          = Some (t_helipad_y t - t_diff_high t * IZR j)%R
          /\ t_smooth_y t !! Z.to_nat (N / 2 + j)
             = Some (t_helipad_y t + t_diff_high t * IZR j)%R)
    /\ t_np_random t
       = mkGenerator (source g)
           (cursor g + Z.to_nat (N + 1) + 1 + (if flat then 0 else 1)).
Proof.
  intros HN.
  assert (Hc : 1 <= N / 2 < N).
  { split; [apply Z.div_le_lower_bound|apply Z.div_lt_upper_bound]; lia. }
  assert (Hw : -1 <= (N / 6 - 1) / 2 /\ 12 * ((N / 6 - 1) / 2) <= N).
  { pose proof (Z.div_pos N 6 ltac:(lia) ltac:(lia)).
    pose proof (Z.mul_div_le N 6 ltac:(lia)).
    pose proof (Z.mul_div_le (N / 6 - 1) 2 ltac:(lia)).
    split; [apply Z.div_le_lower_bound; lia | lia]. }
  assert (Hc2 : N - 1 <= 2 * (N / 2) <= N).
  { pose proof (Z.mul_div_le N 2 ltac:(lia)).
    pose proof (Z.mul_succ_div_gt N 2 ltac:(lia)). lia. }
  unfold terrain_nodes, draw_heights, uniform_size.
  destruct (N + 1 <? 0) eqn:E1; [lia|]. clear E1. simpl bind at 1.
  pose proof (uniform_list_length 0 (H K / 2) (Z.to_nat (N + 1)) g) as Hlen0.
  pose proof (uniform_list_generator 0 (H K / 2) (Z.to_nat (N + 1)) g) as Hg0.
  destruct (uniform_list 0 (H K / 2) (Z.to_nat (N + 1)) g) as [h0 g1].
  simpl in Hlen0, Hg0. subst g1.
  rewrite gen_chunk_x_ok by lia. simpl bind at 1.
  destruct (gen_smooth_y_ok h0 N) as (s0 & Hs0 & Hls0); [exact Hlen0|lia|].
  rewrite Hs0. simpl bind at 1.
  change (1 <? 0) with false. cbv iota.
  change (Z.to_nat 1) with 1%nat.
  cbn [uniform_list uniform random source cursor bind].
  set (hy := (H K / 2 + (H K * 3 / 5 - H K / 2)
                        * source g (cursor g + Z.to_nat (N + 1)))%R).
  change (getitem [hy] 0) with (Ok hy). cbn [bind].
  rewrite Z.add_0_r.
  rewrite setitem_nonneg by lia. cbn [bind].
  rewrite (getitem_lookup _ (N / 2) hy)
    by (try lia; apply list_lookup_insert_eq; lia).
  cbn [bind].
  set (w := (N / width_para - 1) / 2).
  assert (Hw' : -1 <= w /\ 12 * w <= N) by exact Hw.
  set (cx := map (fun i => W K / IZR (N - 1) * IZR i)%R (range N)).
  assert (Hcx : forall i, 0 <= i < N ->
            getitem cx i = Ok (W K / IZR (N - 1) * IZR i)%R).
  { intros i Hi. apply getitem_lookup; [lia|]. unfold cx.
    rewrite list_lookup_fmap, range_lookup by lia. simpl.
    rewrite Z2Nat.id by lia. reflexivity. }
  rewrite (Hcx (N / 2 - w)) by lia. cbn [bind].
  rewrite (Hcx (N / 2 + w)) by lia. cbn [bind].
  rewrite setitem_nonneg by lia. cbn [bind].
  set (s1 := <[Z.to_nat (N / 2) := hy]> s0).
  assert (Hls1 : length s1 = Z.to_nat N)
    by (unfold s1; rewrite length_insert; exact Hls0).
  set (ang := (if flat then 0
               else - PI / 6 + (PI / 6 - - PI / 6)
                    * source g (cursor g + Z.to_nat (N + 1) + 1))%R).
  set (g3 := mkGenerator (source g)
               (cursor g + Z.to_nat (N + 1) + 1 + (if flat then 0 else 1))).
  match goal with
  | |- context [if negb flat then ?a else ?b] =>
      assert (Hang : (if negb flat then a else b) = Ok (ang, g3))
  end.
  { unfold ang, g3. destruct flat; simpl.
    - do 3 f_equal. lia.
    - do 3 f_equal; [do 2 f_equal|]; lia. }
  rewrite Hang. cbn [bind].
  unfold truediv. destruct (N - 1 =? 0) eqn:E2; [lia|]. cbn [bind].
  set (d := (tan ang * W K / IZR (N - 1))%R).
  destruct (platform_loop N hy d (Z.to_nat w) 0 s1)
    as (s' & Hrun & Hlen' & Hline & Hout); [lia|lia|].
  unfold range. rewrite Hrun. cbn [bind].
  eexists. split; [reflexivity|]. cbn.
  repeat split; try reflexivity.
  - rewrite Hlen'. exact Hls1.
  - rewrite Hout by lia. unfold s1. apply list_lookup_insert_eq. lia.
  - apply Hline. lia.
  - apply Hline. lia.
Qed.

End TerrainNodesFacts.

Section GroundFacts.
Context (K : Constants).

(** The ground loop adds one edge fixture per segment to the body [m],
    each with the engine's default filter, and touches nothing else. *)
Lemma ground_loop (cx sy : list R) (m : BodyId) (xs : list Z)
    (w : World) (polys : list (list Vec2)) (b : Body) :
  (forall i, i ∈ xs ->
     0 <= i /\ i + 1 < Z.of_nat (length cx) /\ i + 1 < Z.of_nat (length sy)) ->
  bodies w !! m = Some b ->
  exists w' polys' b' edges,
    for_each (ground_step K cx sy m) xs (w, polys) = Ok (w', polys')
    /\ next_body w' = next_body w
    /\ joints w' = joints w
    /\ contactListener w' = contactListener w
    /\ (forall id, id <> m -> bodies w' !! id = bodies w !! id)
    /\ bodies w' !! m = Some b'
    /\ body_type b' = body_type b
    /\ fixtures b' = fixtures b ++ edges
    /\ length edges = length xs
    /\ (forall (k : nat) (i : Z), xs !! k = Some i ->
          exists x1 y1 x2 y2,
            cx !! Z.to_nat i = Some x1 /\ sy !! Z.to_nat i = Some y1
            /\ cx !! Z.to_nat (i + 1) = Some x2
            /\ sy !! Z.to_nat (i + 1) = Some y2
            /\ edges !! k
               = Some (mkFixture (edgeShape (x1, y1) (x2, y2))
                         (Some 0%R) (Some 0.1%R) None None None)).
Proof.
  revert w polys b. induction xs as [|i xs IH]; intros w polys b Hxs Hb.
  - exists w, polys, b, []. simpl. rewrite app_nil_r.
    repeat split; try reflexivity; try assumption.
    intros k i Hk. rewrite lookup_nil in Hk. discriminate.
  - destruct (Hxs i) as (Hi0 & Hi1 & Hi2); [apply list_elem_of_here|].
    destruct (getitem_nonneg cx i) as (x1 & Hx1 & Gx1); [lia|].
    destruct (getitem_nonneg sy i) as (y1 & Hy1 & Gy1); [lia|].
    destruct (getitem_nonneg cx (i + 1)) as (x2 & Hx2 & Gx2); [lia|].
    destruct (getitem_nonneg sy (i + 1)) as (y2 & Hy2 & Gy2); [lia|].
    simpl. rewrite Gx1, Gy1, Gx2, Gy2. simpl.
    set (f := mkFixture (edgeShape (x1, y1) (x2, y2))
                (Some 0%R) (Some 0.1%R) None None None).
    set (w1 := CreateEdgeFixture w m (x1, y1) (x2, y2) 0 0.1).
    assert (Hb1 : bodies w1 !! m = Some (add_fixture f b)).
    { unfold w1, CreateEdgeFixture. simpl. rewrite lookup_alter_eq, Hb.
      reflexivity. }
    destruct (IH w1 (polys ++ [[(x1, y1); (x2, y2); (x2, H K); (x1, H K)]])
                (add_fixture f b))
      as (w' & polys' & b' & edges & Hrun & Hn & Hj & Hl & Hother & Hm
          & Hty & Hfix & Hlen & Hedges).
    { intros j Hj. apply Hxs. apply list_elem_of_further, Hj. }
    { exact Hb1. }
    exists w', polys', b', (f :: edges).
    split; [exact Hrun|].
    split; [rewrite Hn; reflexivity|].
    split; [rewrite Hj; reflexivity|].
    split; [rewrite Hl; reflexivity|].
    split.
    { intros id Hid. rewrite Hother by exact Hid. unfold w1. simpl.
      apply lookup_alter_ne. congruence. }
    split; [exact Hm|].
    split; [exact Hty|].
    split.
    { rewrite Hfix. simpl. rewrite <- app_assoc. reflexivity. }
    split; [simpl; rewrite Hlen; reflexivity|].
    intros [|k] j Hk; simpl in Hk.
    + injection Hk as <-. exists x1, y1, x2, y2. repeat split; assumption.
    + apply (Hedges k j Hk).
Qed.

Lemma gen_uav_terrain_ok (N : Z) (flat : bool) (self : Env) :
  3 <= N ->
  exists t self' b edges,
    terrain_nodes K N flat (np_random self) = Ok t
    /\ _gen_uav_terrain K N flat self = Ok self'
    /\ np_random self' = t_np_random t
    /\ helipad_y self' = t_helipad_y t
    /\ helipad_x1 self' = t_helipad_x1 t
    /\ helipad_x2 self' = t_helipad_x2 t
    /\ moon self' = Some (next_body (world self))
    /\ next_body (world self') = S (next_body (world self))
    /\ joints (world self') = joints (world self)
    /\ contactListener (world self') = contactListener (world self)
    /\ (forall id, id <> next_body (world self) ->
          bodies (world self') !! id = bodies (world self) !! id)
    /\ bodies (world self') !! next_body (world self) = Some b
    /\ body_type b = staticBody
    /\ fixtures b
       = mkFixture (edgeShape (0, 0)%R (W K, 0)%R) None None None None None
         :: edges
    /\ length edges = Z.to_nat (N - 1)
    /\ (forall k : nat, (k < Z.to_nat (N - 1))%nat ->
          exists x1 y1 x2 y2,
            t_chunk_x t !! k = Some x1 /\ t_smooth_y t !! k = Some y1
            /\ t_chunk_x t !! S k = Some x2
            /\ t_smooth_y t !! S k = Some y2
            /\ edges !! k
               = Some (mkFixture (edgeShape (x1, y1) (x2, y2))
                         (Some 0%R) (Some 0.1%R) None None None))
    /\ lander self' = lander self
    /\ legs self' = legs self
    /\ game_over self' = game_over self
    /\ prev_shaping self' = prev_shaping self
    /\ continuous self' = continuous self.
Proof.
  intros HN.
  destruct (terrain_nodes_ok K N flat (np_random self) HN)
    as (t & Ht & _ & Hcx & Hsy & _).
  unfold _gen_uav_terrain. rewrite Ht. cbn [bind].
  set (m := next_body (world self)).
  set (base := new_body staticBody (0, 0)%R 0%R
                 [mkFixture (edgeShape (0, 0)%R (W K, 0)%R)
                    None None None None None]).
  cbn [CreateStaticBody CreateBody set_helipad set_np_random world].
  fold m. fold base.
  set (w0 := mkWorld (<[m := base]> (bodies (world self))) (S m)
               (joints (world self)) (contactListener (world self))).
  destruct (ground_loop (t_chunk_x t) (t_smooth_y t) m (range (N - 1))
              w0 [] base)
    as (w' & polys' & b' & edges & Hrun & Hn & Hj & Hl & Hother & Hm
        & Hty & Hfix & Hlen & Hedges).
  { intros i Hi. apply range_elem in Hi. rewrite Hcx, length_map, range_length.
    lia. }
  { unfold w0. simpl. apply lookup_insert_eq. }
  rewrite Hrun. cbn [bind].
  exists t, (set_moon (Some m) polys'
               (set_world w'
                  (set_helipad (t_helipad_x1 t) (t_helipad_x2 t)
                     (t_helipad_y t) (set_np_random (t_np_random t) self)))),
    b', edges.
  split; [reflexivity|]. split; [reflexivity|]. cbn.
  repeat split; try reflexivity; try assumption.
  - intros id Hid. rewrite Hother by exact Hid. unfold w0. simpl.
    apply lookup_insert_ne. congruence.
  - rewrite Hlen, range_length. reflexivity.
  - intros k Hk.
    destruct (Hedges k (Z.of_nat k))
      as (x1 & y1 & x2 & y2 & H1 & H2 & H3 & H4 & H5).
    { apply range_lookup. exact Hk. }
    exists x1, y1, x2, y2.
    rewrite Nat2Z.id in H1, H2.
    replace (Z.to_nat (Z.of_nat k + 1)) with (S k) in H3, H4 by lia.
    repeat split; assumption.
Qed.

End GroundFacts.

Section TerrainProperties.
Context (K : Constants).

Lemma W_pos : (0 < VIEWPORT_W K)%R -> (0 < SCALE K)%R -> (0 < W K)%R.
Proof. intros Hw Hs. unfold W. apply Rdiv_lt_0_compat; assumption. Qed.

Lemma H_nonneg : (0 <= VIEWPORT_H K)%R -> (0 < SCALE K)%R -> (0 <= H K)%R.
Proof.
  intros Hh Hs. unfold H, Rdiv. apply Rmult_le_pos; [exact Hh|].
  left. apply Rinv_0_lt_compat. exact Hs.
Qed.

Lemma chunk_x_lookup (N : Z) (i : nat) (x : R) :
  map (fun i => W K / IZR (N - 1) * IZR i)%R (range N) !! i = Some x ->
  (i < Z.to_nat N)%nat /\ x = (W K / IZR (N - 1) * IZR (Z.of_nat i))%R.
Proof.
  intros Hx. pose proof (lookup_lt_Some _ _ _ Hx) as Hlt.
  rewrite length_map, range_length in Hlt. split; [exact Hlt|].
  rewrite list_lookup_fmap, range_lookup in Hx by exact Hlt.
  simpl in Hx. congruence.
Qed.

(** What [terrain_nodes] returns was computed by its stages. *)
Lemma terrain_nodes_stages (N : Z) (flat : bool) (g : Generator)
    (t : TerrainNodes) :
  terrain_nodes K N flat g = Ok t ->
  gen_chunk_x K N = Ok (t_chunk_x t)
  /\ exists hs g', draw_heights K N g = Ok (hs, g')
                   /\ length (t_height t) = length hs.
Proof.
  unfold terrain_nodes. intros Ht.
  destruct (draw_heights K N g) as [[hs g1]|] eqn:E1; [|discriminate Ht].
  cbn [bind] in Ht.
  destruct (gen_chunk_x K N) as [cx|] eqn:E2; [|discriminate Ht].
  cbn [bind] in Ht.
  destruct (gen_smooth_y hs N) as [sy|]; [|discriminate Ht].
  cbn [bind] in Ht.
  destruct (uniform_size (H K / 2) (H K * 3 / 5) 1 g1) as [[dr g2]|];
    [|discriminate Ht].
  cbn [bind] in Ht.
  destruct (getitem dr 0) as [d0|]; [|discriminate Ht]. cbn [bind] in Ht.
  destruct (setitem hs (N / 2 + 0) d0) as [hs'|] eqn:E3; [|discriminate Ht].
  cbn [bind] in Ht.
  destruct (getitem hs' (N / 2 + 0)) as [hy|]; [|discriminate Ht].
  cbn [bind] in Ht.
  destruct (getitem cx _) as [x1|]; [|discriminate Ht]. cbn [bind] in Ht.
  destruct (getitem cx _) as [x2|]; [|discriminate Ht]. cbn [bind] in Ht.
  destruct (setitem sy (N / 2 + 0) hy) as [sy'|]; [|discriminate Ht].
  cbn [bind] in Ht.
  match type of Ht with
  | bind ?m _ = _ => destruct m as [[ang g3]|]; [|discriminate Ht]
  end.
  cbn [bind] in Ht.
  destruct (truediv _ _) as [d|]; [|discriminate Ht]. cbn [bind] in Ht.
  destruct (for_each _ _ _) as [sy''|]; [|discriminate Ht].
  cbn [bind] in Ht. injection Ht as <-. cbn.
  split; [reflexivity|]. exists hs, g1. split; [reflexivity|].
  unfold setitem in E3.
  destruct (py_index (length hs) (N / 2 + 0)) as [k|]; [|discriminate E3].
  cbn [bind] in E3. injection E3 as <-. apply length_insert.
Qed.

(** C8: for every node count [N >= 2] the horizontal node coordinates are
    [W / (N - 1) * i] for [i = 0 .. N - 1]: strictly increasing, evenly
    spaced, starting at [0] and ending at the viewport width [W]; and these
    are the coordinates of every terrain the generator returns. *)
Theorem chunk_x_evenly_spaced (N : Z) :
  (0 < VIEWPORT_W K)%R -> (0 < SCALE K)%R -> 2 <= N ->
  exists cx,
    gen_chunk_x K N = Ok cx
    /\ length cx = Z.to_nat N
    /\ (forall i : Z, 0 <= i < N ->
          cx !! Z.to_nat i = Some (W K / IZR (N - 1) * IZR i)%R)
    /\ (forall (i j : nat) (xi xj : R),
          cx !! i = Some xi -> cx !! j = Some xj -> (i < j)%nat ->
          (xi < xj)%R)
    /\ (forall (i : nat) (xi xj : R),
          cx !! i = Some xi -> cx !! S i = Some xj ->
          (xj - xi = W K / IZR (N - 1))%R)
    /\ cx !! 0%nat = Some 0%R
    /\ cx !! Z.to_nat (N - 1) = Some (W K)
    /\ (forall flat g t,
          terrain_nodes K N flat g = Ok t -> t_chunk_x t = cx).
Proof.
  intros HW HS HN.
  pose proof (W_pos HW HS) as HWpos.
  assert (Hden : (0 < IZR (N - 1))%R) by (apply IZR_lt; lia).
  assert (Hdx : (0 < W K / IZR (N - 1))%R)
    by (apply Rdiv_lt_0_compat; assumption).
  set (cx := map (fun i => W K / IZR (N - 1) * IZR i)%R (range N)).
  assert (Hget : forall i : Z, 0 <= i < N ->
            cx !! Z.to_nat i = Some (W K / IZR (N - 1) * IZR i)%R).
  { intros i Hi. unfold cx.
    rewrite list_lookup_fmap, range_lookup by lia. simpl.
    rewrite Z2Nat.id by lia. reflexivity. }
  exists cx. split; [apply gen_chunk_x_ok; exact HN|].
  split; [unfold cx; rewrite length_map, range_length; reflexivity|].
  split; [exact Hget|].
  split.
  { intros i j xi xj Hi Hj Hij.
    apply chunk_x_lookup in Hi as [_ ->]. apply chunk_x_lookup in Hj as [_ ->].
    apply Rmult_lt_compat_l; [exact Hdx|]. apply IZR_lt. lia. }
  split.
  { intros i xi xj Hi Hj.
    apply chunk_x_lookup in Hi as [_ ->]. apply chunk_x_lookup in Hj as [_ ->].
    rewrite Nat2Z.inj_succ, succ_IZR. lra. }
  split.
  { change 0%nat with (Z.to_nat 0). rewrite (Hget 0) by lia. f_equal. lra. }
  split.
  { rewrite Hget by lia. f_equal. field. lra. }
  intros flat g t Ht. apply terrain_nodes_stages in Ht as [Hcx _].
  rewrite gen_chunk_x_ok in Hcx by exact HN. injection Hcx as <-.
  reflexivity.
Qed.

(** C4 (as amended): for every node count [N >= -1] the generator draws
    exactly [N + 1] height samples, consecutive uniform draws each in
    [[0, H/2]], and the height array of a returned terrain has that
    length. *)
Theorem draw_heights_count (N : Z) (g : Generator) :
  (0 <= VIEWPORT_H K)%R -> (0 < SCALE K)%R -> unit_draws g -> -1 <= N ->
  exists hs g',
    draw_heights K N g = Ok (hs, g')
    /\ length hs = Z.to_nat (N + 1)
    /\ g' = mkGenerator (source g) (cursor g + Z.to_nat (N + 1))
    /\ (forall (k : nat) (x : R), hs !! k = Some x ->
          x = (0 + (H K / 2 - 0) * source g (cursor g + k))%R
          /\ (0 <= x <= H K / 2)%R)
    /\ (forall flat t,
          terrain_nodes K N flat g = Ok t ->
          length (t_height t) = Z.to_nat (N + 1)).
Proof.
  intros HH HS Hu HN. pose proof (H_nonneg HH HS) as HHpos.
  unfold draw_heights at 1. unfold uniform_size.
  destruct (N + 1 <? 0) eqn:E; [lia|].
  pose proof (uniform_list_length 0 (H K / 2) (Z.to_nat (N + 1)) g) as Hlen.
  pose proof (uniform_list_generator 0 (H K / 2) (Z.to_nat (N + 1)) g) as Hg.
  pose proof (uniform_list_lookup 0 (H K / 2) (Z.to_nat (N + 1)) g) as Hlk.
  destruct (uniform_list 0 (H K / 2) (Z.to_nat (N + 1)) g) as [hs g'] eqn:Eu.
  simpl in Hlen, Hg, Hlk.
  exists hs, g'. split; [reflexivity|]. split; [exact Hlen|].
  split; [exact Hg|]. split.
  - intros k x Hx. pose proof (lookup_lt_Some _ _ _ Hx) as Hk.
    rewrite Hlk in Hx by lia. injection Hx as <-. split; [reflexivity|].
    destruct (Hu (cursor g + k)%nat) as [H0 H1]. nra.
  - intros flat t Ht.
    apply terrain_nodes_stages in Ht as (_ & hs2 & g2 & Hd & Hl).
    unfold draw_heights, uniform_size in Hd. rewrite E, Eu in Hd.
    injection Hd as <- <-. rewrite Hl. exact Hlen.
Qed.

(** C5 (as amended): terrain generation does not validate the node count.
    It completes exactly when [N >= 3]; for [3 <= N <= 17] it completes
    although the half-width [(N // 6 - 1) // 2] is zero or negative, and
    when the half-width is zero both platform bounds are the center
    node's coordinate. *)
Theorem terrain_generation_unvalidated (N : Z) (flat : bool) (self : Env) :
  ((exists self', _gen_uav_terrain K N flat self = Ok self') <-> 3 <= N)
  /\ (3 <= N <= 17 ->
      exists t self',
        terrain_nodes K N flat (np_random self) = Ok t
        /\ _gen_uav_terrain K N flat self = Ok self'
        /\ t_width_node t <= 0
        /\ (t_width_node t = 0 ->
            helipad_x1 self' = helipad_x2 self'
            /\ t_chunk_x t !! Z.to_nat (N / 2) = Some (helipad_x1 self'))).
Proof.
  split.
  - split.
    + intros [self' Hrun].
      destruct (Z_lt_le_dec N 3) as [Hsmall|Hbig]; [exfalso|exact Hbig].
      unfold _gen_uav_terrain in Hrun.
      assert (Hraise : exists err,
                terrain_nodes K N flat (np_random self) = Raise err).
      { destruct (Z_le_gt_dec N (-2)) as [Hneg|Hge].
        - exists ValueError. unfold terrain_nodes, draw_heights, uniform_size.
          destruct (N + 1 <? 0) eqn:E; [reflexivity|lia].
        - assert (HN : N = -1 \/ N = 0 \/ N = 1 \/ N = 2) by lia.
          destruct HN as [ -> | [ -> | [ -> | -> ] ] ]; eexists; reflexivity. }
      destruct Hraise as [err Herr]. rewrite Herr in Hrun. discriminate Hrun.
    + intros HN.
      destruct (gen_uav_terrain_ok K N flat self HN)
        as (t & self' & _ & _ & _ & Hrun & _).
      exists self'. exact Hrun.
  - intros [HN Hup].
    destruct (terrain_nodes_ok K N flat (np_random self) HN)
      as (t0 & Ht0 & _ & Hcx & _ & _ & Hw & Hx1 & Hx2 & _).
    destruct (gen_uav_terrain_ok K N flat self HN)
      as (t & self' & _ & _ & Ht & Hrun & _ & _ & Hh1 & Hh2 & _).
    assert (t0 = t) by congruence. subst t0.
    exists t, self'. split; [exact Ht|]. split; [exact Hrun|].
    split.
    + rewrite Hw.
      assert (N / 6 < 3) by (apply Z.div_lt_upper_bound; lia).
      assert ((N / 6 - 1) / 2 < 1) by (apply Z.div_lt_upper_bound; lia).
      lia.
    + intros Hzero. rewrite Hh1, Hh2, Hx1, Hx2, Hzero, Z.sub_0_r, Z.add_0_r.
      split; [reflexivity|]. rewrite Hcx.
      assert (Hc : 0 <= N / 2 < N)
        by (split; [apply Z.div_pos|apply Z.div_lt_upper_bound]; lia).
      rewrite list_lookup_fmap, range_lookup by lia. simpl.
      rewrite Z2Nat.id by lia. reflexivity.
Qed.

(** C6: the platform elevation [helipad_y] is the uniform draw from
    [[H/2, 3H/5]] that follows the height samples, so it lies in that
    interval for every random draw; it does not depend on the draws that
    make the smoothed baseline, and it replaces both the height and the
    smoothed value at the center node. *)
Theorem helipad_y_range (N : Z) (flat : bool) (self : Env) :
  3 <= N -> (0 <= VIEWPORT_H K)%R -> (0 < SCALE K)%R ->
  unit_draws (np_random self) ->
  exists t self',
    terrain_nodes K N flat (np_random self) = Ok t
    /\ _gen_uav_terrain K N flat self = Ok self'
    /\ helipad_y self' = t_helipad_y t
    /\ t_helipad_y t
       = (H K / 2 + (H K * 3 / 5 - H K / 2)
                    * source (np_random self)
                        (cursor (np_random self) + Z.to_nat (N + 1)))%R
    /\ (H K / 2 <= helipad_y self' <= 3 * H K / 5)%R
    /\ t_smooth_y t !! Z.to_nat (N / 2) = Some (helipad_y self')
    /\ t_height t !! Z.to_nat (N / 2) = Some (helipad_y self')
    /\ (forall g2 t2,
          source g2 (cursor g2 + Z.to_nat (N + 1))
          = source (np_random self)
              (cursor (np_random self) + Z.to_nat (N + 1)) ->
          terrain_nodes K N flat g2 = Ok t2 ->
          t_helipad_y t2 = t_helipad_y t).
Proof.
  intros HN HH HS Hu. pose proof (H_nonneg HH HS) as HHpos.
  destruct (terrain_nodes_ok K N flat (np_random self) HN)
    as (t0 & Ht0 & Hht & _ & _ & Hy & _ & _ & _ & _ & _ & Hsc & _).
  destruct (gen_uav_terrain_ok K N flat self HN)
    as (t & self' & _ & _ & Ht & Hrun & _ & Hhy & _).
  assert (t0 = t) by congruence. subst t0.
  exists t, self'. split; [exact Ht|]. split; [exact Hrun|].
  split; [exact Hhy|]. split; [exact Hy|]. rewrite Hhy.
  split.
  { rewrite Hy.
    destruct (Hu (cursor (np_random self) + Z.to_nat (N + 1))%nat) as [H0 H1].
    nra. }
  split; [exact Hsc|].
  split.
  { rewrite Hht. apply list_lookup_insert_eq.
    rewrite uniform_list_length.
    assert (N / 2 < N) by (apply Z.div_lt_upper_bound; lia).
    assert (0 <= N / 2) by (apply Z.div_pos; lia). lia. }
  intros g2 t2 Hsame Ht2.
  destruct (terrain_nodes_ok K N flat g2 HN)
    as (t3 & Ht3 & _ & _ & _ & Hy3 & _).
  assert (t3 = t2) by congruence. subst t3.
  rewrite Hy3, Hy, Hsame. reflexivity.
Qed.

(** C1: whenever the half-width [w = (N // 6 - 1) // 2] is positive, for
    every random draw the platform nodes lie on a straight line: with
    [d = tan(angle) * (W / (N - 1))], the smoothed height at [center - i]
    is the platform elevation minus [i * d] and at [center + i] it is the
    elevation plus [i * d], for [i = 1 .. w].  With [flat_platform] the
    angle is [0] and every node of the platform range equals the
    elevation; without it the angle is the uniform draw from
    [[-pi/6, pi/6]]. *)
Theorem platform_is_a_straight_line (N : Z) (flat : bool) (g : Generator) :
  1 <= (N / 6 - 1) / 2 -> unit_draws g ->
  exists t,
    terrain_nodes K N flat g = Ok t
    /\ t_width_node t = (N / 6 - 1) / 2
    /\ (forall i : Z, 1 <= i <= t_width_node t ->
          t_smooth_y t !! Z.to_nat (N / 2 - i)
          = Some (t_helipad_y t
                  - IZR i * (tan (t_angle t) * (W K / IZR (N - 1))))%R
          /\ t_smooth_y t !! Z.to_nat (N / 2 + i)
             = Some (t_helipad_y t
                     + IZR i * (tan (t_angle t) * (W K / IZR (N - 1))))%R)
    /\ (flat = true ->
        t_angle t = 0%R
        /\ forall k : Z,
             N / 2 - t_width_node t <= k <= N / 2 + t_width_node t ->
             t_smooth_y t !! Z.to_nat k = Some (t_helipad_y t))
    /\ (flat = false ->
        t_angle t
        = (- PI / 6 + (PI / 6 - - PI / 6)
                      * source g (cursor g + Z.to_nat (N + 1) + 1))%R
        /\ (- PI / 6 <= t_angle t <= PI / 6)%R).
Proof.
  intros Hw Hu.
  assert (HN : 18 <= N).
  { destruct (Z_lt_le_dec N 18) as [Hlt|Hge]; [exfalso|exact Hge].
    assert (N / 6 < 3) by (apply Z.div_lt_upper_bound; lia).
    assert ((N / 6 - 1) / 2 < 1) by (apply Z.div_lt_upper_bound; lia).
    lia. }
  destruct (terrain_nodes_ok K N flat g ltac:(lia))
    as (t & Ht & _ & _ & _ & _ & Hwn & _ & _ & Hang & Hd & Hc & Hline & _).
  assert (Hden : IZR (N - 1) <> 0%R) by (apply not_0_IZR; lia).
  exists t. split; [exact Ht|]. split; [exact Hwn|].
  split.
  { intros i Hi. destruct (Hline i Hi) as [Hl Hr].
    rewrite Hl, Hr, Hd. split; f_equal; field; exact Hden. }
  split.
  - intros ->. split; [exact Hang|].
    assert (Hzero : t_diff_high t = 0%R).
    { rewrite Hd, Hang, tan_0. field. exact Hden. }
    intros k Hk.
    destruct (Z.lt_trichotomy k (N / 2)) as [Hlt | [ -> | Hgt ] ].
    + destruct (Hline (N / 2 - k) ltac:(lia)) as [Hl _].
      replace (N / 2 - (N / 2 - k)) with k in Hl by lia.
      rewrite Hl, Hzero. f_equal. ring.
    + exact Hc.
    + destruct (Hline (k - N / 2) ltac:(lia)) as [_ Hr].
      replace (N / 2 + (k - N / 2)) with k in Hr by lia.
      rewrite Hr, Hzero. f_equal. ring.
  - intros ->. split; [exact Hang|]. rewrite Hang.
    destruct (Hu (cursor g + Z.to_nat (N + 1) + 1)%nat) as [H0 H1].
    pose proof PI_RGT_0 as Hpi. nra.
Qed.

End TerrainProperties.

(** ** The terrain properties at gymnasium's constants *)

Lemma sample_generator_unit_draws : unit_draws sample_generator.
Proof. intros k. simpl. lra. Qed.

Lemma chunk_x_evenly_spaced_witness :
  (0 < VIEWPORT_W gymnasium_constants)%R
  /\ (0 < SCALE gymnasium_constants)%R
  /\ 2 <= 90
  /\ exists cx,
       gen_chunk_x gymnasium_constants 90 = Ok cx
       /\ length cx = 90%nat
       /\ cx !! 0%nat = Some 0%R
       /\ cx !! 89%nat = Some (W gymnasium_constants).
Proof.
  assert (H1 : (0 < VIEWPORT_W gymnasium_constants)%R) by (simpl; lra).
  assert (H2 : (0 < SCALE gymnasium_constants)%R) by (simpl; lra).
  assert (H3 : 2 <= 90) by lia.
  destruct (chunk_x_evenly_spaced gymnasium_constants 90 H1 H2 H3)
    as (cx & Hok & Hlen & _ & _ & _ & Hfirst & Hlast & _).
  split; [exact H1|]. split; [exact H2|]. split; [exact H3|].
  exists cx. split; [exact Hok|]. split; [exact Hlen|].
  split; [exact Hfirst|exact Hlast].
Defined.

(** C4 as stated fails: with [N = 30] the generator draws 31 samples, not
    30. *)
Lemma draws_one_more_than_node_count :
  ~ (exists hs g',
       draw_heights gymnasium_constants 30 sample_generator = Ok (hs, g')
       /\ length hs = 30%nat).
Proof.
  intros (hs & g' & Hd & Hlen).
  unfold draw_heights, uniform_size in Hd.
  change (30 + 1 <? 0) with false in Hd. cbv iota in Hd.
  apply (f_equal (fun r : result (list R * Generator) =>
                    match r with
                    | Ok p => length p.1
                    | Raise _ => 0%nat
                    end)) in Hd.
  cbv beta iota in Hd. rewrite uniform_list_length in Hd.
  cbn [fst] in Hd. rewrite Hlen in Hd.
  change (Z.to_nat (30 + 1)) with 31%nat in Hd. discriminate Hd.
Qed.

Lemma draw_heights_count_witness :
  (0 <= VIEWPORT_H gymnasium_constants)%R
  /\ (0 < SCALE gymnasium_constants)%R
  /\ unit_draws sample_generator
  /\ -1 <= 30
  /\ exists hs g',
       draw_heights gymnasium_constants 30 sample_generator = Ok (hs, g')
       /\ length hs = 31%nat.
Proof.
  assert (H1 : (0 <= VIEWPORT_H gymnasium_constants)%R) by (simpl; lra).
  assert (H2 : (0 < SCALE gymnasium_constants)%R) by (simpl; lra).
  assert (H3 : -1 <= 30) by lia.
  destruct (draw_heights_count gymnasium_constants 30 sample_generator
              H1 H2 sample_generator_unit_draws H3)
    as (hs & g' & Hd & Hlen & _).
  split; [exact H1|]. split; [exact H2|].
  split; [exact sample_generator_unit_draws|]. split; [exact H3|].
  exists hs, g'. split; [exact Hd|exact Hlen].
Defined.

(** C5 as stated fails: [N = 6] gives a half-width of zero, yet generation
    raises nothing. *)
Lemma degenerate_node_count_completes :
  (6 / width_para - 1) / 2 = 0
  /\ ~ (exists err,
          _gen_uav_terrain gymnasium_constants 6 true (blank_env false)
          = Raise err).
Proof.
  split; [reflexivity|]. intros [err Herr].
  destruct (gen_uav_terrain_ok gymnasium_constants 6 true (blank_env false))
    as (t & self' & _ & _ & _ & Hrun & _); [lia|].
  rewrite Hrun in Herr. discriminate Herr.
Qed.

Lemma helipad_y_range_witness :
  3 <= 90
  /\ (0 <= VIEWPORT_H gymnasium_constants)%R
  /\ (0 < SCALE gymnasium_constants)%R
  /\ unit_draws (np_random (blank_env false))
  /\ exists self',
       _gen_uav_terrain gymnasium_constants 90 false (blank_env false)
       = Ok self'
       /\ (H gymnasium_constants / 2 <= helipad_y self'
           <= 3 * H gymnasium_constants / 5)%R.
Proof.
  assert (H1 : 3 <= 90) by lia.
  assert (H2 : (0 <= VIEWPORT_H gymnasium_constants)%R) by (simpl; lra).
  assert (H3 : (0 < SCALE gymnasium_constants)%R) by (simpl; lra).
  destruct (helipad_y_range gymnasium_constants 90 false (blank_env false)
              H1 H2 H3 sample_generator_unit_draws)
    as (t & self' & _ & Hrun & _ & _ & Hrange & _).
  split; [exact H1|]. split; [exact H2|]. split; [exact H3|].
  split; [exact sample_generator_unit_draws|].
  exists self'. split; [exact Hrun|exact Hrange].
Defined.

Lemma platform_is_a_straight_line_witness :
  1 <= (90 / 6 - 1) / 2
  /\ unit_draws sample_generator
  /\ exists t,
       terrain_nodes gymnasium_constants 90 false sample_generator = Ok t
       /\ t_width_node t = 7
       /\ t_smooth_y t !! 38%nat
          = Some (t_helipad_y t
                  - 7 * (tan (t_angle t) * (W gymnasium_constants / 89)))%R
       /\ t_smooth_y t !! 52%nat
          = Some (t_helipad_y t
                  + 7 * (tan (t_angle t) * (W gymnasium_constants / 89)))%R.
Proof.
  assert (H1 : 1 <= (90 / 6 - 1) / 2) by (vm_compute; discriminate).
  destruct (platform_is_a_straight_line gymnasium_constants 90 false
              sample_generator H1 sample_generator_unit_draws)
    as (t & Ht & Hw & Hline & _).
  split; [exact H1|]. split; [exact sample_generator_unit_draws|].
  exists t. split; [exact Ht|]. split; [exact Hw|].
  destruct (Hline 7) as [Hl Hr]; [rewrite Hw; vm_compute; split; discriminate|].
  split; [exact Hl|exact Hr].
Defined.

(** ** Vehicle assembly *)

Section VehicleFacts.
Context (K : Constants).

Lemma gen_uav_lander_ok (self : Env) :
  let l := next_body (world self) in
  let fx :=
    (- INITIAL_RANDOM K + (INITIAL_RANDOM K - - INITIAL_RANDOM K)
                          * source (np_random self)
                              (cursor (np_random self)))%R in
  let fy :=
    (- INITIAL_RANDOM K + (INITIAL_RANDOM K - - INITIAL_RANDOM K)
                          * source (np_random self)
                              (S (cursor (np_random self))))%R in
  let j0 := leg_joint K l (S l) (-1) in
  let j1 := leg_joint K l (S (S l)) 1 in
  exists self',
    _gen_uav_lander K self = Ok self'
    /\ lander self' = Some l
    /\ legs self'
       = [mkLeg (S l) false (Some (length (joints (world self))));
          mkLeg (S (S l)) false
            (Some (length (joints (world self) ++ [j0])))]
    /\ joints (world self') = (joints (world self) ++ [j0]) ++ [j1]
    /\ bodies (world self')
       = <[S (S l) := new_body dynamicBody (leg_position K 1)
                        (IZR 1 * 0.05)%R [leg_fixture K]]>
           (<[S l := new_body dynamicBody (leg_position K (-1))
                       (IZR (-1) * 0.05)%R [leg_fixture K]]>
              (alter (body_ApplyForceToCenter (fx, fy) true) l
                 (<[l := new_body dynamicBody
                           (VIEWPORT_W K / SCALE K / 2,
                            VIEWPORT_H K / SCALE K)%R
                           0.0%R [lander_fixture K]]>
                    (bodies (world self)))))
    /\ next_body (world self') = S (S (S l))
    /\ contactListener (world self') = contactListener (world self)
    /\ np_random self'
       = mkGenerator (source (np_random self))
           (S (S (cursor (np_random self))))
    /\ moon self' = moon self
    /\ helipad_y self' = helipad_y self
    /\ helipad_x1 self' = helipad_x1 self
    /\ helipad_x2 self' = helipad_x2 self
    /\ game_over self' = game_over self
    /\ prev_shaping self' = prev_shaping self
    /\ continuous self' = continuous self.
Proof.
  cbv zeta. eexists. split; [reflexivity|]. cbn.
  repeat split; reflexivity.
Qed.

(** C7: the two legs are mirror images of each other about the lander's
    vertical axis, in body position and in joint anchor; both joints have
    the motor enabled with the same maximum torque and target speeds of
    the same magnitude and opposite sign; both have the angular limit
    enabled, the first leg's range lying in the positive angles, the
    second's in the negative angles, each spanning the same arc. *)
Theorem legs_mirror_symmetric (self : Env) :
  exists self' l leg0 leg1 j0 j1 b0 b1,
    _gen_uav_lander K self = Ok self'
    /\ lander self' = Some l
    /\ legs self' = [leg0; leg1]
    /\ joints (world self') = joints (world self) ++ [j0; j1]
    /\ bodies (world self') !! leg_body leg0 = Some b0
    /\ bodies (world self') !! leg_body leg1 = Some b1
    /\ (bodyA j0 = l /\ bodyB j0 = leg_body leg0)
    /\ (bodyA j1 = l /\ bodyB j1 = leg_body leg1)
    /\ (localAnchorA j0 = (0, 0)%R /\ localAnchorA j1 = (0, 0)%R)
    /\ (fst (localAnchorB j0) = - fst (localAnchorB j1)
        /\ snd (localAnchorB j0) = snd (localAnchorB j1))%R
    /\ (fst (position b0) - VIEWPORT_W K / SCALE K / 2
        = - (fst (position b1) - VIEWPORT_W K / SCALE K / 2)
        /\ snd (position b0) = snd (position b1))%R
    /\ (enableMotor j0 = true /\ enableMotor j1 = true)
    /\ (maxMotorTorque j0 = LEG_SPRING_TORQUE K
        /\ maxMotorTorque j1 = LEG_SPRING_TORQUE K)
    /\ (motorSpeed j0 = - motorSpeed j1
        /\ Rabs (motorSpeed j0) = 0.3 /\ Rabs (motorSpeed j1) = 0.3)%R
    /\ (enableLimit j0 = true /\ enableLimit j1 = true)
    /\ (0 < lowerAngle j0 <= upperAngle j0)%R
    /\ (lowerAngle j1 <= upperAngle j1 < 0)%R
    /\ (upperAngle j0 - lowerAngle j0 = 0.5
        /\ upperAngle j1 - lowerAngle j1 = 0.5)%R.
Proof.
  destruct (gen_uav_lander_ok self)
    as (self' & Hrun & Hl & Hlegs & Hj & Hb & _).
  set (l := next_body (world self)) in *.
  exists self', l, (mkLeg (S l) false (Some (length (joints (world self))))),
    (mkLeg (S (S l)) false
       (Some (length (joints (world self) ++ [leg_joint K l (S l) (-1)])))),
    (leg_joint K l (S l) (-1)), (leg_joint K l (S (S l)) 1),
    (new_body dynamicBody (leg_position K (-1)) (IZR (-1) * 0.05)%R
       [leg_fixture K]),
    (new_body dynamicBody (leg_position K 1) (IZR 1 * 0.05)%R
       [leg_fixture K]).
  split; [exact Hrun|]. split; [exact Hl|]. split; [exact Hlegs|].
  split; [rewrite Hj, <- app_assoc; reflexivity|].
  split.
  { rewrite Hb. cbn [leg_body].
    rewrite lookup_insert_ne by lia. apply lookup_insert_eq. }
  split; [rewrite Hb; apply lookup_insert_eq|].
  cbn.
  repeat split; try reflexivity; try lra;
    unfold Rabs; destruct (Rcase_abs _); lra.
Qed.

End VehicleFacts.

(** ** Collision filtering *)

Example lander_and_leg_do_not_collide (K : Constants) :
  should_collide (lander_fixture K) (leg_fixture K) = false.
Proof. reflexivity. Qed.

Example lander_and_ground_collide (K : Constants) (p1 p2 : Vec2) :
  should_collide (lander_fixture K)
    (mkFixture (edgeShape p1 p2) (Some 0%R) (Some 0.1%R) None None None)
  = true.
Proof. reflexivity. Qed.

Lemma ContactDetector_game_over (ev : ContactEvent) (e : Env) (l : BodyId) :
  lander e = Some l ->
  game_over (ContactDetector ev e)
  = match ev with
    | BeginContact a b => touches l a b || game_over e
    | EndContact _ _ => game_over e
    end.
Proof.
  intros Hl. destruct ev as [a b|a b]; simpl; [|reflexivity].
  rewrite Hl. destruct (touches l a b); reflexivity.
Qed.

Lemma touches_spec (id a b : BodyId) :
  touches id a b = true <-> a = id \/ b = id.
Proof.
  unfold touches. rewrite orb_true_iff, !Nat.eqb_eq.
  split; intros [?|?]; auto.
Qed.

Section FilterProperties.
Context (K : Constants).

(** C10: the lander fixture and both leg fixtures have mask [0x001]; the
    lander has category [0x0010] and the legs [0x0020], while every ground
    fixture has the ground category [0x0001].  So the filter admits no
    contact between the lander and a leg or between the legs, it admits
    lander-ground contact, and a contact among the bodies of the scene
    that sets the game-over flag is a contact of the lander with the
    ground. *)
Theorem vehicle_never_self_collides (N : Z) (flat : bool) (self : Env) :
  3 <= N ->
  exists e1 e2 m l leg0 leg1,
    _gen_uav_terrain K N flat self = Ok e1
    /\ _gen_uav_lander K e1 = Ok e2
    /\ moon e2 = Some m
    /\ lander e2 = Some l
    /\ map leg_body (legs e2) = [leg0; leg1]
    /\ fixtures_of (world e2) l = [lander_fixture K]
    /\ fixtures_of (world e2) leg0 = [leg_fixture K]
    /\ fixtures_of (world e2) leg1 = [leg_fixture K]
    /\ (categoryBits (lander_fixture K) = Some 0x0010
        /\ maskBits (lander_fixture K) = Some 0x001)
    /\ (categoryBits (leg_fixture K) = Some 0x0020
        /\ maskBits (leg_fixture K) = Some 0x001)
    /\ (forall f, f ∈ fixtures_of (world e2) m -> category_of f = 0x0001)
    /\ (may_touch (world e2) l leg0 = false
        /\ may_touch (world e2) leg0 l = false
        /\ may_touch (world e2) l leg1 = false
        /\ may_touch (world e2) leg1 l = false
        /\ may_touch (world e2) leg0 leg1 = false
        /\ may_touch (world e2) leg1 leg0 = false)
    /\ may_touch (world e2) l m = true
    /\ (forall (e : Env) (a b : BodyId),
          lander e = Some l ->
          game_over e = false ->
          game_over (ContactDetector (BeginContact a b) e) = true ->
          a ∈ [m; l; leg0; leg1] -> b ∈ [m; l; leg0; leg1] -> a <> b ->
          may_touch (world e2) a b = true ->
          (a = l /\ b = m) \/ (a = m /\ b = l))
    /\ (forall (e : Env) (a b : BodyId),
          game_over (ContactDetector (EndContact a b) e) = game_over e).
Proof.
  intros HN.
  destruct (gen_uav_terrain_ok K N flat self HN)
    as (t & e1 & bm & edges & _ & Hrun1 & _ & _ & _ & _ & Hmoon & Hnext
        & _ & _ & _ & Hbm & _ & Hfix & Hlen & Hedges & _).
  destruct (gen_uav_lander_ok K e1)
    as (e2 & Hrun2 & Hl & Hlegs & _ & Hb & _ & _ & _ & Hmoon2 & _).
  set (m := next_body (world self)) in *.
  rewrite Hnext in Hl, Hlegs, Hb.
  exists e1, e2, m, (S m), (S (S m)), (S (S (S m))).
  assert (Fl : fixtures_of (world e2) (S m) = [lander_fixture K]).
  { unfold fixtures_of. rewrite Hb.
    rewrite !lookup_insert_ne by lia.
    rewrite lookup_alter_eq, lookup_insert_eq. reflexivity. }
  assert (F0 : fixtures_of (world e2) (S (S m)) = [leg_fixture K]).
  { unfold fixtures_of. rewrite Hb.
    rewrite lookup_insert_ne by lia. rewrite lookup_insert_eq. reflexivity. }
  assert (F1 : fixtures_of (world e2) (S (S (S m))) = [leg_fixture K]).
  { unfold fixtures_of. rewrite Hb. rewrite lookup_insert_eq. reflexivity. }
  assert (Fm : fixtures_of (world e2) m
               = mkFixture (edgeShape (0, 0)%R (W K, 0)%R)
                   None None None None None :: edges).
  { unfold fixtures_of. rewrite Hb.
    rewrite !lookup_insert_ne by lia.
    rewrite lookup_alter_ne by lia.
    rewrite lookup_insert_ne by lia.
    rewrite Hbm. exact Hfix. }
  assert (T0 : may_touch (world e2) (S m) (S (S m)) = false)
    by (unfold may_touch; rewrite Fl, F0; reflexivity).
  assert (T0' : may_touch (world e2) (S (S m)) (S m) = false)
    by (unfold may_touch; rewrite Fl, F0; reflexivity).
  assert (T1 : may_touch (world e2) (S m) (S (S (S m))) = false)
    by (unfold may_touch; rewrite Fl, F1; reflexivity).
  assert (T1' : may_touch (world e2) (S (S (S m))) (S m) = false)
    by (unfold may_touch; rewrite Fl, F1; reflexivity).
  assert (T2 : may_touch (world e2) (S (S m)) (S (S (S m))) = false)
    by (unfold may_touch; rewrite F0, F1; reflexivity).
  assert (T2' : may_touch (world e2) (S (S (S m))) (S (S m)) = false)
    by (unfold may_touch; rewrite F0, F1; reflexivity).
  split; [exact Hrun1|]. split; [exact Hrun2|].
  split; [rewrite Hmoon2; exact Hmoon|]. split; [exact Hl|].
  split; [rewrite Hlegs; reflexivity|].
  split; [exact Fl|]. split; [exact F0|]. split; [exact F1|].
  split; [split; reflexivity|]. split; [split; reflexivity|].
  split.
  { intros f Hf. rewrite Fm in Hf. apply elem_of_cons in Hf as [ -> | Hf].
    - reflexivity.
    - apply list_elem_of_lookup in Hf as [k Hk].
      pose proof (lookup_lt_Some _ _ _ Hk) as Hlt.
      destruct (Hedges k) as (x1 & y1 & x2 & y2 & _ & _ & _ & _ & He).
      { lia. }
      rewrite He in Hk. injection Hk as <-. reflexivity. }
  split; [repeat split; assumption|].
  split; [unfold may_touch; rewrite Fl, Fm; reflexivity|].
  split.
  - intros e a b Hle Hgo Hset Ha Hb' Hne Htouch.
    rewrite (ContactDetector_game_over _ _ _ Hle), Hgo, orb_false_r in Hset.
    apply touches_spec in Hset.
    set_unfold in Ha. set_unfold in Hb'.
    destruct Hset as [ -> | -> ].
    + left. split; [reflexivity|].
      destruct Hb' as [Hb'|[Hb'|[Hb'|[Hb'|[]]]]];
        rewrite Hb' in Htouch, Hne |- *; congruence.
    + right. split; [|reflexivity].
      destruct Ha as [Ha|[Ha|[Ha|[Ha|[]]]]];
        rewrite Ha in Htouch, Hne |- *; congruence.
  - intros e a b. reflexivity.
Qed.

End FilterProperties.

Lemma vehicle_never_self_collides_witness :
  3 <= 90
  /\ exists e1 e2 l leg0 leg1,
       _gen_uav_terrain gymnasium_constants 90 false (blank_env false) = Ok e1
       /\ _gen_uav_lander gymnasium_constants e1 = Ok e2
       /\ lander e2 = Some l
       /\ map leg_body (legs e2) = [leg0; leg1]
       /\ may_touch (world e2) l leg0 = false
       /\ may_touch (world e2) l leg1 = false.
Proof.
  assert (H1 : 3 <= 90) by lia.
  destruct (vehicle_never_self_collides gymnasium_constants 90 false
              (blank_env false) H1)
    as (e1 & e2 & m & l & leg0 & leg1 & Hr1 & Hr2 & _ & Hl & Hlegs & _ & _ & _
        & _ & _ & _ & (T0 & _ & T1 & _) & _).
  split; [exact H1|]. exists e1, e2, l, leg0, leg1.
  repeat split; assumption.
Defined.

(** ** The stages of [step] *)

Lemma Rleb_true (x y : R) : (x <= y)%R -> Rleb x y = true.
Proof. intros Hle. unfold Rleb. destruct (Rle_dec x y); [reflexivity|lra]. Qed.

Lemma Rleb_false (x y : R) : (y < x)%R -> Rleb x y = false.
Proof. intros Hlt. unfold Rleb. destruct (Rle_dec x y); [lra|reflexivity]. Qed.

(** First step of an episode (no previous shaping), main engine at full
    power, lander in the middle of the viewport and awake: not terminated,
    reward [-0.30]. *)
Example outcome_in_flight (shaping : R) :
  let o := outcome_of (reward_of None shaping 1.0 0.0) false 0 true in
  fst o = false /\ snd o = (-0.30)%R.
Proof.
  unfold outcome_of, reward_of. cbn [orb negb].
  rewrite Rleb_false by (rewrite Rabs_R0; lra). cbn. split; [reflexivity|lra].
Qed.

(** A later step, engines off: the reward is the shaping difference. *)
Example outcome_later_step :
  let o := outcome_of (reward_of (Some (-150)%R) (-140)%R 0.0 0.0) false 0.5
             true in
  fst o = false /\ snd o = 10%R.
Proof.
  unfold outcome_of, reward_of. cbn [orb negb].
  rewrite Rleb_false by (rewrite Rabs_pos_eq; lra). cbn.
  split; [reflexivity|lra].
Qed.

(** Three half-widths to the right of the middle: terminated, [-100]. *)
Example outcome_out_of_bounds (r : R) :
  outcome_of r false 3 true = (true, (-100)%R).
Proof.
  unfold outcome_of. cbn [orb negb].
  rewrite Rleb_true by (rewrite Rabs_pos_eq; lra). reflexivity.
Qed.

(** Game over and asleep at once: the second test wins, [+100]. *)
Example outcome_asleep_after_crash (r s0 : R) :
  outcome_of r true s0 false = (true, 100%R).
Proof. reflexivity. Qed.

Lemma carried_refl (l : BodyId) (e : Env) : carried l e e.
Proof. unfold carried. repeat split; auto. Qed.




Lemma clip_bounds (x lo hi : R) :
  (lo <= hi)%R -> (lo <= clip x lo hi <= hi)%R.
Proof.
  intros Hle. unfold clip, Rmin, Rmax.
  destruct (Rle_dec x lo); destruct (Rle_dec _ hi); lra.
Qed.


Lemma Rleb_spec (x y : R) : Rleb x y = true <-> (x <= y)%R.
Proof.
  unfold Rleb. destruct (Rle_dec x y); split; intros; auto; discriminate.
Qed.

Lemma legs_getitem (ls : list Leg) :
  (2 <= length ls)%nat ->
  exists l0 l1, getitem ls 0 = Ok l0 /\ getitem ls 1 = Ok l1.
Proof.
  intros Hlen. destruct ls as [|l0 [|l1 rest]]; simpl in Hlen; try lia.
  exists l0, l1. split; apply getitem_lookup; try lia; reflexivity.
Qed.

Section StepStages.
Context (K : Constants) (C : Collaborators).

Lemma apply_wind_ok (l : BodyId) (self : Env) :
  (2 <= length (legs self))%nat ->
  exists self',
    apply_wind l self = Ok self'
    /\ carried l self self'
    /\ np_random self' = np_random self.
Proof.
  intros Hlegs. destruct (legs_getitem _ Hlegs) as (l0 & l1 & G0 & G1).
  unfold apply_wind. rewrite G0, G1.
  destruct (enable_wind self); cbn [bind].
  - destruct (ground_contact l0); cbn [bind].
    + exists self. repeat split; auto using carried_refl.
    + destruct (ground_contact l1).
      * exists self. repeat split; auto using carried_refl.
      * eexists. split; [reflexivity|]. split; [|reflexivity].
        unfold carried. cbn. repeat split; try reflexivity.
        intros [b Hb]. rewrite !lookup_alter_eq, Hb. simpl. eauto.
  - exists self. repeat split; auto using carried_refl.
Qed.

Lemma check_action_ok (self : Env) (action : Action) :
  valid_action self action ->
  exists action',
    check_action self action = Ok action'
    /\ valid_action self action'.
Proof.
  intros Hv. unfold check_action.
  destruct action as [a0 a1|x]; simpl in Hv.
  - rewrite Hv. eexists. split; [reflexivity|]. exact Hv.
  - destruct Hv as [Hc Hx]. rewrite Hc. simpl.
    destruct (0 <=? x) eqn:E1; [|lia].
    destruct (x <? 4) eqn:E2; [|lia].
    simpl. eexists. split; [reflexivity|]. simpl. auto.
Qed.

Lemma main_engine_ok (l : BodyId) (action : Action) (tip side : Vec2)
    (dispersion : R * R) (self : Env) :
  keeps_bodies C -> valid_action self action ->
  is_Some (bodies (world self) !! l) ->
  exists m_power self',
    main_engine K C l action tip side dispersion self = Ok (m_power, self')
    /\ carried l self self'
    /\ np_random self' = np_random self.
Proof.
  intros (Kimp & _ & Kpart) Hv [b Hb]. unfold main_engine, body_of.
  rewrite Hb.
  destruct action as [a0 a1|x]; simpl in Hv.
  - rewrite Hv. cbn [item0 bind].
    destruct (Rltb 0.0 a0).
    + pose proof (clip_bounds a0 0.0 1.0 ltac:(lra)) as Hclip.
      rewrite (Rleb_true 0.5 ((clip a0 0.0 1.0 + 1.0) * 0.5)) by lra.
      rewrite (Rleb_true ((clip a0 0.0 1.0 + 1.0) * 0.5) 1.0) by lra.
      cbn [andb assert bind].
      destruct (_create_particle C (world self) _ _ _ _) as [w p] eqn:Ep.
      eexists _, _. split; [reflexivity|]. split; [|reflexivity].
      unfold carried. cbn. repeat split; try reflexivity.
      intros Hl. apply Kimp, Kimp.
      pose proof (Kpart (world self) 3.5%R
                    (fst (position b)
                     + (fst tip * (4 / SCALE K + 2 * fst dispersion)
                        + fst side * snd dispersion))%R
                    (snd (position b)
                     + (- snd tip * (4 / SCALE K + 2 * fst dispersion)
                        - snd side * snd dispersion))%R
                    ((clip a0 0.0 1.0 + 1.0) * 0.5)%R l Hl) as Hk.
      cbn [fst snd] in Ep. rewrite Ep in Hk. exact Hk.
    + exists 0.0%R, self. repeat split; auto using carried_refl.
  - destruct Hv as [Hc Hx]. rewrite Hc. cbn [bind action_is].
    destruct (x =? 2).
    + cbn [bind].
      destruct (_create_particle C (world self) _ _ _ _) as [w p] eqn:Ep.
      eexists _, _. split; [reflexivity|]. split; [|reflexivity].
      unfold carried. cbn. repeat split; try reflexivity.
      intros Hl. apply Kimp, Kimp.
      pose proof (Kpart (world self) 3.5%R
                    (fst (position b)
                     + (fst tip * (4 / SCALE K + 2 * fst dispersion)
                        + fst side * snd dispersion))%R
                    (snd (position b)
                     + (- snd tip * (4 / SCALE K + 2 * fst dispersion)
                        - snd side * snd dispersion))%R
                    1.0%R l Hl) as Hk.
      cbn [fst snd] in Ep. rewrite Ep in Hk. exact Hk.
    + exists 0.0%R, self. repeat split; auto using carried_refl.
Qed.

Lemma side_engine_ok (l : BodyId) (action : Action) (tip side : Vec2)
    (dispersion : R * R) (self : Env) :
  keeps_bodies C -> valid_action self action ->
  is_Some (bodies (world self) !! l) ->
  exists s_power self',
    side_engine K C l action tip side dispersion self = Ok (s_power, self')
    /\ carried l self self'
    /\ np_random self' = np_random self.
Proof.
  intros (Kimp & _ & Kpart) Hv [b Hb]. unfold side_engine, body_of.
  rewrite Hb.
  destruct action as [a0 a1|x]; simpl in Hv.
  - rewrite Hv. cbn [item1 bind].
    destruct (Rltb 0.5 (Rabs a1)).
    + pose proof (clip_bounds (Rabs a1) 0.5 1.0 ltac:(lra)) as Hclip.
      rewrite (Rleb_true 0.5 (clip (Rabs a1) 0.5 1.0)) by lra.
      rewrite (Rleb_true (clip (Rabs a1) 0.5 1.0) 1.0) by lra.
      cbn [andb assert bind].
      match goal with
      | |- context [_create_particle C ?w ?m ?x ?y ?ttl] =>
          pose proof (Kpart w m x y ttl l) as Hk;
          destruct (_create_particle C w m x y ttl) as [w' p]
      end.
      eexists _, _. split; [reflexivity|]. split; [|reflexivity].
      unfold carried. cbn. repeat split; try reflexivity.
      intros Hl. apply Kimp, Kimp. apply Hk. exact Hl.
    + exists 0.0%R, self. repeat split; auto using carried_refl.
  - destruct Hv as [Hc Hx]. rewrite Hc. cbn [bind action_is].
    destruct ((x =? 1) || (x =? 3)).
    + cbn [bind].
      match goal with
      | |- context [_create_particle C ?w ?m ?x ?y ?ttl] =>
          pose proof (Kpart w m x y ttl l) as Hk;
          destruct (_create_particle C w m x y ttl) as [w' p]
      end.
      eexists _, _. split; [reflexivity|]. split; [|reflexivity].
      unfold carried. cbn. repeat split; try reflexivity.
      intros Hl. apply Kimp, Kimp. apply Hk. exact Hl.
    + exists 0.0%R, self. repeat split; auto using carried_refl.
Qed.

Lemma ContactDetector_frame (ev : ContactEvent) (e : Env) :
  lander (ContactDetector ev e) = lander e
  /\ length (legs (ContactDetector ev e)) = length (legs e)
  /\ prev_shaping (ContactDetector ev e) = prev_shaping e
  /\ continuous (ContactDetector ev e) = continuous e
  /\ helipad_y (ContactDetector ev e) = helipad_y e
  /\ world (ContactDetector ev e) = world e
  /\ np_random (ContactDetector ev e) = np_random e.
Proof.
  destruct ev as [a b|a b]; simpl.
  - destruct (lander e) as [l|] eqn:El;
      [destruct (touches l a b)|]; simpl;
      rewrite ?length_map, ?El; repeat split; reflexivity.
  - rewrite length_map. repeat split; reflexivity.
Qed.

Lemma contacts_frame (events : list ContactEvent) (e : Env) :
  let e' := fold_left (fun e ev => ContactDetector ev e) events e in
  lander e' = lander e
  /\ length (legs e') = length (legs e)
  /\ prev_shaping e' = prev_shaping e
  /\ continuous e' = continuous e
  /\ helipad_y e' = helipad_y e
  /\ world e' = world e
  /\ np_random e' = np_random e.
Proof.
  revert e. induction events as [|ev events IH]; intros e; simpl.
  - repeat split; reflexivity.
  - destruct (IH (ContactDetector ev e)) as (A1 & A2 & A3 & A4 & A5 & A6 & A7).
    destruct (ContactDetector_frame ev e)
      as (B1 & B2 & B3 & B4 & B5 & B6 & B7).
    repeat split; congruence.
Qed.

Lemma advance_frame (l : BodyId) (self : Env) :
  keeps_bodies C ->
  lander (advance K C self) = lander self
  /\ length (legs (advance K C self)) = length (legs self)
  /\ prev_shaping (advance K C self) = prev_shaping self
  /\ continuous (advance K C self) = continuous self
  /\ helipad_y (advance K C self) = helipad_y self
  /\ np_random (advance K C self) = np_random self
  /\ (is_Some (bodies (world self) !! l) ->
      is_Some (bodies (world (advance K C self)) !! l)).
Proof.
  intros (_ & Kstep & _). unfold advance.
  pose proof (Kstep (world self) (1.0 / FPS K)%R (6 * 30) (2 * 30) l) as Hk.
  destruct (world_Step C (world self) (1.0 / FPS K) (6 * 30) (2 * 30))
    as [w events].
  cbn [fst] in Hk.
  destruct (contactListener (world self)).
  - destruct (contacts_frame events (set_world w self))
      as (A1 & A2 & A3 & A4 & A5 & A6 & A7).
    cbv zeta in *. rewrite A1, A2, A3, A4, A5, A6, A7. cbn.
    repeat split; try reflexivity. exact Hk.
  - cbn. repeat split; try reflexivity. exact Hk.
Qed.

End StepStages.

Lemma valid_action_continuous (e e' : Env) (a : Action) :
  continuous e' = continuous e -> valid_action e a -> valid_action e' a.
Proof. intros Hc. destruct a; simpl; rewrite Hc; auto. Qed.

Section StepFacts.
Context (K : Constants) (C : Collaborators).

(** On a ready environment and with a valid action, [step] returns. *)
Lemma step_locals_ok (self : Env) (action : Action) :
  keeps_bodies C -> step_ready self -> valid_action self action ->
  exists t,
    step_locals K C self action = Ok t
    /\ l_prev_shaping t = prev_shaping self.
Proof.
  intros HK ((l & Hl & Hb) & Hlegs) Hv.
  unfold step_locals. rewrite Hl. cbn [bind].
  destruct (apply_wind_ok l self Hlegs) as (e1 & Hw & Hc1 & Hg1).
  rewrite Hw. cbn [bind].
  destruct Hc1 as (A1 & A2 & A3 & A4 & A5 & A6 & A7).
  destruct (check_action_ok e1 action) as (a' & Ha & Hv').
  { apply (valid_action_continuous self); assumption. }
  rewrite Ha. cbn [bind].
  destruct (A7 Hb) as [b1 Hb1]. unfold body_of at 1. rewrite Hb1.
  cbn [bind uniform random].
  set (tip := (sin (angle b1), cos (angle b1))).
  set (side := (- snd tip, fst tip)%R).
  match goal with
  | |- context [main_engine K C l a' tip side ?d ?e] =>
      destruct (main_engine_ok K C l a' tip side d e HK)
        as (m & e2 & Hm & Hc2 & Hg2);
        [exact Hv' | cbn; eauto | rewrite Hm]
  end.
  cbn [bind].
  destruct Hc2 as (B1 & B2 & B3 & B4 & B5 & B6 & B7).
  match goal with
  | |- context [side_engine K C l a' tip side ?d e2] =>
      destruct (side_engine_ok K C l a' tip side d e2 HK)
        as (s & e3 & Hs & Hc3 & Hg3);
        [apply (valid_action_continuous e1);
           [rewrite B5; reflexivity | exact Hv']
        | apply B7; cbn; eauto
        | rewrite Hs]
  end.
  cbn [bind].
  destruct Hc3 as (C1 & C2 & C3 & C4 & C5 & C6 & C7).
  destruct (advance_frame K C l e3 HK) as (D1 & D2 & D3 & D4 & D5 & D6 & D7).
  destruct D7 as [b4 Hb4]; [apply C7, B7; cbn; eauto|].
  unfold body_of. rewrite Hb4. cbn [bind].
  destruct (legs_getitem (legs (advance K C e3))) as (l0 & l1 & G0 & G1).
  { rewrite D2, C2, B2. cbn. rewrite A2. exact Hlegs. }
  rewrite G0, G1. cbn [bind].
  eexists. split; [reflexivity|]. cbn.
  rewrite D3, C3, B3. cbn. exact A3.
Qed.

(** How the values returned by [step] are related (lines 317 to 345). *)
Lemma step_locals_tail (self : Env) (action : Action) (t : StepLocals) :
  step_locals K C self action = Ok t ->
  step K C self action
  = Ok (mkStepResult (l_state t) (l_reward t) (l_terminated t) false,
        l_self t)
  /\ prev_shaping (l_self t) = Some (l_shaping t)
  /\ game_over (l_self t) = l_game_over t
  /\ (forall l, lander self = Some l ->
        exists b, bodies (world (l_self t)) !! l = Some b
                  /\ awake b = l_awake t)
  /\ exists s0 s1 s2 s3 s4 s5 s6 s7,
       l_state t = [s0; s1; s2; s3; s4; s5; s6; s7]
       /\ l_shaping t = shaping_of s0 s1 s2 s3 s4 s6 s7
       /\ l_terminated t
          = negb (l_awake t) || (l_game_over t || Rleb 1.0 (Rabs s0))
       /\ l_reward t
          = if negb (l_awake t) then 100%R
            else if l_game_over t || Rleb 1.0 (Rabs s0) then (-100)%R
            else (match l_prev_shaping t with
                  | Some p => l_shaping t - p
                  | None => 0
                  end - l_m_power t * 0.30 - l_s_power t * 0.03)%R.
Proof.
  intros Ht. unfold step. rewrite Ht. cbn [bind]. split; [reflexivity|].
  unfold step_locals in Ht.
  destruct (lander self) as [l|]; [|discriminate Ht]. cbn [bind] in Ht.
  destruct (apply_wind l self) as [e1|]; [|discriminate Ht].
  cbn [bind] in Ht.
  destruct (check_action e1 action) as [a'|]; [|discriminate Ht].
  cbn [bind] in Ht.
  destruct (body_of (world e1) l) as [b1|]; [|discriminate Ht].
  cbn [bind uniform random] in Ht.
  destruct (main_engine _ _ _ _ _ _ _ _) as [[m e2]|]; [|discriminate Ht].
  cbn [bind] in Ht.
  destruct (side_engine _ _ _ _ _ _ _ _) as [[s e3]|]; [|discriminate Ht].
  cbn [bind] in Ht.
  destruct (body_of (world (advance K C e3)) l) as [b4|] eqn:Eb4;
    [|discriminate Ht].
  cbn [bind] in Ht.
  assert (Hb4 : bodies (world (advance K C e3)) !! l = Some b4).
  { unfold body_of in Eb4.
    destruct (bodies (world (advance K C e3)) !! l); congruence. }
  destruct (getitem (legs (advance K C e3)) 0) as [l0|]; [|discriminate Ht].
  cbn [bind] in Ht.
  destruct (getitem (legs (advance K C e3)) 1) as [l1|]; [|discriminate Ht].
  cbn [bind] in Ht.
  injection Ht as <-. cbn. split; [reflexivity|]. split; [reflexivity|].
  split.
  { intros l' Hl'. injection Hl' as <-. exists b4. split; [exact Hb4|].
    reflexivity. }
  do 8 eexists. split; [reflexivity|]. split; [reflexivity|].
  unfold outcome_of, reward_of.
  destruct (game_over (advance K C e3)), (Rleb 1.0 _), (awake b4);
    split; reflexivity.
Qed.

End StepFacts.

(** ** Reset *)

Section ResetFacts.
Context (K : Constants) (C : Collaborators).

Lemma reset_episode_ok (self : Env) (seed : option Z) (d : Env) :
  super_reset C self seed = Ok d ->
  exists ep,
    reset_episode K C self seed = Ok ep
    /\ prev_shaping ep = None
    /\ game_over ep = false
    /\ step_ready ep
    /\ continuous ep = continuous (_destroy C d).
Proof.
  intros Hd. unfold reset_episode. rewrite Hd. cbn [bind].
  set (d0 := set_prev_shaping None
               (set_game_over false
                  (set_world
                     (set_contactListener (world (_destroy C d)) true)
                     (_destroy C d)))).
  destruct (gen_uav_terrain_ok K 90 false d0 ltac:(lia))
    as (t & e1 & bm & edges & _ & Hrun1 & _ & _ & _ & _ & _ & _ & _ & _ & _
        & _ & _ & _ & _ & _ & _ & _ & Hgo1 & Hps1 & Hc1).
  rewrite Hrun1. cbn [bind].
  destruct (gen_uav_lander_ok K e1)
    as (e2 & Hrun2 & Hl & Hlegs & _ & Hb & _ & _ & _ & _ & _ & _ & _ & Hgo2
        & Hps2 & Hc2).
  rewrite Hrun2. cbn [bind].
  eexists. split; [reflexivity|]. cbn.
  split; [rewrite Hps2, Hps1; reflexivity|].
  split; [rewrite Hgo2, Hgo1; reflexivity|].
  split.
  - split.
    + exists (next_body (world e1)). split; [exact Hl|].
      cbn. rewrite Hb. rewrite !lookup_insert_ne by lia.
      rewrite lookup_alter_eq, lookup_insert_eq. simpl. eauto.
    + cbn. rewrite Hlegs. simpl. lia.
  - rewrite Hc2, Hc1. reflexivity.
Qed.


Lemma zero_action_valid (self : Env) : valid_action self (zero_action self).
Proof.
  unfold zero_action. destruct (continuous self) eqn:E; simpl.
  - exact E.
  - split; [exact E|lia].
Qed.

End ResetFacts.

(** ** The episode *)

Section EpisodeProperties.
Context (K : Constants) (C : Collaborators).

(** C2: in every call to [step], if the lander body is not awake the step
    returns terminated with reward [+100], also when the game-over flag is
    set or the lander is out of the lateral bounds; otherwise, if the
    game-over flag is set or [|state[0]| >= 1.0], it returns terminated
    with reward [-100]; otherwise it returns not terminated with the
    shaping-based reward unchanged. *)
Theorem step_termination (self : Env) (action : Action) :
  keeps_bodies C -> step_ready self -> valid_action self action ->
  exists t s0,
    step_locals K C self action = Ok t
    /\ step K C self action
       = Ok (mkStepResult (l_state t) (l_reward t) (l_terminated t) false,
             l_self t)
    /\ l_state t !! 0%nat = Some s0
    /\ game_over (l_self t) = l_game_over t
    /\ (forall l, lander self = Some l ->
          exists b, bodies (world (l_self t)) !! l = Some b
                    /\ awake b = l_awake t)
    /\ (l_awake t = false ->
        l_terminated t = true /\ l_reward t = 100%R)
    /\ (l_awake t = true ->
        l_game_over t = true \/ (1.0 <= Rabs s0)%R ->
        l_terminated t = true /\ l_reward t = (-100)%R)
    /\ (l_awake t = true ->
        l_game_over t = false -> (Rabs s0 < 1.0)%R ->
        l_terminated t = false
        /\ l_reward t
           = (match l_prev_shaping t with
              | Some p => l_shaping t - p
              | None => 0
              end - l_m_power t * 0.30 - l_s_power t * 0.03)%R).
Proof.
  intros HK Hready Hv.
  destruct (step_locals_ok K C self action HK Hready Hv) as (t & Ht & _).
  destruct (step_locals_tail K C self action t Ht)
    as (Hstep & _ & Hgo & Haw & s0 & s1 & s2 & s3 & s4 & s5 & s6 & s7
        & Hstate & _ & Hterm & Hrew).
  exists t, s0. split; [exact Ht|]. split; [exact Hstep|].
  split; [rewrite Hstate; reflexivity|].
  split; [exact Hgo|]. split; [exact Haw|].
  rewrite Hterm, Hrew.
  split; [intros ->; split; reflexivity|].
  split.
  - intros -> [-> | Hout]; cbn [negb orb].
    + split; reflexivity.
    + rewrite (Rleb_true _ _ Hout), orb_true_r. split; reflexivity.
  - intros -> -> Hin. cbn [negb orb].
    destruct (Rleb 1.0 (Rabs s0)) eqn:E.
    + apply Rleb_spec in E. lra.
    + split; reflexivity.
Qed.



End EpisodeProperties.

(** ** The episode with the sample collaborators *)

Lemma idle_collaborators_keep_bodies : keeps_bodies idle_collaborators.
Proof. unfold keeps_bodies. simpl. repeat split; intros; assumption. Qed.

(** With the sample collaborators, [reset] builds an episode on which
    [step] can be called. *)
Lemma sample_reset_ready :
  exists ep,
    reset_episode gymnasium_constants idle_collaborators (blank_env false)
      (Some 42) = Ok ep
    /\ step_ready ep
    /\ continuous ep = false
    /\ prev_shaping ep = None.
Proof.
  destruct (reset_episode_ok gymnasium_constants idle_collaborators
              (blank_env false) (Some 42)
              (set_np_random sample_generator (blank_env false)) eq_refl)
    as (ep & Hep & Hnone & _ & Hready & Hc).
  exists ep. split; [exact Hep|]. split; [exact Hready|].
  split; [rewrite Hc; reflexivity|exact Hnone].
Qed.

Lemma step_termination_witness :
  keeps_bodies idle_collaborators
  /\ exists ep,
       reset_episode gymnasium_constants idle_collaborators (blank_env false)
         (Some 42) = Ok ep
       /\ step_ready ep
       /\ valid_action ep (DiscreteAction 2)
       /\ exists t,
            step_locals gymnasium_constants idle_collaborators ep
              (DiscreteAction 2) = Ok t
            /\ (l_awake t = false ->
                l_terminated t = true /\ l_reward t = 100%R).
Proof.
  split; [exact idle_collaborators_keep_bodies|].
  destruct sample_reset_ready as (ep & Hep & Hready & Hc & _).
  assert (Hv : valid_action ep (DiscreteAction 2))
    by (simpl; split; [exact Hc|lia]).
  destruct (step_termination gymnasium_constants idle_collaborators ep
              (DiscreteAction 2) idle_collaborators_keep_bodies Hready Hv)
    as (t & s0 & Ht & _ & _ & _ & _ & Hasleep & _).
  exists ep. split; [exact Hep|]. split; [exact Hready|]. split; [exact Hv|].
  exists t. split; [exact Ht|exact Hasleep].
Defined.



(** * Further properties of the terrain generator *)

Lemma comprehension_lookup {A B : Type} (f : A -> result B) (xs : list A)
    (ys : list B) :
  comprehension f xs = Ok ys ->
  length ys = length xs
  /\ forall (k : nat) (x : A), xs !! k = Some x ->
       exists y, f x = Ok y /\ ys !! k = Some y.
Proof.
  revert ys. induction xs as [|x xs IH]; intros ys Hys; simpl in Hys.
  - injection Hys as <-. split; [reflexivity|].
    intros k x Hk. rewrite lookup_nil in Hk. discriminate Hk.
  - destruct (f x) as [y|] eqn:Hy; [|discriminate Hys]. cbn [bind] in Hys.
    destruct (comprehension f xs) as [ys'|]; [|discriminate Hys].
    cbn [bind] in Hys. injection Hys as <-.
    destruct (IH ys' eq_refl) as [Hlen Hall].
    split; [simpl; rewrite Hlen; reflexivity|].
    intros [|k] x' Hk; simpl in Hk.
    + injection Hk as <-. exists y. split; [exact Hy|reflexivity].
    + apply (Hall k x' Hk).
Qed.

Lemma getitem_inv {A : Type} (l : list A) (i : Z) (x : A) :
  getitem l i = Ok x ->
  (0 <= i < Z.of_nat (length l) /\ l !! Z.to_nat i = Some x)
  \/ (- Z.of_nat (length l) <= i < 0
      /\ l !! Z.to_nat (Z.of_nat (length l) + i) = Some x).
Proof.
  unfold getitem, py_index. intros Hx.
  destruct ((0 <=? i) && (i <? Z.of_nat (length l))) eqn:E1.
  - cbn [bind] in Hx. left. split; [lia|].
    destruct (l !! Z.to_nat i); [congruence|discriminate Hx].
  - destruct ((- Z.of_nat (length l) <=? i) && (i <? 0)) eqn:E2;
      [|discriminate Hx].
    cbn [bind] in Hx. right. split; [lia|].
    destruct (l !! Z.to_nat (Z.of_nat (length l) + i));
      [congruence|discriminate Hx].
Qed.

(** Every node of the baseline is [0.33] times the sum of three height
    samples: its own, the next one, and the previous one, which for node 0
    is the last sample of the array. *)
Lemma gen_smooth_y_lookup (height : list R) (N : Z) (s : list R) :
  length height = Z.to_nat (N + 1) -> 0 <= N ->
  gen_smooth_y height N = Ok s ->
  forall k : nat, (k < Z.to_nat N)%nat ->
    exists a b c,
      height !! (if Nat.eqb k 0 then Z.to_nat N else Nat.pred k) = Some a
      /\ height !! k = Some b
      /\ height !! S k = Some c
      /\ s !! k = Some (0.33 * (a + b + c))%R.
Proof.
  intros Hlen HN Hs k Hk. unfold gen_smooth_y in Hs.
  apply comprehension_lookup in Hs as [_ Hall].
  destruct (Hall k (Z.of_nat k) (range_lookup N k Hk)) as (y & Hy & Hsk).
  destruct (getitem height (Z.of_nat k - 1)) as [a|] eqn:Ea;
    [|discriminate Hy].
  cbn [bind] in Hy.
  destruct (getitem height (Z.of_nat k + 0)) as [b|] eqn:Eb;
    [|discriminate Hy].
  cbn [bind] in Hy.
  destruct (getitem height (Z.of_nat k + 1)) as [c|] eqn:Ec;
    [|discriminate Hy].
  cbn [bind] in Hy. injection Hy as <-.
  exists a, b, c.
  apply getitem_inv in Ea, Eb, Ec.
  destruct Eb as [[_ Eb]|[Hneg _]]; [|lia].
  destruct Ec as [[_ Ec]|[Hneg _]]; [|lia].
  replace (Z.to_nat (Z.of_nat k + 0)) with k in Eb by lia.
  replace (Z.to_nat (Z.of_nat k + 1)) with (S k) in Ec by lia.
  split; [|split; [exact Eb|split; [exact Ec|exact Hsk]]].
  destruct k as [|k]; cbn [Nat.eqb Nat.pred].
  - destruct Ea as [[Hpos _]|[_ Ea]]; [lia|].
    rewrite Hlen in Ea.
    replace (Z.to_nat (Z.of_nat (Z.to_nat (N + 1)) + (Z.of_nat 0 - 1)))
      with (Z.to_nat N) in Ea by lia.
    exact Ea.
  - destruct Ea as [[_ Ea]|[Hneg _]]; [|lia].
    replace (Z.to_nat (Z.of_nat (S k) - 1)) with k in Ea by lia.
    exact Ea.
Qed.

Section TerrainOutside.
Context (K : Constants).

(** The final profile is the baseline of the first draws with the center
    replaced and the platform loop run over it. *)
Lemma terrain_nodes_profile (N : Z) (flat : bool) (g : Generator)
    (t : TerrainNodes) :
  terrain_nodes K N flat g = Ok t ->
  exists hs g1 s0 s1,
    draw_heights K N g = Ok (hs, g1)
    /\ gen_smooth_y hs N = Ok s0
    /\ setitem s0 (N / 2 + 0) (t_helipad_y t) = Ok s1
    /\ for_each (platform_step N (t_helipad_y t) (t_diff_high t))
         (range (t_width_node t)) s1 = Ok (t_smooth_y t).
Proof.
  unfold terrain_nodes. intros Ht.
  destruct (draw_heights K N g) as [[hs g1]|] eqn:E1; [|discriminate Ht].
  cbn [bind] in Ht.
  destruct (gen_chunk_x K N) as [cx|] eqn:E2; [|discriminate Ht].
  cbn [bind] in Ht.
  destruct (gen_smooth_y hs N) as [sy|] eqn:E3; [|discriminate Ht].
  cbn [bind] in Ht.
  destruct (uniform_size (H K / 2) (H K * 3 / 5) 1 g1) as [[dr g2]|];
    [|discriminate Ht].
  cbn [bind] in Ht.
  destruct (getitem dr 0) as [d0|]; [|discriminate Ht]. cbn [bind] in Ht.
  destruct (setitem hs (N / 2 + 0) d0) as [hs'|]; [|discriminate Ht].
  cbn [bind] in Ht.
  destruct (getitem hs' (N / 2 + 0)) as [hy|]; [|discriminate Ht].
  cbn [bind] in Ht.
  destruct (getitem cx _) as [x1|]; [|discriminate Ht]. cbn [bind] in Ht.
  destruct (getitem cx _) as [x2|]; [|discriminate Ht]. cbn [bind] in Ht.
  destruct (setitem sy (N / 2 + 0) hy) as [sy'|] eqn:E4; [|discriminate Ht].
  cbn [bind] in Ht.
  match type of Ht with
  | bind ?m _ = _ => destruct m as [[ang g3]|]; [|discriminate Ht]
  end.
  cbn [bind] in Ht.
  destruct (truediv _ _) as [d|]; [|discriminate Ht]. cbn [bind] in Ht.
  destruct (for_each _ _ _) as [sy''|] eqn:E5; [|discriminate Ht].
  cbn [bind] in Ht. injection Ht as <-. cbn.
  exists hs, g1, sy, sy'. repeat split; assumption.
Qed.

(** X1: outside the platform range (and off the center node) every node
    keeps its baseline value, [0.33] times the sum of three of the height
    samples drawn at line 63 (for node 0 the previous sample is the extra,
    last one); such a node lies in [[0, 0.99 * H/2]] and so, when [H > 0],
    strictly below the platform elevation. *)
Theorem terrain_outside_platform (N : Z) (flat : bool) (g : Generator) :
  3 <= N -> (0 <= VIEWPORT_H K)%R -> (0 < SCALE K)%R -> unit_draws g ->
  exists t,
    terrain_nodes K N flat g = Ok t
    /\ forall k : nat,
         (k < Z.to_nat N)%nat ->
         k <> Z.to_nat (N / 2) ->
         Z.of_nat k < N / 2 - t_width_node t
         \/ N / 2 + t_width_node t < Z.of_nat k ->
         exists a b c,
           (uniform_list 0 (H K / 2) (Z.to_nat (N + 1)) g).1
             !! (if Nat.eqb k 0 then Z.to_nat N else Nat.pred k) = Some a
           /\ (uniform_list 0 (H K / 2) (Z.to_nat (N + 1)) g).1 !! k = Some b
           /\ (uniform_list 0 (H K / 2) (Z.to_nat (N + 1)) g).1 !! S k
              = Some c
           /\ t_smooth_y t !! k = Some (0.33 * (a + b + c))%R
           /\ (0 <= 0.33 * (a + b + c) <= 0.99 * (H K / 2))%R
           /\ ((0 < VIEWPORT_H K)%R ->
               (0.33 * (a + b + c) < t_helipad_y t)%R).
Proof.
  intros HN HH HS Hu. pose proof (H_nonneg K HH HS) as HHpos.
  destruct (terrain_nodes_ok K N flat g HN)
    as (t & Ht & _ & _ & _ & Hy & Hw & _).
  exists t. split; [exact Ht|].
  destruct (terrain_nodes_profile N flat g t Ht)
    as (hs & g1 & s0 & s1 & Hd & Hs0 & Hs1 & Hloop).
  unfold draw_heights, uniform_size in Hd.
  destruct (N + 1 <? 0) eqn:E; [lia|].
  pose proof (uniform_list_length 0 (H K / 2) (Z.to_nat (N + 1)) g) as Hlen.
  pose proof (uniform_list_lookup 0 (H K / 2) (Z.to_nat (N + 1)) g) as Hlk.
  destruct (uniform_list 0 (H K / 2) (Z.to_nat (N + 1)) g) as [hs' g'].
  injection Hd as -> ->. cbn [fst] in *.
  assert (Hc : 1 <= N / 2 < N).
  { split; [apply Z.div_le_lower_bound|apply Z.div_lt_upper_bound]; lia. }
  assert (Hwb : -1 <= t_width_node t /\ 12 * t_width_node t <= N).
  { rewrite Hw.
    pose proof (Z.div_pos N 6 ltac:(lia) ltac:(lia)).
    pose proof (Z.mul_div_le N 6 ltac:(lia)).
    pose proof (Z.mul_div_le (N / 6 - 1) 2 ltac:(lia)).
    split; [apply Z.div_le_lower_bound; lia | lia]. }
  assert (Hc2 : N - 1 <= 2 * (N / 2) <= N).
  { pose proof (Z.mul_div_le N 2 ltac:(lia)).
    pose proof (Z.mul_succ_div_gt N 2 ltac:(lia)). lia. }
  destruct (gen_smooth_y_ok hs N Hlen ltac:(lia)) as (s0' & Hs0' & Hls0).
  assert (s0' = s0) by congruence. subst s0'.
  rewrite Z.add_0_r in Hs1. rewrite setitem_nonneg in Hs1 by lia.
  injection Hs1 as <-.
  destruct (platform_loop N (t_helipad_y t) (t_diff_high t)
              (Z.to_nat (t_width_node t)) 0
              (<[Z.to_nat (N / 2) := t_helipad_y t]> s0))
    as (s' & Hrun & _ & _ & Hout).
  { lia. }
  { rewrite length_insert. lia. }
  unfold range in Hloop. rewrite Hrun in Hloop. injection Hloop as Hs'.
  intros k Hk Hnc Hside.
  destruct (gen_smooth_y_lookup hs N s0 Hlen ltac:(lia) Hs0 k Hk)
    as (a & b & c & Ha & Hb & Hcc & Hsk).
  exists a, b, c. split; [exact Ha|]. split; [exact Hb|]. split; [exact Hcc|].
  assert (Hbound : forall i x, hs !! i = Some x -> (0 <= x <= H K / 2)%R).
  { intros i x Hx. pose proof (lookup_lt_Some _ _ _ Hx) as Hi.
    rewrite Hlk in Hx by lia. injection Hx as <-.
    destruct (Hu (cursor g + i)%nat) as [Hu0 Hu1]. nra. }
  pose proof (Hbound _ _ Ha) as Ba. pose proof (Hbound _ _ Hb) as Bb.
  pose proof (Hbound _ _ Hcc) as Bc.
  split.
  { rewrite <- Hs'. rewrite Hout by lia.
    rewrite list_lookup_insert_ne by lia. exact Hsk. }
  split; [lra|].
  intros Hpos.
  assert (0 < H K)%R by (unfold H; apply Rdiv_lt_0_compat; assumption).
  rewrite Hy.
  destruct (Hu (cursor g + Z.to_nat (N + 1))%nat) as [Hu0 Hu1]. nra.
Qed.

End TerrainOutside.

Section TerrainEdges.
Context (K : Constants).

(** X2: for a node count below 3 the generator raises, and which exception
    depends on where the arithmetic first breaks: [ValueError] from the
    array size for [N <= -2], [ZeroDivisionError] from the node spacing for
    [N = 1], [IndexError] from an index for [N = -1], [0] and [2]. *)
Theorem terrain_error_kinds (N : Z) (flat : bool) (self : Env) :
  N <= 2 ->
  _gen_uav_terrain K N flat self
  = Raise (if N <=? -2 then ValueError
           else if N =? 1 then ZeroDivisionError
           else IndexError).
Proof.
  intros HN. unfold _gen_uav_terrain.
  destruct (Z_le_gt_dec N (-2)) as [Hneg|Hge].
  - destruct (N <=? -2) eqn:E; [|lia].
    unfold terrain_nodes, draw_heights, uniform_size.
    destruct (N + 1 <? 0) eqn:E1; [reflexivity|lia].
  - assert (Hcases : N = -1 \/ N = 0 \/ N = 1 \/ N = 2) by lia.
    destruct Hcases as [ -> | [ -> | [ -> | -> ] ] ]; reflexivity.
Qed.

(** X3: the recorded platform bounds are the coordinates of the nodes
    [center - w] and [center + w]: they are [2 * w] node spacings apart and
    symmetric about the center node.  With [w >= 1] the bounds enclose the
    horizontal middle of the viewport, where the lander is created; with
    [w = -1], that is for [3 <= N <= 5], the bounds are swapped. *)
Theorem platform_bounds (N : Z) (flat : bool) (self : Env) :
  3 <= N -> (0 < VIEWPORT_W K)%R -> (0 < SCALE K)%R ->
  exists self',
    _gen_uav_terrain K N flat self = Ok self'
    /\ let w := (N / 6 - 1) / 2 in
       (helipad_x2 self' - helipad_x1 self'
        = 2 * IZR w * (W K / IZR (N - 1)))%R
       /\ (helipad_x1 self' + helipad_x2 self'
           = 2 * (W K / IZR (N - 1) * IZR (N / 2)))%R
       /\ (1 <= w ->
           (helipad_x1 self' < VIEWPORT_W K / SCALE K / 2
            < helipad_x2 self')%R)
       /\ (N <= 5 -> (helipad_x2 self' < helipad_x1 self')%R).
Proof.
  intros HN HW HS. pose proof (W_pos K HW HS) as HWpos.
  destruct (terrain_nodes_ok K N flat (np_random self) HN)
    as (t0 & Ht0 & _ & _ & _ & _ & Hw & Hx1 & Hx2 & _).
  destruct (gen_uav_terrain_ok K N flat self HN)
    as (t & self' & _ & _ & Ht & Hrun & _ & _ & Hh1 & Hh2 & _).
  assert (t0 = t) by congruence. subst t0.
  exists self'. split; [exact Hrun|]. cbv zeta.
  rewrite Hh1, Hh2, Hx1, Hx2, Hw.
  set (w := (N / 6 - 1) / 2).
  assert (Hden : (0 < IZR (N - 1))%R) by (apply IZR_lt; lia).
  assert (Hdx : (0 < W K / IZR (N - 1))%R)
    by (apply Rdiv_lt_0_compat; assumption).
  assert (Hc2 : N - 1 <= 2 * (N / 2) <= N).
  { pose proof (Z.mul_div_le N 2 ltac:(lia)).
    pose proof (Z.mul_succ_div_gt N 2 ltac:(lia)). lia. }
  rewrite (minus_IZR (N / 2) w), (plus_IZR (N / 2) w).
  set (dx := (W K / IZR (N - 1))%R) in *.
  split; [ring|]. split; [ring|].
  assert (Hhalf : (VIEWPORT_W K / SCALE K / 2 = dx * (IZR (N - 1) / 2))%R).
  { unfold dx, W. field. split; lra. }
  split.
  - intros Hw1. rewrite Hhalf.
    assert (A1 : 2 * (N / 2 - w) <= N - 1 - 1) by lia.
    assert (A2 : N - 1 + 1 <= 2 * (N / 2 + w)) by lia.
    apply IZR_le in A1, A2.
    rewrite mult_IZR, !minus_IZR in A1.
    rewrite mult_IZR, !plus_IZR, minus_IZR in A2.
    rewrite minus_IZR.
    split; apply Rmult_lt_compat_l; try exact Hdx; lra.
  - intros Hsmall.
    assert (Hwm : w = -1).
    { unfold w. assert (N / 6 = 0) by (apply Z.div_small; lia).
      replace (N / 6) with 0 by lia. reflexivity. }
    rewrite Hwm. apply Rmult_lt_compat_l; [exact Hdx|]. lra.
Qed.

End TerrainEdges.

Section TerrainTilt.
Context (K : Constants).

Lemma tan_bounded (a : R) :
  (- PI / 6 <= a < PI / 6)%R -> (Rabs (tan a) <= tan (PI / 6))%R.
Proof.
  intros [Hlo Hhi]. pose proof PI_RGT_0 as Hpi.
  assert (Hup : (tan a < tan (PI / 6))%R)
    by (apply tan_increasing; lra).
  destruct (Req_dec a (- PI / 6)) as [->|Hne].
  - replace (- PI / 6)%R with (- (PI / 6))%R by lra.
    rewrite tan_neg, Rabs_Ropp. apply Rabs_le. split; [|lra].
    assert (0 < tan (PI / 6))%R by (apply tan_gt_0; lra). lra.
  - assert (Hdown : (tan (- (PI / 6)) < tan a)%R)
      by (apply tan_increasing; lra).
    rewrite tan_neg in Hdown. apply Rabs_le. lra.
Qed.

(** X4: a tilted platform.  Every node of the platform range has height
    [helipad_y + d * (k - center)] with [d] the per-node step, so two nodes
    at the same distance from the center average to the elevation; the step
    is at most [tan(pi/6) * W / (N - 1)] in magnitude; and the heights rise
    strictly from left to right when the drawn angle is positive and fall
    strictly when it is negative. *)
Theorem platform_tilt (N : Z) (g : Generator) :
  1 <= (N / 6 - 1) / 2 -> unit_draws g ->
  (0 < VIEWPORT_W K)%R -> (0 < SCALE K)%R ->
  exists t,
    terrain_nodes K N false g = Ok t
    /\ (forall k : Z,
          N / 2 - t_width_node t <= k <= N / 2 + t_width_node t ->
          t_smooth_y t !! Z.to_nat k
          = Some (t_helipad_y t + t_diff_high t * IZR (k - N / 2))%R)
    /\ (Rabs (t_diff_high t) <= tan (PI / 6) * (W K / IZR (N - 1)))%R
    /\ (forall (i j : Z) (yi yj : R),
          N / 2 - t_width_node t <= i -> i < j ->
          j <= N / 2 + t_width_node t ->
          t_smooth_y t !! Z.to_nat i = Some yi ->
          t_smooth_y t !! Z.to_nat j = Some yj ->
          ((0 < t_angle t)%R -> (yi < yj)%R)
          /\ ((t_angle t < 0)%R -> (yj < yi)%R)).
Proof.
  intros Hw Hu HW HS. pose proof (W_pos K HW HS) as HWpos.
  assert (HN : 18 <= N).
  { destruct (Z_lt_le_dec N 18) as [Hlt|Hge]; [exfalso|exact Hge].
    assert (N / 6 < 3) by (apply Z.div_lt_upper_bound; lia).
    assert ((N / 6 - 1) / 2 < 1) by (apply Z.div_lt_upper_bound; lia).
    lia. }
  destruct (terrain_nodes_ok K N false g ltac:(lia))
    as (t & Ht & _ & _ & _ & _ & Hwn & _ & _ & Hang & Hd & Hc & Hline & _).
  assert (Hden : (0 < IZR (N - 1))%R) by (apply IZR_lt; lia).
  assert (Hdx : (0 < W K / IZR (N - 1))%R)
    by (apply Rdiv_lt_0_compat; assumption).
  pose proof PI_RGT_0 as Hpi.
  assert (Hrange : (- PI / 6 <= t_angle t < PI / 6)%R).
  { rewrite Hang.
    destruct (Hu (cursor g + Z.to_nat (N + 1) + 1)%nat) as [H0 H1]. nra. }
  assert (Hdiff : t_diff_high t = (tan (t_angle t) * (W K / IZR (N - 1)))%R).
  { rewrite Hd. field. lra. }
  assert (Hnodes : forall k : Z,
            N / 2 - t_width_node t <= k <= N / 2 + t_width_node t ->
            t_smooth_y t !! Z.to_nat k
            = Some (t_helipad_y t + t_diff_high t * IZR (k - N / 2))%R).
  { intros k Hk.
    destruct (Z.lt_trichotomy k (N / 2)) as [Hlt | [ -> | Hgt ] ].
    - destruct (Hline (N / 2 - k) ltac:(lia)) as [Hl _].
      replace (N / 2 - (N / 2 - k)) with k in Hl by lia.
      rewrite Hl. f_equal.
      replace (k - N / 2) with (- (N / 2 - k)) by lia.
      rewrite opp_IZR. ring.
    - rewrite Hc. f_equal. rewrite Z.sub_diag. simpl. ring.
    - destruct (Hline (k - N / 2) ltac:(lia)) as [_ Hr].
      replace (N / 2 + (k - N / 2)) with k in Hr by lia.
      rewrite Hr. reflexivity. }
  exists t. split; [exact Ht|]. split; [exact Hnodes|].
  split.
  { rewrite Hdiff, Rabs_mult, (Rabs_pos_eq (W K / IZR (N - 1))) by lra.
    apply Rmult_le_compat_r; [lra|]. apply tan_bounded. exact Hrange. }
  intros i j yi yj Hi Hij Hj Hyi Hyj.
  rewrite Hnodes in Hyi, Hyj by lia.
  injection Hyi as <-. injection Hyj as <-.
  assert (Hlt : (IZR (i - N / 2) < IZR (j - N / 2))%R)
    by (apply IZR_lt; lia).
  rewrite Hdiff. split.
  - intros Hpos.
    assert (0 < tan (t_angle t))%R by (apply tan_gt_0; lra).
    assert (0 < tan (t_angle t) * (W K / IZR (N - 1)))%R
      by (apply Rmult_lt_0_compat; assumption).
    nra.
  - intros Hneg.
    assert (tan (t_angle t) < 0)%R by (apply tan_lt_0; lra).
    assert (tan (t_angle t) * (W K / IZR (N - 1)) < 0)%R by nra.
    nra.
Qed.

End TerrainTilt.

Section GroundShape.
Context (K : Constants).

Lemma ground_polys (cx sy : list R) (m : BodyId) (xs : list Z)
    (w w' : World) (polys polys' : list (list Vec2)) :
  (forall i, i ∈ xs -> 0 <= i) ->
  for_each (ground_step K cx sy m) xs (w, polys) = Ok (w', polys') ->
  exists added,
    polys' = polys ++ added
    /\ length added = length xs
    /\ forall (k : nat) (i : Z), xs !! k = Some i ->
         exists x1 y1 x2 y2,
           cx !! Z.to_nat i = Some x1 /\ sy !! Z.to_nat i = Some y1
           /\ cx !! Z.to_nat (i + 1) = Some x2
           /\ sy !! Z.to_nat (i + 1) = Some y2
           /\ added !! k
              = Some [(x1, y1); (x2, y2); (x2, H K); (x1, H K)].
Proof.
  revert w polys. induction xs as [|i xs IH]; intros w polys Hpos Hrun.
  - simpl in Hrun. injection Hrun as <- <-. exists [].
    rewrite app_nil_r. split; [reflexivity|]. split; [reflexivity|].
    intros k i Hk. rewrite lookup_nil in Hk. discriminate Hk.
  - simpl in Hrun.
    assert (Hi : 0 <= i) by (apply Hpos, list_elem_of_here).
    destruct (getitem cx i) as [x1|] eqn:G1; [|discriminate Hrun].
    cbn [bind] in Hrun.
    destruct (getitem sy i) as [y1|] eqn:G2; [|discriminate Hrun].
    cbn [bind] in Hrun.
    destruct (getitem cx (i + 1)) as [x2|] eqn:G3; [|discriminate Hrun].
    cbn [bind] in Hrun.
    destruct (getitem sy (i + 1)) as [y2|] eqn:G4; [|discriminate Hrun].
    cbn [bind fst] in Hrun.
    apply IH in Hrun as (added & Heq & Hlen & Hall).
    2:{ intros j Hj. apply Hpos, list_elem_of_further, Hj. }
    exists ([(x1, y1); (x2, y2); (x2, H K); (x1, H K)] :: added).
    split; [rewrite Heq, <- app_assoc; reflexivity|].
    split; [simpl; rewrite Hlen; reflexivity|].
    apply getitem_inv in G1, G2, G3, G4.
    destruct G1 as [[_ G1]|[Hneg _]]; [|lia].
    destruct G2 as [[_ G2]|[Hneg _]]; [|lia].
    destruct G3 as [[_ G3]|[Hneg _]]; [|lia].
    destruct G4 as [[_ G4]|[Hneg _]]; [|lia].
    intros [|k] j Hk; simpl in Hk.
    + injection Hk as <-. exists x1, y1, x2, y2.
      repeat split; assumption.
    + apply (Hall k j Hk).
Qed.

(** X5: the ground built by the generator.  The static body has [N]
    fixtures: the floor edge from [(0, 0)] to [(W, 0)] and, for every
    [k < N - 1], the edge from node [k] to node [k + 1] of the profile, so
    consecutive edges share an end point and the chain runs from [x = 0] to
    [x = W]; the sky polygons are replaced by [N - 1] new ones, polygon [k]
    being the quadrilateral above edge [k] up to the height [H]. *)
Theorem ground_is_a_polyline (N : Z) (flat : bool) (self : Env) :
  3 <= N ->
  exists t self' m b,
    terrain_nodes K N flat (np_random self) = Ok t
    /\ _gen_uav_terrain K N flat self = Ok self'
    /\ moon self' = Some m
    /\ bodies (world self') !! m = Some b
    /\ body_type b = staticBody
    /\ length (fixtures b) = Z.to_nat N
    /\ fixtures b !! 0%nat
       = Some (mkFixture (edgeShape (0, 0)%R (W K, 0)%R)
                 None None None None None)
    /\ length (sky_polys self') = Z.to_nat (N - 1)
    /\ t_chunk_x t !! 0%nat = Some 0%R
    /\ t_chunk_x t !! Z.to_nat (N - 1) = Some (W K)
    /\ forall k : nat, (k < Z.to_nat (N - 1))%nat ->
         exists x1 y1 x2 y2,
           t_chunk_x t !! k = Some x1 /\ t_smooth_y t !! k = Some y1
           /\ t_chunk_x t !! S k = Some x2
           /\ t_smooth_y t !! S k = Some y2
           /\ fixtures b !! S k
              = Some (mkFixture (edgeShape (x1, y1) (x2, y2))
                        (Some 0%R) (Some 0.1%R) None None None)
           /\ sky_polys self' !! k
              = Some [(x1, y1); (x2, y2); (x2, H K); (x1, H K)].
Proof.
  intros HN.
  destruct (terrain_nodes_ok K N flat (np_random self) HN)
    as (t0 & Ht0 & _ & Hcx & _).
  destruct (gen_uav_terrain_ok K N flat self HN)
    as (t & self' & b & edges & Ht & Hrun & _ & _ & _ & _ & Hmoon & _ & _ & _
        & _ & Hb & Hty & Hfix & Hlen & Hedges & _).
  assert (t0 = t) by congruence. subst t0.
  exists t, self', (next_body (world self)), b.
  split; [exact Ht|]. split; [exact Hrun|]. split; [exact Hmoon|].
  split; [exact Hb|]. split; [exact Hty|].
  split; [rewrite Hfix; simpl; rewrite Hlen; lia|].
  split; [rewrite Hfix; reflexivity|].
  assert (Hpolys : exists added,
            sky_polys self' = added
            /\ length added = Z.to_nat (N - 1)
            /\ forall (k : nat), (k < Z.to_nat (N - 1))%nat ->
                 exists x1 y1 x2 y2,
                   t_chunk_x t !! k = Some x1 /\ t_smooth_y t !! k = Some y1
                   /\ t_chunk_x t !! S k = Some x2
                   /\ t_smooth_y t !! S k = Some y2
                   /\ added !! k
                      = Some [(x1, y1); (x2, y2); (x2, H K); (x1, H K)]).
  { unfold _gen_uav_terrain in Hrun. rewrite Ht in Hrun. cbn [bind] in Hrun.
    destruct (CreateStaticBody _ _) as [w0 m0].
    destruct (for_each _ _ _) as [[w' polys']|] eqn:Hloop;
      [|discriminate Hrun].
    cbn [bind] in Hrun. injection Hrun as <-. cbn [sky_polys set_moon].
    apply ground_polys in Hloop as (added & Heq & Hl & Hall).
    2:{ intros i Hi. apply range_elem in Hi. lia. }
    simpl in Heq. subst polys'. exists added. split; [reflexivity|].
    split; [rewrite Hl, range_length; reflexivity|].
    intros k Hk.
    destruct (Hall k (Z.of_nat k) (range_lookup _ _ Hk))
      as (x1 & y1 & x2 & y2 & H1 & H2 & H3 & H4 & H5).
    rewrite Nat2Z.id in H1, H2.
    replace (Z.to_nat (Z.of_nat k + 1)) with (S k) in H3, H4 by lia.
    exists x1, y1, x2, y2. repeat split; assumption. }
  destruct Hpolys as (added & Hsky & Hladd & Hadd).
  split; [rewrite Hsky; exact Hladd|].
  split.
  { rewrite Hcx. change 0%nat with (Z.to_nat 0).
    rewrite list_lookup_fmap, range_lookup by lia. cbn [fmap option_fmap option_map Z.to_nat Z.of_nat]. f_equal. apply Rmult_0_r. }
  split.
  { rewrite Hcx. rewrite list_lookup_fmap, range_lookup by lia.
    cbn [fmap option_fmap option_map].
    rewrite Z2Nat.id by lia. f_equal. field. apply not_0_IZR. lia. }
  intros k Hk.
  destruct (Hedges k Hk) as (x1 & y1 & x2 & y2 & H1 & H2 & H3 & H4 & H5).
  destruct (Hadd k Hk) as (x1' & y1' & x2' & y2' & P1 & P2 & P3 & P4 & P5).
  exists x1, y1, x2, y2.
  assert (x1' = x1) by congruence. assert (y1' = y1) by congruence.
  assert (x2' = x2) by congruence. assert (y2' = y2) by congruence.
  subst x1' y1' x2' y2'. rewrite Hfix, Hsky. repeat split; assumption.
Qed.

End GroundShape.

(** * Further properties of the vehicle assembly *)

Section VehicleSpawn.
Context (K : Constants).

(** X6: the lander is created at the horizontal middle of the viewport, at
    its top, upright and at rest, under a fresh handle; the force applied to
    it has both components in [[-INITIAL_RANDOM, INITIAL_RANDOM]] and comes
    from exactly two draws; the legs of a previous episode are dropped and
    the two new legs start without ground contact; and no body that was in
    the world before is changed. *)
Theorem lander_spawn (self : Env) :
  unit_draws (np_random self) -> (0 <= INITIAL_RANDOM K)%R ->
  exists self' l b,
    _gen_uav_lander K self = Ok self'
    /\ lander self' = Some l
    /\ l = next_body (world self)
    /\ bodies (world self') !! l = Some b
    /\ position b = (VIEWPORT_W K / SCALE K / 2, VIEWPORT_H K / SCALE K)%R
    /\ angle b = 0%R
    /\ linearVelocity b = (0, 0)%R
    /\ awake b = true
    /\ (- INITIAL_RANDOM K <= fst (force b) <= INITIAL_RANDOM K)%R
    /\ (- INITIAL_RANDOM K <= snd (force b) <= INITIAL_RANDOM K)%R
    /\ np_random self'
       = mkGenerator (source (np_random self))
           (S (S (cursor (np_random self))))
    /\ map leg_body (legs self') = [S l; S (S l)]
    /\ map ground_contact (legs self') = [false; false]
    /\ (forall id, (id < next_body (world self))%nat ->
          bodies (world self') !! id = bodies (world self) !! id).
Proof.
  intros Hu HIR.
  destruct (gen_uav_lander_ok K self)
    as (self' & Hrun & Hl & Hlegs & _ & Hb & _ & _ & Hg & _).
  set (l := next_body (world self)) in *.
  eexists self', l, _.
  split; [exact Hrun|]. split; [exact Hl|]. split; [reflexivity|].
  split.
  { rewrite Hb. rewrite !lookup_insert_ne by lia.
    rewrite lookup_alter_eq, lookup_insert_eq. reflexivity. }
  cbn [body_ApplyForceToCenter new_body body_type position angle
       linearVelocity awake force orb Vadd fst snd].
  destruct (Hu (cursor (np_random self))) as [A0 A1].
  destruct (Hu (S (cursor (np_random self)))) as [B0 B1].
  split; [reflexivity|]. split; [lra|]. split; [reflexivity|].
  split; [reflexivity|].
  split; [nra|]. split; [nra|].
  split; [exact Hg|].
  split; [rewrite Hlegs; reflexivity|].
  split; [rewrite Hlegs; reflexivity|].
  intros id Hid. rewrite Hb.
  rewrite !lookup_insert_ne by lia.
  rewrite lookup_alter_ne by lia.
  apply lookup_insert_ne. lia.
Qed.

End VehicleSpawn.

(** * Further properties of the episode step *)

Lemma untouched_refl (e : Env) : untouched e e.
Proof. unfold untouched. repeat split; reflexivity. Qed.

Lemma untouched_trans (a b c : Env) :
  untouched a b -> untouched b c -> untouched a c.
Proof.
  unfold untouched.
  intros (A1 & A2 & A3 & A4 & A5 & A6 & A7 & A8 & A9 & A10 & A11 & A12)
         (B1 & B2 & B3 & B4 & B5 & B6 & B7 & B8 & B9 & B10 & B11 & B12).
  repeat split; congruence.
Qed.

Lemma clip_clip (x : R) :
  clip (clip x (-1) 1) (-1) 1 = clip x (-1) 1.
Proof.
  unfold clip, Rmin, Rmax.
  repeat (destruct (Rle_dec _ _)); lra.
Qed.

Lemma clip_action_idempotent (a : Action) :
  clip_action (clip_action a) = clip_action a.
Proof.
  destruct a as [a0 a1|x]; simpl.
  - rewrite !clip_clip. reflexivity.
  - f_equal. lia.
Qed.

Section StepInversion.
Context (K : Constants) (C : Collaborators).

Lemma apply_wind_inv (l : BodyId) (self e1 : Env) :
  apply_wind l self = Ok e1 ->
  untouched self e1
  /\ np_random e1 = np_random self
  /\ legs e1 = legs self
  /\ prev_shaping e1 = prev_shaping self
  /\ game_over e1 = game_over self.
Proof.
  unfold apply_wind. intros Hw.
  destruct (enable_wind self).
  - destruct (getitem (legs self) 0) as [l0|]; [|discriminate Hw].
    cbn [bind] in Hw.
    destruct (ground_contact l0).
    + cbn [bind] in Hw. injection Hw as <-.
      repeat split; auto using untouched_refl.
    + destruct (getitem (legs self) 1) as [l1|]; [|discriminate Hw].
      cbn [bind] in Hw.
      destruct (ground_contact l1); injection Hw as <-;
        repeat split; auto using untouched_refl.
  - cbn [bind] in Hw. injection Hw as <-.
    repeat split; auto using untouched_refl.
Qed.

Lemma main_engine_inv (l : BodyId) (action : Action) (tip side : Vec2)
    (dispersion : R * R) (self e' : Env) (m : R) :
  main_engine K C l action tip side dispersion self = Ok (m, e') ->
  untouched self e'
  /\ np_random e' = np_random self
  /\ legs e' = legs self
  /\ prev_shaping e' = prev_shaping self
  /\ game_over e' = game_over self
  /\ wind_idx e' = wind_idx self /\ torque_idx e' = torque_idx self
  /\ match action with
     | ContinuousAction a0 _ =>
         m = (if continuous self && Rltb 0.0 a0
              then (clip a0 0.0 1.0 + 1.0) * 0.5 else 0.0)%R
     | DiscreteAction a =>
         continuous self = false
         /\ m = (if a =? 2 then 1.0 else 0.0)%R
     end.
Proof.
  unfold main_engine. intros Hm.
  destruct action as [a0 a1|a]; destruct (continuous self) eqn:Ec;
    cbn [item0 bind action_is andb] in Hm; try discriminate Hm.
  - destruct (Rltb 0.0 a0).
    + destruct (assert _) as [[]|]; [|discriminate Hm]. cbn [bind] in Hm.
      destruct (body_of (world self) l) as [b|]; [|discriminate Hm].
      cbn [bind] in Hm.
      destruct (_create_particle C _ _ _ _ _) as [w p].
      injection Hm as <- <-.
      repeat split; auto using untouched_refl.
    + injection Hm as <- <-. repeat split; auto using untouched_refl.
  - injection Hm as <- <-. repeat split; auto using untouched_refl.
  - destruct (a =? 2).
    + cbn [bind] in Hm.
      destruct (body_of (world self) l) as [b|]; [|discriminate Hm].
      cbn [bind] in Hm.
      destruct (_create_particle C _ _ _ _ _) as [w p].
      injection Hm as <- <-.
      repeat split; auto using untouched_refl.
    + injection Hm as <- <-. repeat split; auto using untouched_refl.
Qed.

Lemma side_engine_inv (l : BodyId) (action : Action) (tip side : Vec2)
    (dispersion : R * R) (self e' : Env) (s : R) :
  side_engine K C l action tip side dispersion self = Ok (s, e') ->
  untouched self e'
  /\ np_random e' = np_random self
  /\ legs e' = legs self
  /\ prev_shaping e' = prev_shaping self
  /\ game_over e' = game_over self
  /\ wind_idx e' = wind_idx self /\ torque_idx e' = torque_idx self
  /\ match action with
     | ContinuousAction _ a1 =>
         s = (if continuous self && Rltb 0.5 (Rabs a1)
              then clip (Rabs a1) 0.5 1.0 else 0.0)%R
     | DiscreteAction a =>
         continuous self = false
         /\ s = (if (a =? 1) || (a =? 3) then 1.0 else 0.0)%R
     end.
Proof.
  unfold side_engine. intros Hs.
  destruct action as [a0 a1|a]; destruct (continuous self) eqn:Ec;
    cbn [item1 bind action_is andb orb] in Hs; try discriminate Hs.
  - destruct (Rltb 0.5 (Rabs a1)).
    + destruct (assert _) as [[]|]; [|discriminate Hs]. cbn [bind] in Hs.
      destruct (body_of (world self) l) as [b|]; [|discriminate Hs].
      cbn [bind] in Hs.
      destruct (_create_particle C _ _ _ _ _) as [w p].
      injection Hs as <- <-.
      repeat split; auto using untouched_refl.
    + injection Hs as <- <-. repeat split; auto using untouched_refl.
  - injection Hs as <- <-. repeat split; auto using untouched_refl.
  - destruct ((a =? 1) || (a =? 3)).
    + cbn [bind] in Hs.
      destruct (body_of (world self) l) as [b|]; [|discriminate Hs].
      cbn [bind] in Hs.
      destruct (_create_particle C _ _ _ _ _) as [w p].
      injection Hs as <- <-.
      repeat split; auto using untouched_refl.
    + injection Hs as <- <-. repeat split; auto using untouched_refl.
Qed.

End StepInversion.

Lemma mark_leg_body (a b : BodyId) (flag : bool) (ls : list Leg) :
  map leg_body (map (mark_leg a b flag) ls) = map leg_body ls.
Proof.
  induction ls as [|l ls IH]; simpl; [reflexivity|]. rewrite IH. f_equal.
  unfold mark_leg. destruct (touches (leg_body l) a b); reflexivity.
Qed.

Lemma ContactDetector_untouched (ev : ContactEvent) (e : Env) :
  untouched e (ContactDetector ev e)
  /\ wind_idx (ContactDetector ev e) = wind_idx e
  /\ torque_idx (ContactDetector ev e) = torque_idx e.
Proof.
  unfold untouched.
  destruct ev as [a b|a b]; simpl.
  - destruct (lander e) as [l|] eqn:El;
      [destruct (touches l a b)|]; simpl;
      rewrite ?mark_leg_body, ?El; repeat split; reflexivity.
  - rewrite mark_leg_body. repeat split; reflexivity.
Qed.

Lemma contacts_untouched (events : list ContactEvent) (e : Env) :
  let e' := fold_left (fun e ev => ContactDetector ev e) events e in
  untouched e e' /\ wind_idx e' = wind_idx e /\ torque_idx e' = torque_idx e.
Proof.
  revert e. induction events as [|ev events IH]; intros e; simpl.
  - split; [apply untouched_refl|]. split; reflexivity.
  - destruct (IH (ContactDetector ev e)) as (A & A1 & A2).
    destruct (ContactDetector_untouched ev e) as (B & B1 & B2).
    split; [exact (untouched_trans _ _ _ B A)|]. split; congruence.
Qed.

Section StepMaster.
Context (K : Constants) (C : Collaborators).

Lemma advance_inv (self : Env) :
  untouched self (advance K C self)
  /\ np_random (advance K C self) = np_random self
  /\ prev_shaping (advance K C self) = prev_shaping self
  /\ wind_idx (advance K C self) = wind_idx self
  /\ torque_idx (advance K C self) = torque_idx self.
Proof.
  unfold advance.
  destruct (world_Step C (world self) (1.0 / FPS K) (6 * 30) (2 * 30))
    as [w events].
  destruct (contactListener (world self)).
  - destruct (contacts_untouched events (set_world w self)) as (A & A1 & A2).
    destruct (contacts_frame events (set_world w self))
      as (_ & _ & B3 & _ & _ & _ & B7).
    cbv zeta in *. split.
    + apply (untouched_trans _ (set_world w self)); [|exact A].
      unfold untouched. simpl. repeat split; reflexivity.
    + rewrite B7, B3, A1, A2. simpl. repeat split; reflexivity.
  - split; [unfold untouched; simpl; repeat split; reflexivity|].
    simpl. repeat split; reflexivity.
Qed.

(** Everything one returning call of [step] establishes. *)
Lemma step_locals_inv (self : Env) (action : Action) (t : StepLocals) :
  step_locals K C self action = Ok t ->
  exists l a' b leg0 leg1,
    lander self = Some l
    /\ check_action self action = Ok a'
    /\ untouched self (l_self t)
    /\ np_random (l_self t)
       = mkGenerator (source (np_random self))
           (S (S (cursor (np_random self))))
    /\ l_prev_shaping t = prev_shaping self
    /\ match a' with
       | ContinuousAction a0 a1 =>
           l_m_power t
           = (if continuous self && Rltb 0.0 a0
              then (clip a0 0.0 1.0 + 1.0) * 0.5 else 0.0)%R
           /\ l_s_power t
              = (if continuous self && Rltb 0.5 (Rabs a1)
                 then clip (Rabs a1) 0.5 1.0 else 0.0)%R
       | DiscreteAction a =>
           continuous self = false
           /\ l_m_power t = (if a =? 2 then 1.0 else 0.0)%R
           /\ l_s_power t = (if (a =? 1) || (a =? 3) then 1.0 else 0.0)%R
       end
    /\ bodies (world (l_self t)) !! l = Some b
    /\ legs (l_self t) !! 0%nat = Some leg0
    /\ legs (l_self t) !! 1%nat = Some leg1
    /\ l_awake t = awake b
    /\ l_state t
       = [((fst (position b) - VIEWPORT_W K / SCALE K / 2)
           / (VIEWPORT_W K / SCALE K / 2))%R;
          ((snd (position b) - (helipad_y self + LEG_DOWN K / SCALE K))
           / (VIEWPORT_H K / SCALE K / 2))%R;
          (fst (linearVelocity b) * (VIEWPORT_W K / SCALE K / 2) / FPS K)%R;
          (snd (linearVelocity b) * (VIEWPORT_H K / SCALE K / 2) / FPS K)%R;
          angle b;
          (20.0 * angularVelocity b / FPS K)%R;
          b2R (ground_contact leg0);
          b2R (ground_contact leg1)]
    /\ ((wind_idx (l_self t) = wind_idx self
         /\ torque_idx (l_self t) = torque_idx self)
        \/ (wind_idx (l_self t) = wind_idx self + 1
            /\ torque_idx (l_self t) = torque_idx self + 1)).
Proof.
  intros Ht. unfold step_locals in Ht.
  destruct (lander self) as [l|] eqn:El; [|discriminate Ht].
  cbn [bind] in Ht.
  destruct (apply_wind l self) as [e1|] eqn:Ew; [|discriminate Ht].
  cbn [bind] in Ht.
  destruct (check_action e1 action) as [a'|] eqn:Ea; [|discriminate Ht].
  cbn [bind] in Ht.
  destruct (body_of (world e1) l) as [b1|]; [|discriminate Ht].
  cbn [bind uniform random] in Ht.
  destruct (main_engine _ _ _ _ _ _ _ _) as [[m e2]|] eqn:Em;
    [|discriminate Ht].
  cbn [bind] in Ht.
  destruct (side_engine _ _ _ _ _ _ _ _) as [[s e3]|] eqn:Es;
    [|discriminate Ht].
  cbn [bind] in Ht.
  destruct (body_of (world (advance K C e3)) l) as [b4|] eqn:Eb4;
    [|discriminate Ht].
  cbn [bind] in Ht.
  destruct (getitem (legs (advance K C e3)) 0) as [l0|] eqn:G0;
    [|discriminate Ht].
  cbn [bind] in Ht.
  destruct (getitem (legs (advance K C e3)) 1) as [l1|] eqn:G1;
    [|discriminate Ht].
  cbn [bind] in Ht. injection Ht as <-.
  pose proof (apply_wind_inv l self e1 Ew) as (U1 & N1 & L1 & P1 & O1).
  apply main_engine_inv in Em as (U2 & N2 & L2 & P2 & O2 & W2 & T2 & M2).
  apply side_engine_inv in Es as (U3 & N3 & L3 & P3 & O3 & W3 & T3 & S3).
  destruct (advance_inv e3) as (U4 & N4 & P4 & W4 & T4).
  assert (U12 : untouched self
                  (set_np_random
                     (mkGenerator (source (np_random e1))
                        (S (S (cursor (np_random e1))))) e1)).
  { apply (untouched_trans _ e1); [exact U1|].
    unfold untouched. simpl. repeat split; reflexivity. }
  assert (Hcont : continuous e1 = continuous self)
    by (destruct U1 as (_ & _ & _ & _ & _ & _ & _ & _ & Hc & _); exact Hc).
  assert (Hhy : helipad_y (advance K C e3) = helipad_y self).
  { pose proof (untouched_trans _ _ _ U12
                  (untouched_trans _ _ _ U2 (untouched_trans _ _ _ U3 U4)))
      as (_ & _ & _ & _ & Hy & _).
    exact Hy. }
  apply getitem_inv in G0 as [[_ G0]|[Hneg _]]; [|lia].
  apply getitem_inv in G1 as [[_ G1]|[Hneg _]]; [|lia].
  exists l, a', b4, l0, l1.
  split; [reflexivity|].
  split.
  { unfold check_action in *. rewrite Hcont in Ea. exact Ea. }
  split.
  { cbn [l_self].
    apply (untouched_trans _ (advance K C e3)).
    - exact (untouched_trans _ _ _ U12
               (untouched_trans _ _ _ U2 (untouched_trans _ _ _ U3 U4))).
    - unfold untouched. simpl. repeat split; reflexivity. }
  split.
  { cbn [l_self set_prev_shaping np_random].
    rewrite N4, N3, N2. cbn [set_np_random np_random source cursor].
    rewrite N1. reflexivity. }
  split.
  { cbn [l_prev_shaping]. rewrite P4, P3, P2. cbn. exact P1. }
  split.
  { cbn [l_m_power l_s_power].
    assert (Hc2 : continuous e2 = continuous self).
    { destruct U2 as (_ & _ & _ & _ & _ & _ & _ & _ & Hc & _).
      rewrite Hc. cbn. exact Hcont. }
    destruct a' as [a0 a1|a].
    - cbn [set_np_random continuous] in M2. rewrite Hcont in M2.
      rewrite Hc2 in S3. split; assumption.
    - destruct M2 as [Mc M2]. destruct S3 as [_ S3].
      cbn [set_np_random continuous] in Mc. rewrite Hcont in Mc.
      repeat split; assumption. }
  split.
  { cbn [l_self set_prev_shaping world]. unfold body_of in Eb4.
    destruct (bodies (world (advance K C e3)) !! l); congruence. }
  split; [exact G0|]. split; [exact G1|]. split; [reflexivity|].
  split.
  { cbn [l_state]. rewrite Hhy. reflexivity. }
  cbn [l_self set_prev_shaping wind_idx torque_idx].
  rewrite W4, T4, W3, T3, W2, T2.
  cbn [set_np_random wind_idx torque_idx].
  clear -Ew. unfold apply_wind in Ew.
  destruct (enable_wind self).
  - destruct (getitem (legs self) 0) as [g0|]; [|discriminate Ew].
    cbn [bind] in Ew.
    destruct (ground_contact g0).
    + cbn [bind] in Ew. injection Ew as <-. left. split; reflexivity.
    + destruct (getitem (legs self) 1) as [g1|]; [|discriminate Ew].
      cbn [bind] in Ew.
      destruct (ground_contact g1); injection Ew as <-;
        [left|right]; split; reflexivity.
  - cbn [bind] in Ew. injection Ew as <-. left. split; reflexivity.
Qed.

End StepMaster.

Lemma Rabs_clip (x : R) : Rabs (clip x (-1) 1) = Rmin (Rabs x) 1.
Proof.
  unfold clip, Rmin, Rmax, Rabs.
  repeat (destruct (Rle_dec _ _)); repeat (destruct (Rcase_abs _)); lra.
Qed.

Lemma Rltb_spec (x y : R) : Rltb x y = true <-> (x < y)%R.
Proof.
  unfold Rltb. destruct (Rlt_dec x y); split; intros; auto; discriminate.
Qed.

Lemma Rltb_false (x y : R) : (y <= x)%R -> Rltb x y = false.
Proof. intros Hle. unfold Rltb. destruct (Rlt_dec x y); [lra|reflexivity]. Qed.

Lemma Rltb_true (x y : R) : (x < y)%R -> Rltb x y = true.
Proof. intros Hlt. unfold Rltb. destruct (Rlt_dec x y); [reflexivity|lra]. Qed.

Section StepProperties.
Context (K : Constants) (C : Collaborators).

(** X7: a call of [step] that returns leaves the terrain attributes, the
    vehicle handles, the draw list, the mode and the wind configuration as
    they were, takes exactly two draws from the generator whatever the
    action, and returns eight numbers. *)
Theorem step_keeps_the_episode (self : Env) (action : Action)
    (r : StepResult) (self' : Env) :
  step K C self action = Ok (r, self') ->
  untouched self self'
  /\ np_random self'
     = mkGenerator (source (np_random self))
         (S (S (cursor (np_random self))))
  /\ length (observation r) = 8%nat
  /\ truncated r = false.
Proof.
  unfold step. intros Hstep.
  destruct (step_locals K C self action) as [t|] eqn:Ht; [|discriminate Hstep].
  cbn [bind] in Hstep. injection Hstep as <- <-.
  destruct (step_locals_inv K C self action t Ht)
    as (l & a' & b & leg0 & leg1 & _ & _ & Hun & Hg & _ & _ & _ & _ & _ & _
        & Hstate & _).
  split; [exact Hun|]. split; [exact Hg|].
  cbn [observation truncated]. rewrite Hstate. split; reflexivity.
Qed.

(** X8: the throttle mapping.  In discrete mode action 2 gives main power 1,
    actions 1 and 3 give side power 1, and the two engines never fire in the
    same step.  In continuous mode the main engine is off for
    [action[0] <= 0] and otherwise has power [(min(action[0], 1) + 1) / 2],
    in (0.5, 1]; the side engines are off for [|action[1]| <= 0.5] and
    otherwise have power [min(|action[1]|, 1)], in (0.5, 1].  The fuel
    charge [0.30 * m_power + 0.03 * s_power] is between 0 and 0.33. *)
Theorem engine_powers (self : Env) (action : Action) (t : StepLocals) :
  step_locals K C self action = Ok t ->
  match action with
  | DiscreteAction a =>
      continuous self = false /\ 0 <= a < 4
      /\ l_m_power t = (if a =? 2 then 1.0 else 0.0)%R
      /\ l_s_power t = (if (a =? 1) || (a =? 3) then 1.0 else 0.0)%R
      /\ (l_m_power t = 0.0%R \/ l_s_power t = 0.0%R)
  | ContinuousAction a0 a1 =>
      continuous self = true
      /\ ((a0 <= 0)%R -> l_m_power t = 0.0%R)
      /\ ((0 < a0)%R ->
          l_m_power t = ((Rmin a0 1 + 1.0) * 0.5)%R
          /\ (0.5 < l_m_power t <= 1)%R)
      /\ ((Rabs a1 <= 0.5)%R -> l_s_power t = 0.0%R)
      /\ ((0.5 < Rabs a1)%R ->
          l_s_power t = Rmin (Rabs a1) 1
          /\ (0.5 < l_s_power t <= 1)%R)
  end
  /\ (0 <= 0.30 * l_m_power t + 0.03 * l_s_power t <= 0.33)%R.
Proof.
  intros Ht.
  destruct (step_locals_inv K C self action t Ht)
    as (l & a' & b & leg0 & leg1 & _ & Hcheck & _ & _ & _ & Hpow & _).
  unfold check_action in Hcheck.
  destruct (continuous self) eqn:Ec.
  - injection Hcheck as <-.
    destruct action as [a0 a1|a]; cbn [clip_action] in Hpow.
    2:{ destruct Hpow as [Hfalse _]. discriminate Hfalse. }
    destruct Hpow as [Hm Hs]. cbn [andb] in Hm, Hs.
    rewrite Rabs_clip in Hs.
    assert (Hm0 : (a0 <= 0)%R -> l_m_power t = 0.0%R).
    { intros Hle. rewrite Hm, Rltb_false; [reflexivity|].
      unfold clip, Rmin, Rmax. repeat (destruct (Rle_dec _ _)); lra. }
    assert (Hm1 : (0 < a0)%R ->
              l_m_power t = ((Rmin a0 1 + 1.0) * 0.5)%R
              /\ (0.5 < l_m_power t <= 1)%R).
    { intros Hlt. rewrite Hm, Rltb_true.
      - assert (Heq : clip (clip a0 (-1) 1) 0.0 1.0 = Rmin a0 1).
        { unfold clip, Rmin, Rmax. repeat (destruct (Rle_dec _ _)); lra. }
        rewrite Heq. split; [reflexivity|].
        unfold Rmin. destruct (Rle_dec a0 1); lra.
      - unfold clip, Rmin, Rmax. repeat (destruct (Rle_dec _ _)); lra. }
    assert (Hs0 : (Rabs a1 <= 0.5)%R -> l_s_power t = 0.0%R).
    { intros Hle. rewrite Hs, Rltb_false; [reflexivity|].
      unfold Rmin. destruct (Rle_dec _ _); lra. }
    assert (Hs1 : (0.5 < Rabs a1)%R ->
              l_s_power t = Rmin (Rabs a1) 1
              /\ (0.5 < l_s_power t <= 1)%R).
    { intros Hlt. rewrite Hs, Rltb_true.
      - assert (Heq : clip (Rmin (Rabs a1) 1) 0.5 1.0 = Rmin (Rabs a1) 1).
        { unfold clip, Rmin, Rmax. repeat (destruct (Rle_dec _ _)); lra. }
        rewrite Heq. split; [reflexivity|].
        unfold Rmin. destruct (Rle_dec _ _); lra.
      - unfold Rmin. destruct (Rle_dec _ _); lra. }
    split.
    { split; [reflexivity|]. split; [exact Hm0|]. split; [exact Hm1|].
      split; [exact Hs0|exact Hs1]. }
    destruct (Rle_lt_dec a0 0) as [A|A];
      destruct (Rle_lt_dec (Rabs a1) 0.5) as [B|B];
      try rewrite (Hm0 A); try rewrite (Hs0 B);
      try (destruct (Hm1 A) as [_ Hmr]); try (destruct (Hs1 B) as [_ Hsr]);
      lra.
  - destruct (assert (action_space_contains action)) as [[]|] eqn:Eas;
      [|discriminate Hcheck].
    cbn [bind] in Hcheck. injection Hcheck as <-.
    destruct action as [a0 a1|a]; [discriminate Eas|].
    destruct Hpow as (_ & Hm & Hs).
    unfold assert in Eas. cbn [action_space_contains] in Eas.
    destruct ((0 <=? a) && (a <? 4)) eqn:Ein; [|discriminate Eas].
    assert (Ha : 0 <= a < 4) by lia.
    split.
    + split; [reflexivity|]. split; [exact Ha|].
      split; [exact Hm|]. split; [exact Hs|].
      rewrite Hm, Hs.
      destruct (a =? 2) eqn:E2; [right|left; reflexivity].
      destruct (a =? 1) eqn:E1; [lia|]. destruct (a =? 3) eqn:E3; [lia|].
      reflexivity.
    + rewrite Hm, Hs. destruct (a =? 2), ((a =? 1) || (a =? 3)); lra.
Qed.

(** X9: in discrete mode an action outside [{0, 1, 2, 3}], or an array, is
    refused with [AssertionError] on an environment that has been reset. *)
Theorem step_rejects_invalid_action (self : Env) (action : Action) :
  step_ready self -> continuous self = false ->
  action_space_contains action = false ->
  step K C self action = Raise AssertionError.
Proof.
  intros ((l & Hl & _) & Hlegs) Hc Hbad.
  unfold step, step_locals. rewrite Hl. cbn [bind].
  destruct (apply_wind_ok l self Hlegs) as (e1 & Hw & Hcar & _).
  rewrite Hw. cbn [bind].
  destruct Hcar as (_ & _ & _ & _ & Hc1 & _).
  unfold check_action. rewrite Hc1, Hc, Hbad. reflexivity.
Qed.

(** X10: in continuous mode [step] sees only the clipped action: a call
    with an action outside [[-1, 1]] behaves exactly as the call with the
    action clipped to that range. *)
Theorem step_clips_action (self : Env) (action : Action) :
  continuous self = true ->
  step K C self action = step K C self (clip_action action).
Proof.
  intros Hc. unfold step, step_locals.
  destruct (lander self) as [l|]; [|reflexivity]. cbn [bind].
  destruct (apply_wind l self) as [e1|] eqn:Ew; [|reflexivity].
  cbn [bind].
  apply apply_wind_inv in Ew
    as ((_ & _ & _ & _ & _ & _ & _ & _ & Hc1 & _) & _).
  unfold check_action. rewrite Hc1, Hc, clip_action_idempotent.
  reflexivity.
Qed.

End StepProperties.

Section StepObservation.
Context (K : Constants) (C : Collaborators).

(** X11: with an awake lander the step terminates exactly when the game-over
    flag is set or the lander's horizontal position has left the open
    interval [(0, W)], [W] being the viewport width in simulation units;
    with a sleeping lander it always terminates. *)
Theorem lateral_bounds (self : Env) (action : Action) (t : StepLocals) :
  (0 < VIEWPORT_W K)%R -> (0 < SCALE K)%R ->
  step_locals K C self action = Ok t ->
  exists l b,
    lander self = Some l
    /\ bodies (world (l_self t)) !! l = Some b
    /\ (awake b = true ->
        (l_terminated t = true <->
         l_game_over t = true
         \/ (fst (position b) <= 0)%R
         \/ (VIEWPORT_W K / SCALE K <= fst (position b))%R))
    /\ (awake b = false -> l_terminated t = true).
Proof.
  intros HW HS Ht.
  destruct (step_locals_inv K C self action t Ht)
    as (l & a' & b & leg0 & leg1 & Hl & _ & _ & _ & _ & _ & Hb & _ & _ & Haw
        & Hstate & _).
  destruct (step_locals_tail K C self action t Ht)
    as (_ & _ & _ & _ & s0 & s1 & s2 & s3 & s4 & s5 & s6 & s7 & Hstate'
        & _ & Hterm & _).
  rewrite Hstate in Hstate'. injection Hstate' as <- _ _ _ _ _ _ _.
  exists l, b. split; [exact Hl|]. split; [exact Hb|].
  rewrite Hterm, Haw.
  pose proof (W_pos K HW HS) as HWpos. unfold W in HWpos.
  set (x := fst (position b)) in *.
  set (c := (VIEWPORT_W K / SCALE K / 2)%R) in *.
  assert (Hc : (0 < c)%R) by (unfold c; lra).
  assert (Hout : (1.0 <= Rabs ((x - c) / c))%R <->
                 (x <= 0)%R \/ (VIEWPORT_W K / SCALE K <= x)%R).
  { replace ((x - c) / c)%R with (x / c - 1)%R by (field; lra).
    assert (Hx : (x = c * (x / c))%R) by (field; lra).
    assert (Hw2 : (VIEWPORT_W K / SCALE K = 2 * c)%R) by (unfold c; lra).
    rewrite Hw2. set (q := (x / c)%R) in *.
    unfold Rabs. destruct (Rcase_abs (q - 1)); split.
    - intros Hge. left. nra.
    - intros [Hle|Hge]; nra.
    - intros Hge. right. nra.
    - intros [Hle|Hge]; nra. }
  split.
  - intros ->. cbn [negb orb]. split.
    + intros Hor. apply orb_true_iff in Hor as [Hgo|Hs0].
      * left. exact Hgo.
      * right. apply Hout. apply Rleb_spec. exact Hs0.
    + intros [Hgo|Hx]; apply orb_true_iff.
      * left. exact Hgo.
      * right. apply Rleb_spec, Hout. exact Hx.
  - intros ->. reflexivity.
Qed.

(** X12: reading the observation back.  Entry 0 determines the lander's
    horizontal position, [x = (W/2) * (1 + state[0])], and entry 1 its
    height above the landing level [helipad_y + LEG_DOWN/SCALE]; entry 4 is
    the body angle; entries 6 and 7 are exactly [1.0] or [0.0], and they are
    [1.0] exactly when the flag of leg 0, respectively leg 1, is set in the
    environment the step leaves. *)
Theorem observation_decodes (self : Env) (action : Action)
    (r : StepResult) (self' : Env) :
  (0 < VIEWPORT_W K)%R -> (0 < VIEWPORT_H K)%R -> (0 < SCALE K)%R ->
  step K C self action = Ok (r, self') ->
  exists l b leg0 leg1 s0 s1 s2 s3 s4 s5 s6 s7,
    lander self = Some l
    /\ bodies (world self') !! l = Some b
    /\ legs self' !! 0%nat = Some leg0
    /\ legs self' !! 1%nat = Some leg1
    /\ observation r = [s0; s1; s2; s3; s4; s5; s6; s7]
    /\ fst (position b) = (VIEWPORT_W K / SCALE K / 2 * (1 + s0))%R
    /\ snd (position b)
       = (helipad_y self' + LEG_DOWN K / SCALE K
          + VIEWPORT_H K / SCALE K / 2 * s1)%R
    /\ s4 = angle b
    /\ (s6 = 1.0%R /\ ground_contact leg0 = true
        \/ s6 = 0.0%R /\ ground_contact leg0 = false)
    /\ (s7 = 1.0%R /\ ground_contact leg1 = true
        \/ s7 = 0.0%R /\ ground_contact leg1 = false).
Proof.
  intros HW HH HS. unfold step. intros Hstep.
  destruct (step_locals K C self action) as [t|] eqn:Ht; [|discriminate Hstep].
  cbn [bind] in Hstep. injection Hstep as <- <-.
  destruct (step_locals_inv K C self action t Ht)
    as (l & a' & b & leg0 & leg1 & Hl & _ & Hun & _ & _ & _ & Hb & G0 & G1
        & _ & Hstate & _).
  destruct Hun as (_ & _ & _ & _ & Hy & _).
  do 4 eexists. do 8 eexists.
  split; [exact Hl|]. split; [exact Hb|]. split; [exact G0|].
  split; [exact G1|]. cbn [observation].
  split; [exact Hstate|].
  split; [field; split; lra|].
  split; [rewrite Hy; field; split; lra|].
  split; [reflexivity|].
  split.
  - destruct (ground_contact leg0); [left|right]; split; reflexivity.
  - destruct (ground_contact leg1); [left|right]; split; reflexivity.
Qed.

End StepObservation.

Lemma tanh_bounded (x : R) : (Rabs (tanh x) < 1)%R.
Proof.
  pose proof (exp_pos x) as Hp. pose proof (exp_pos (- x)) as Hq.
  set (p := exp x) in *. set (q := exp (- x)) in *.
  assert (Hy : (tanh x * (p + q) = p - q)%R).
  { unfold tanh, sinh, cosh. fold p q. field. lra. }
  set (y := tanh x) in *.
  apply Rabs_def1.
  - destruct (Rlt_le_dec y 1) as [Hlt|Hge]; [exact Hlt|exfalso].
    assert ((y - 1) * (p + q) >= 0)%R by nra. nra.
  - destruct (Rlt_le_dec (-1) y) as [Hlt|Hge]; [exact Hlt|exfalso].
    assert ((- 1 - y) * (p + q) >= 0)%R by nra. nra.
Qed.

Lemma tanh_scaled (a b : R) : (Rabs (tanh a * b) <= Rabs b)%R.
Proof.
  rewrite Rabs_mult. pose proof (tanh_bounded a). pose proof (Rabs_pos b).
  nra.
Qed.

Section Wind.

(** X13: wind.  Nothing happens when wind is disabled or when one of the two
    legs touches the ground: the environment, counters included, is left as
    it is.  Otherwise one force along the horizontal axis and one torque are
    applied to the lander, of magnitude below [|wind_power|] and
    [|turbulence_power|], both counters advance by one, and nothing else
    changes. *)
Theorem wind_only_in_flight (l : BodyId) (self : Env) (leg0 leg1 : Leg) :
  legs self !! 0%nat = Some leg0 -> legs self !! 1%nat = Some leg1 ->
  exists e',
    apply_wind l self = Ok e'
    /\ (enable_wind self = false \/ ground_contact leg0 = true
        \/ ground_contact leg1 = true -> e' = self)
    /\ (enable_wind self = true -> ground_contact leg0 = false ->
        ground_contact leg1 = false ->
        exists wind_mag torque_mag,
          (Rabs wind_mag <= Rabs (wind_power self))%R
          /\ (Rabs torque_mag <= Rabs (turbulence_power self))%R
          /\ world e'
             = ApplyTorque
                 (ApplyForceToCenter (world self) l (wind_mag, 0.0)%R true)
                 l torque_mag true
          /\ wind_idx e' = wind_idx self + 1
          /\ torque_idx e' = torque_idx self + 1
          /\ untouched self e'
          /\ np_random e' = np_random self
          /\ legs e' = legs self
          /\ game_over e' = game_over self
          /\ prev_shaping e' = prev_shaping self).
Proof.
  intros G0 G1.
  assert (H0 : getitem (legs self) 0 = Ok leg0)
    by (apply getitem_lookup; [lia|exact G0]).
  assert (H1 : getitem (legs self) 1 = Ok leg1)
    by (apply getitem_lookup; [lia|exact G1]).
  unfold apply_wind. rewrite H0, H1.
  destruct (enable_wind self) eqn:Ew; cbn [bind].
  - destruct (ground_contact leg0) eqn:Ec0; cbn [bind].
    + exists self. split; [reflexivity|]. split; [reflexivity|].
      intros _ Hf. discriminate Hf.
    + destruct (ground_contact leg1) eqn:Ec1.
      * exists self. split; [reflexivity|]. split; [reflexivity|].
        intros _ _ Hf. discriminate Hf.
      * eexists. split; [reflexivity|]. split.
        { intros [Hf|[Hf|Hf]]; discriminate Hf. }
        intros _ _ _.
        exists (tanh (sin (0.02 * IZR (wind_idx self))
                      + sin (PI * 0.01 * IZR (wind_idx self)))
                * wind_power self)%R,
          (tanh (sin (0.02 * IZR (torque_idx self))
                 + sin (PI * 0.01 * IZR (torque_idx self)))
           * turbulence_power self)%R.
        split; [apply tanh_scaled|]. split; [apply tanh_scaled|].
        split; [reflexivity|]. split; [reflexivity|]. split; [reflexivity|].
        split; [|repeat split; reflexivity].
        -- unfold untouched. cbn. repeat split; reflexivity.
  - exists self. split; [reflexivity|]. split; [reflexivity|].
    intros Hf. discriminate Hf.
Qed.

End Wind.

(** * Further properties of reset *)

Section ResetProperties.
Context (K : Constants) (C : Collaborators).

(** The state of the environment when [reset] reaches its closing step. *)
Lemma reset_episode_state (self : Env) (seed : option Z) (d : Env) :
  super_reset C self seed = Ok d ->
  exists ep m,
    reset_episode K C self seed = Ok ep
    /\ m = next_body (world (_destroy C d))
    /\ game_over ep = false
    /\ prev_shaping ep = None
    /\ contactListener (world ep) = true
    /\ moon ep = Some m
    /\ lander ep = Some (S m)
    /\ map leg_body (legs ep) = [S (S m); S (S (S m))]
    /\ drawlist ep = [S m; S (S m); S (S (S m))]
    /\ next_body (world ep) = S (S (S (S m)))
    /\ (forall id, (id < m)%nat ->
          bodies (world ep) !! id = bodies (world (_destroy C d)) !! id)
    /\ np_random ep
       = mkGenerator (source (np_random (_destroy C d)))
           (cursor (np_random (_destroy C d)) + 95)
    /\ helipad_x1 ep = (W K / 89 * 38)%R
    /\ helipad_x2 ep = (W K / 89 * 52)%R
    /\ continuous ep = continuous (_destroy C d)
    /\ step_ready ep.
Proof.
  intros Hd. unfold reset_episode. rewrite Hd. cbn [bind].
  set (d0 := set_prev_shaping None
               (set_game_over false
                  (set_world
                     (set_contactListener (world (_destroy C d)) true)
                     (_destroy C d)))).
  destruct (terrain_nodes_ok K 90 false (np_random d0) ltac:(lia))
    as (t0 & Ht0 & _ & _ & _ & _ & Hw & Hx1 & Hx2 & _ & _ & _ & _ & Hg0).
  destruct (gen_uav_terrain_ok K 90 false d0 ltac:(lia))
    as (t & e1 & bm & edges & Ht & Hrun1 & Hg1 & _ & Hh1 & Hh2 & Hmoon
        & Hnext1 & _ & Hcl1 & Hother1 & _ & _ & _ & _ & _ & _ & _ & Hgo1
        & Hps1 & Hc1).
  assert (t0 = t) by congruence. subst t0.
  rewrite Hrun1. cbn [bind].
  destruct (gen_uav_lander_ok K e1)
    as (e2 & Hrun2 & Hl & Hlegs & _ & Hb & Hnext2 & Hcl2 & Hg2 & Hmoon2 & _
        & Hx1' & Hx2' & Hgo2 & Hps2 & Hc2).
  rewrite Hrun2. cbn [bind].
  eexists _, (next_body (world (_destroy C d))).
  split; [reflexivity|]. split; [reflexivity|].
  cbn [set_drawlist game_over prev_shaping world moon lander legs drawlist
       np_random helipad_x1 helipad_x2 continuous].
  replace (next_body (world e1))
    with (S (next_body (world (_destroy C d)))) in * by (rewrite Hnext1; reflexivity).
  split; [rewrite Hgo2, Hgo1; reflexivity|].
  split; [rewrite Hps2, Hps1; reflexivity|].
  split; [rewrite Hcl2, Hcl1; reflexivity|].
  split; [rewrite Hmoon2, Hmoon; reflexivity|].
  split; [exact Hl|].
  split; [rewrite Hlegs; reflexivity|].
  split; [rewrite Hl, Hlegs; reflexivity|].
  split; [exact Hnext2|].
  split.
  { intros id Hid. rewrite Hb.
    rewrite !lookup_insert_ne by lia. rewrite lookup_alter_ne by lia.
    rewrite lookup_insert_ne by lia.
    rewrite Hother1 by (cbn; lia). reflexivity. }
  split.
  { rewrite Hg2, Hg1, Hg0. cbn [source cursor]. f_equal.
    change (Z.to_nat (90 + 1)) with 91%nat. cbn [d0 set_prev_shaping
      set_game_over set_world np_random]. lia. }
  split.
  { rewrite Hx1', Hh1, Hx1, Hw. reflexivity. }
  split.
  { rewrite Hx2', Hh2, Hx2, Hw. reflexivity. }
  split; [rewrite Hc2, Hc1; reflexivity|].
  split.
  - exists (S (next_body (world (_destroy C d)))). split; [exact Hl|].
    cbn. rewrite Hb. rewrite !lookup_insert_ne by lia.
    rewrite lookup_alter_eq, lookup_insert_eq. simpl. eauto.
  - cbn. rewrite Hlegs. simpl. lia.
Qed.

(** X14: what [reset] has built when it reaches its closing step, on top of
    whatever the inherited reset and destroy left.  The game-over flag and
    the shaping history are cleared and the contact listener is installed;
    the ground, the lander and the two legs are the next four bodies of the
    world, the draw list is the lander followed by the legs, and no earlier
    body is touched; 95 draws have been taken (91 heights, the elevation,
    the angle and the two force components); and the platform spans the
    nodes 38 to 52 of 90, that is [x] from [38 W / 89] to [52 W / 89]. *)
Theorem reset_builds_the_episode (self : Env) (seed : option Z) (d : Env) :
  super_reset C self seed = Ok d ->
  exists ep m,
    reset_episode K C self seed = Ok ep
    /\ m = next_body (world (_destroy C d))
    /\ game_over ep = false
    /\ prev_shaping ep = None
    /\ contactListener (world ep) = true
    /\ moon ep = Some m
    /\ lander ep = Some (S m)
    /\ map leg_body (legs ep) = [S (S m); S (S (S m))]
    /\ drawlist ep = [S m; S (S m); S (S (S m))]
    /\ next_body (world ep) = S (S (S (S m)))
    /\ (forall id, (id < m)%nat ->
          bodies (world ep) !! id = bodies (world (_destroy C d)) !! id)
    /\ np_random ep
       = mkGenerator (source (np_random (_destroy C d)))
           (cursor (np_random (_destroy C d)) + 95)
    /\ helipad_x1 ep = (W K / 89 * 38)%R
    /\ helipad_x2 ep = (W K / 89 * 52)%R
    /\ continuous ep = continuous (_destroy C d).
Proof.
  intros Hd.
  destruct (reset_episode_state self seed d Hd)
    as (ep & m & H1 & H2 & H3 & H4 & H5 & H6 & H7 & H8 & H9 & H10 & H11
        & H12 & H13 & H14 & H15 & _).
  exists ep, m. repeat split; assumption.
Qed.

(** X15: when [reset] returns, the shaping history is not empty: it holds
    the shaping of the observation just returned, because [reset] ends with
    a step.  That step fires no engine and the whole reset takes 97 draws
    after the inherited calls. *)
Theorem reset_leaves_a_history (self : Env) (seed : option Z) (d : Env) :
  keeps_bodies C ->
  super_reset C self seed = Ok d ->
  exists ep t obs self' s0 s1 s2 s3 s4 s5 s6 s7,
    reset_episode K C self seed = Ok ep
    /\ step_locals K C ep (zero_action ep) = Ok t
    /\ reset K C self seed = Ok (obs, self')
    /\ obs = [s0; s1; s2; s3; s4; s5; s6; s7]
    /\ prev_shaping self' = Some (shaping_of s0 s1 s2 s3 s4 s6 s7)
    /\ l_m_power t = 0.0%R
    /\ l_s_power t = 0.0%R
    /\ np_random self'
       = mkGenerator (source (np_random (_destroy C d)))
           (cursor (np_random (_destroy C d)) + 97).
Proof.
  intros HK Hd.
  destruct (reset_episode_state self seed d Hd)
    as (ep & m & Hep & _ & _ & _ & _ & _ & _ & _ & _ & _ & _ & Hgen & _ & _
        & _ & Hready).
  destruct (step_locals_ok K C ep (zero_action ep) HK Hready
              (zero_action_valid ep)) as (t & Ht & _).
  destruct (step_locals_tail K C ep (zero_action ep) t Ht)
    as (Hstep & Hstore & _ & _ & s0 & s1 & s2 & s3 & s4 & s5 & s6 & s7
        & Hstate & Hshape & _).
  destruct (step_locals_inv K C ep (zero_action ep) t Ht)
    as (l & a' & b & leg0 & leg1 & _ & Hcheck & _ & Hg & _ & Hpow & _).
  exists ep, t, (l_state t), (l_self t), s0, s1, s2, s3, s4, s5, s6, s7.
  split; [exact Hep|]. split; [exact Ht|].
  split.
  { unfold reset. rewrite Hep. cbn [bind]. rewrite Hstep. reflexivity. }
  split; [exact Hstate|].
  split; [rewrite Hstore, Hshape; reflexivity|].
  assert (Hzero : l_m_power t = 0.0%R /\ l_s_power t = 0.0%R).
  { unfold check_action, zero_action in Hcheck.
    destruct (continuous ep) eqn:Ec.
    - injection Hcheck as <-. cbn [clip_action andb] in Hpow.
      destruct Hpow as [Hm Hs].
      assert (Hclip : clip 0 (-1) 1 = 0%R).
      { unfold clip, Rmin, Rmax. repeat (destruct (Rle_dec _ _)); lra. }
      rewrite Hclip in Hm, Hs.
      rewrite Rltb_false in Hm by lra.
      rewrite Rltb_false in Hs by (rewrite Rabs_R0; lra).
      split; assumption.
    - cbn in Hcheck. injection Hcheck as <-.
      destruct Hpow as (_ & Hm & Hs). split; assumption. }
  split; [apply Hzero|]. split; [apply Hzero|].
  rewrite Hg, Hgen. cbn [source cursor]. f_equal. lia.
Qed.

End ResetProperties.

(** * Frame and invariant properties *)

Section MoreProperties.
Context (K : Constants) (C : Collaborators).

(** X16: terrain generation changes only the generator, the ground body, the
    sky polygons and the three platform attributes.  It takes [N + 2] draws
    for a flat platform and [N + 3] for a tilted one, adds one body under
    the next free handle, and leaves every other body, the joints, the
    listener, the vehicle handles, the episode flags and the mode alone. *)
Theorem terrain_touches_only_the_ground (N : Z) (flat : bool) (self : Env) :
  3 <= N ->
  exists self',
    _gen_uav_terrain K N flat self = Ok self'
    /\ np_random self'
       = mkGenerator (source (np_random self))
           (cursor (np_random self) + Z.to_nat N + 2
            + (if flat then 0 else 1))
    /\ moon self' = Some (next_body (world self))
    /\ next_body (world self') = S (next_body (world self))
    /\ (forall id, id <> next_body (world self) ->
          bodies (world self') !! id = bodies (world self) !! id)
    /\ joints (world self') = joints (world self)
    /\ contactListener (world self') = contactListener (world self)
    /\ lander self' = lander self
    /\ legs self' = legs self
    /\ game_over self' = game_over self
    /\ prev_shaping self' = prev_shaping self
    /\ continuous self' = continuous self.
Proof.
  intros HN.
  destruct (terrain_nodes_ok K N flat (np_random self) HN)
    as (t0 & Ht0 & _ & _ & _ & _ & _ & _ & _ & _ & _ & _ & _ & Hg0).
  destruct (gen_uav_terrain_ok K N flat self HN)
    as (t & self' & b & edges & Ht & Hrun & Hg & _ & _ & _ & Hmoon & Hnext
        & Hj & Hcl & Hother & _ & _ & _ & _ & _ & Hl & Hlegs & Hgo & Hps
        & Hc).
  assert (t0 = t) by congruence. subst t0.
  exists self'. split; [exact Hrun|].
  split.
  { rewrite Hg, Hg0. f_equal. destruct flat; lia. }
  repeat split; assumption.
Qed.

(** X17: the shaping value is at most ten times the number of legs on the
    ground, hence never above 20, and never above 0 in flight. *)
Theorem shaping_is_bounded (self : Env) (action : Action) (t : StepLocals) :
  step_locals K C self action = Ok t ->
  exists leg0 leg1,
    legs (l_self t) !! 0%nat = Some leg0
    /\ legs (l_self t) !! 1%nat = Some leg1
    /\ (l_shaping t
        <= 10 * b2R (ground_contact leg0) + 10 * b2R (ground_contact leg1))%R
    /\ (l_shaping t <= 20)%R
    /\ (ground_contact leg0 = false -> ground_contact leg1 = false ->
        (l_shaping t <= 0)%R).
Proof.
  intros Ht.
  destruct (step_locals_inv K C self action t Ht)
    as (l & a' & b & leg0 & leg1 & _ & _ & _ & _ & _ & _ & _ & G0 & G1 & _
        & Hstate & _).
  destruct (step_locals_tail K C self action t Ht)
    as (_ & _ & _ & _ & s0 & s1 & s2 & s3 & s4 & s5 & s6 & s7 & Hstate'
        & Hshape & _).
  rewrite Hstate in Hstate'.
  injection Hstate' as <- <- <- <- <- <- <- <-.
  exists leg0, leg1. split; [exact G0|]. split; [exact G1|].
  rewrite Hshape. unfold shaping_of.
  match goal with
  | |- context [sqrt ?u] =>
      match goal with
      | |- context [(- 100 * sqrt u - 100 * sqrt ?v)%R] =>
          pose proof (sqrt_pos u) as Hu; pose proof (sqrt_pos v) as Hv
      end
  end.
  pose proof (Rabs_pos (angle b)) as Ha.
  split; [lra|].
  split.
  - destruct (ground_contact leg0), (ground_contact leg1); simpl; lra.
  - intros -> ->. simpl. lra.
Qed.

End MoreProperties.

Section StepRepeats.
Context (K : Constants) (C : Collaborators).

(** X18: readiness is an invariant of [step].  On an environment that has
    been reset a valid action always returns (the solver and the engine
    calls keeping the bodies), and the environment it leaves is again ready
    and accepts exactly the same actions, so that [step] can be called any
    number of times. *)
Theorem step_can_be_repeated (self : Env) (action : Action) :
  keeps_bodies C -> step_ready self -> valid_action self action ->
  exists r self',
    step K C self action = Ok (r, self')
    /\ step_ready self'
    /\ (forall a, valid_action self' a <-> valid_action self a).
Proof.
  intros HK Hready Hv.
  destruct (step_locals_ok K C self action HK Hready Hv) as (t & Ht & _).
  destruct (step_locals_tail K C self action t Ht) as (Hstep & _).
  destruct (step_locals_inv K C self action t Ht)
    as (l & a' & b & leg0 & leg1 & Hl & _ & Hun & _ & _ & _ & Hb & _).
  destruct Hun as (_ & _ & _ & _ & _ & Hl' & Hlegs & _ & Hc & _).
  destruct Hready as (_ & Hlen).
  eexists _, (l_self t). split; [exact Hstep|].
  split.
  - split.
    + exists l. split; [rewrite Hl'; exact Hl|]. rewrite Hb. eauto.
    + rewrite <- (length_map leg_body), Hlegs, length_map. exact Hlen.
  - intros a. unfold valid_action. rewrite Hc. reflexivity.
Qed.

End StepRepeats.

(** * Instances of the further properties

    Each property above is applied to the sample inputs: the standard
    constants, the sample generator and the sample collaborators. *)

(** The first step of the sample episode returns. *)
Lemma sample_step :
  exists ep t,
    reset_episode gymnasium_constants idle_collaborators (blank_env false)
      (Some 42) = Ok ep
    /\ step_ready ep
    /\ continuous ep = false
    /\ step_locals gymnasium_constants idle_collaborators ep
         (DiscreteAction 2) = Ok t
    /\ step gymnasium_constants idle_collaborators ep (DiscreteAction 2)
       = Ok (mkStepResult (l_state t) (l_reward t) (l_terminated t) false,
             l_self t).
Proof.
  destruct sample_reset_ready as (ep & Hep & Hready & Hc & _).
  assert (Hv : valid_action ep (DiscreteAction 2))
    by (simpl; split; [exact Hc|lia]).
  destruct (step_locals_ok gymnasium_constants idle_collaborators ep
              (DiscreteAction 2) idle_collaborators_keep_bodies Hready Hv)
    as (t & Ht & _).
  destruct (step_locals_tail gymnasium_constants idle_collaborators ep
              (DiscreteAction 2) t Ht) as (Hstep & _).
  exists ep, t. repeat (split; [assumption|]). exact Hstep.
Qed.

Lemma terrain_error_kinds_witness :
  1 <= 2
  /\ _gen_uav_terrain gymnasium_constants 1 false (blank_env false)
     = Raise ZeroDivisionError.
Proof.
  assert (H1 : 1 <= 2) by lia.
  split; [exact H1|].
  exact (terrain_error_kinds gymnasium_constants 1 false (blank_env false)
           H1).
Defined.

Lemma terrain_outside_platform_witness :
  3 <= 90
  /\ (0 <= VIEWPORT_H gymnasium_constants)%R
  /\ (0 < SCALE gymnasium_constants)%R
  /\ unit_draws sample_generator
  /\ exists t y,
       terrain_nodes gymnasium_constants 90 false sample_generator = Ok t
       /\ t_smooth_y t !! 0%nat = Some y
       /\ (0 <= y < t_helipad_y t)%R.
Proof.
  assert (H1 : 3 <= 90) by lia.
  assert (H2 : (0 <= VIEWPORT_H gymnasium_constants)%R) by (simpl; lra).
  assert (H2' : (0 < VIEWPORT_H gymnasium_constants)%R) by (simpl; lra).
  assert (H3 : (0 < SCALE gymnasium_constants)%R) by (simpl; lra).
  destruct (terrain_outside_platform gymnasium_constants 90 false
              sample_generator H1 H2 H3 sample_generator_unit_draws)
    as (t & Ht & Hout).
  destruct (terrain_nodes_ok gymnasium_constants 90 false sample_generator
              H1) as (t' & Ht' & _ & _ & _ & _ & Hw & _).
  assert (t' = t) by congruence. subst t'.
  split; [exact H1|]. split; [exact H2|]. split; [exact H3|].
  split; [exact sample_generator_unit_draws|].
  destruct (Hout 0%nat) as (a & b & c & _ & _ & _ & Hy & Hr & Hlt).
  - change (Z.to_nat 90) with 90%nat. lia.
  - change (Z.to_nat (90 / 2)) with 45%nat. lia.
  - left. rewrite Hw. vm_compute. reflexivity.
  - exists t, (0.33 * (a + b + c))%R. split; [exact Ht|].
    split; [exact Hy|]. split; [apply Hr|exact (Hlt H2')].
Defined.

Lemma platform_bounds_witness :
  3 <= 90
  /\ (0 < VIEWPORT_W gymnasium_constants)%R
  /\ (0 < SCALE gymnasium_constants)%R
  /\ exists self',
       _gen_uav_terrain gymnasium_constants 90 false (blank_env false)
       = Ok self'
       /\ (helipad_x1 self'
           < VIEWPORT_W gymnasium_constants / SCALE gymnasium_constants / 2
           < helipad_x2 self')%R.
Proof.
  assert (H1 : 3 <= 90) by lia.
  assert (H2 : (0 < VIEWPORT_W gymnasium_constants)%R) by (simpl; lra).
  assert (H3 : (0 < SCALE gymnasium_constants)%R) by (simpl; lra).
  destruct (platform_bounds gymnasium_constants 90 false (blank_env false)
              H1 H2 H3) as (self' & Hrun & Hrest).
  cbv zeta in Hrest. destruct Hrest as (_ & _ & Hin & _).
  split; [exact H1|]. split; [exact H2|]. split; [exact H3|].
  exists self'. split; [exact Hrun|].
  apply Hin. vm_compute. discriminate.
Defined.

Lemma platform_tilt_witness :
  1 <= (90 / 6 - 1) / 2
  /\ unit_draws sample_generator
  /\ (0 < VIEWPORT_W gymnasium_constants)%R
  /\ (0 < SCALE gymnasium_constants)%R
  /\ exists t,
       terrain_nodes gymnasium_constants 90 false sample_generator = Ok t
       /\ (Rabs (t_diff_high t)
           <= tan (PI / 6) * (W gymnasium_constants / IZR (90 - 1)))%R.
Proof.
  assert (H1 : 1 <= (90 / 6 - 1) / 2) by (vm_compute; discriminate).
  assert (H2 : (0 < VIEWPORT_W gymnasium_constants)%R) by (simpl; lra).
  assert (H3 : (0 < SCALE gymnasium_constants)%R) by (simpl; lra).
  destruct (platform_tilt gymnasium_constants 90 sample_generator H1
              sample_generator_unit_draws H2 H3) as (t & Ht & _ & Hd & _).
  split; [exact H1|]. split; [exact sample_generator_unit_draws|].
  split; [exact H2|]. split; [exact H3|].
  exists t. split; [exact Ht|exact Hd].
Defined.

Lemma ground_is_a_polyline_witness :
  3 <= 90
  /\ exists self' m b,
       _gen_uav_terrain gymnasium_constants 90 false (blank_env false)
       = Ok self'
       /\ moon self' = Some m
       /\ bodies (world self') !! m = Some b
       /\ body_type b = staticBody
       /\ length (fixtures b) = 90%nat
       /\ length (sky_polys self') = 89%nat.
Proof.
  assert (H1 : 3 <= 90) by lia.
  destruct (ground_is_a_polyline gymnasium_constants 90 false
              (blank_env false) H1)
    as (t & self' & m & b & _ & Hrun & Hm & Hb & Hs & Hf & _ & Hsky & _).
  split; [exact H1|].
  exists self', m, b. split; [exact Hrun|]. split; [exact Hm|].
  split; [exact Hb|]. split; [exact Hs|]. split; [exact Hf|exact Hsky].
Defined.

Lemma lander_spawn_witness :
  unit_draws (np_random (blank_env false))
  /\ (0 <= INITIAL_RANDOM gymnasium_constants)%R
  /\ exists self' b,
       _gen_uav_lander gymnasium_constants (blank_env false) = Ok self'
       /\ lander self' = Some 0%nat
       /\ bodies (world self') !! 0%nat = Some b
       /\ angle b = 0%R
       /\ map leg_body (legs self') = [1%nat; 2%nat].
Proof.
  assert (H1 : (0 <= INITIAL_RANDOM gymnasium_constants)%R) by (simpl; lra).
  destruct (lander_spawn gymnasium_constants (blank_env false)
              sample_generator_unit_draws H1)
    as (self' & l & b & Hrun & Hl & Hfresh & Hb & _ & Ha & _ & _ & _ & _ & _
        & Hlegs & _).
  change (next_body (world (blank_env false))) with 0%nat in Hfresh.
  subst l.
  split; [exact sample_generator_unit_draws|]. split; [exact H1|].
  exists self', b. split; [exact Hrun|]. split; [exact Hl|].
  split; [exact Hb|]. split; [exact Ha|exact Hlegs].
Defined.

Lemma step_keeps_the_episode_witness :
  exists ep r self',
    step gymnasium_constants idle_collaborators ep (DiscreteAction 2)
    = Ok (r, self')
    /\ untouched ep self'
    /\ length (observation r) = 8%nat.
Proof.
  destruct sample_step as (ep & t & _ & _ & _ & _ & Hstep).
  destruct (step_keeps_the_episode gymnasium_constants idle_collaborators ep
              (DiscreteAction 2) _ _ Hstep) as (Hu & _ & Hlen & _).
  eexists ep, _, _. split; [exact Hstep|]. split; [exact Hu|exact Hlen].
Defined.

Lemma engine_powers_witness :
  exists ep t,
    step_locals gymnasium_constants idle_collaborators ep (DiscreteAction 2)
    = Ok t
    /\ l_m_power t = 1.0%R
    /\ l_s_power t = 0.0%R.
Proof.
  destruct sample_step as (ep & t & _ & _ & _ & Ht & _).
  destruct (engine_powers gymnasium_constants idle_collaborators ep
              (DiscreteAction 2) t Ht) as ((_ & _ & Hm & Hs & _) & _).
  exists ep, t. split; [exact Ht|]. split; [exact Hm|exact Hs].
Defined.

Lemma step_rejects_invalid_action_witness :
  exists ep,
    step_ready ep
    /\ continuous ep = false
    /\ action_space_contains (DiscreteAction 7) = false
    /\ step gymnasium_constants idle_collaborators ep (DiscreteAction 7)
       = Raise AssertionError.
Proof.
  destruct sample_reset_ready as (ep & _ & Hready & Hc & _).
  exists ep. split; [exact Hready|]. split; [exact Hc|].
  split; [reflexivity|].
  exact (step_rejects_invalid_action gymnasium_constants idle_collaborators
           ep (DiscreteAction 7) Hready Hc eq_refl).
Defined.

Lemma step_clips_action_witness :
  exists ep,
    step_ready ep
    /\ continuous ep = true
    /\ step gymnasium_constants idle_collaborators ep
         (ContinuousAction 3 (-2))
       = step gymnasium_constants idle_collaborators ep
           (ContinuousAction (clip 3 (-1) 1) (clip (-2) (-1) 1)).
Proof.
  destruct (reset_episode_ok gymnasium_constants idle_collaborators
              (blank_env true) (Some 42)
              (set_np_random sample_generator (blank_env true)) eq_refl)
    as (ep & _ & _ & _ & Hready & Hc).
  change (continuous ep = true) in Hc.
  exists ep. split; [exact Hready|]. split; [exact Hc|].
  exact (step_clips_action gymnasium_constants idle_collaborators ep
           (ContinuousAction 3 (-2)) Hc).
Defined.

Lemma lateral_bounds_witness :
  (0 < VIEWPORT_W gymnasium_constants)%R
  /\ (0 < SCALE gymnasium_constants)%R
  /\ exists ep t l b,
       step_locals gymnasium_constants idle_collaborators ep
         (DiscreteAction 2) = Ok t
       /\ lander ep = Some l
       /\ bodies (world (l_self t)) !! l = Some b
       /\ (awake b = false -> l_terminated t = true).
Proof.
  assert (H2 : (0 < VIEWPORT_W gymnasium_constants)%R) by (simpl; lra).
  assert (H3 : (0 < SCALE gymnasium_constants)%R) by (simpl; lra).
  destruct sample_step as (ep & t & _ & _ & _ & Ht & _).
  destruct (lateral_bounds gymnasium_constants idle_collaborators ep
              (DiscreteAction 2) t H2 H3 Ht) as (l & b & Hl & Hb & _ & Hs).
  split; [exact H2|]. split; [exact H3|].
  exists ep, t, l, b. split; [exact Ht|]. split; [exact Hl|].
  split; [exact Hb|exact Hs].
Defined.

Lemma observation_decodes_witness :
  (0 < VIEWPORT_W gymnasium_constants)%R
  /\ (0 < VIEWPORT_H gymnasium_constants)%R
  /\ (0 < SCALE gymnasium_constants)%R
  /\ exists ep r self' l b s0 rest,
       step gymnasium_constants idle_collaborators ep (DiscreteAction 2)
       = Ok (r, self')
       /\ lander ep = Some l
       /\ bodies (world self') !! l = Some b
       /\ observation r = s0 :: rest
       /\ fst (position b)
          = (VIEWPORT_W gymnasium_constants / SCALE gymnasium_constants / 2
             * (1 + s0))%R.
Proof.
  assert (H1 : (0 < VIEWPORT_W gymnasium_constants)%R) by (simpl; lra).
  assert (H2 : (0 < VIEWPORT_H gymnasium_constants)%R) by (simpl; lra).
  assert (H3 : (0 < SCALE gymnasium_constants)%R) by (simpl; lra).
  destruct sample_step as (ep & t & _ & _ & _ & _ & Hstep).
  destruct (observation_decodes gymnasium_constants idle_collaborators ep
              (DiscreteAction 2) _ _ H1 H2 H3 Hstep)
    as (l & b & leg0 & leg1 & s0 & s1 & s2 & s3 & s4 & s5 & s6 & s7 & Hl
        & Hb & _ & _ & Hobs & Hx & _).
  split; [exact H1|]. split; [exact H2|]. split; [exact H3|].
  eexists ep, _, _, l, b, s0, _. split; [exact Hstep|]. split; [exact Hl|].
  split; [exact Hb|]. split; [exact Hobs|exact Hx].
Defined.

Lemma wind_only_in_flight_witness :
  legs (set_legs [mkLeg 1%nat false None; mkLeg 2%nat true None]
          (blank_env false)) !! 0%nat
  = Some (mkLeg 1%nat false None)
  /\ legs (set_legs [mkLeg 1%nat false None; mkLeg 2%nat true None]
             (blank_env false)) !! 1%nat
     = Some (mkLeg 2%nat true None)
  /\ apply_wind 0%nat
       (set_legs [mkLeg 1%nat false None; mkLeg 2%nat true None]
          (blank_env false))
     = Ok (set_legs [mkLeg 1%nat false None; mkLeg 2%nat true None]
             (blank_env false)).
Proof.
  split; [reflexivity|]. split; [reflexivity|].
  destruct (wind_only_in_flight 0%nat
              (set_legs [mkLeg 1%nat false None; mkLeg 2%nat true None]
                 (blank_env false))
              (mkLeg 1%nat false None) (mkLeg 2%nat true None)
              eq_refl eq_refl) as (e' & Hrun & Hsame & _).
  rewrite Hrun. f_equal. apply Hsame. left. reflexivity.
Defined.

Lemma reset_builds_the_episode_witness :
  super_reset idle_collaborators (blank_env false) (Some 42)
  = Ok (set_np_random sample_generator (blank_env false))
  /\ exists ep,
       reset_episode gymnasium_constants idle_collaborators
         (blank_env false) (Some 42) = Ok ep
       /\ moon ep = Some 0%nat
       /\ lander ep = Some 1%nat
       /\ drawlist ep = [1%nat; 2%nat; 3%nat]
       /\ cursor (np_random ep) = 95%nat.
Proof.
  split; [reflexivity|].
  destruct (reset_builds_the_episode gymnasium_constants idle_collaborators
              (blank_env false) (Some 42)
              (set_np_random sample_generator (blank_env false)) eq_refl)
    as (ep & m & Hep & Hm & _ & _ & _ & Hmoon & Hl & _ & Hd & _ & _ & Hg
        & _).
  change (m = 0%nat) in Hm. subst m.
  exists ep. split; [exact Hep|]. split; [exact Hmoon|]. split; [exact Hl|].
  split; [exact Hd|]. rewrite Hg. reflexivity.
Defined.

Lemma reset_leaves_a_history_witness :
  keeps_bodies idle_collaborators
  /\ super_reset idle_collaborators (blank_env false) (Some 42)
     = Ok (set_np_random sample_generator (blank_env false))
  /\ exists obs self' p,
       reset gymnasium_constants idle_collaborators (blank_env false)
         (Some 42) = Ok (obs, self')
       /\ prev_shaping self' = Some p
       /\ cursor (np_random self') = 97%nat.
Proof.
  split; [exact idle_collaborators_keep_bodies|].
  split; [reflexivity|].
  destruct (reset_leaves_a_history gymnasium_constants idle_collaborators
              (blank_env false) (Some 42)
              (set_np_random sample_generator (blank_env false))
              idle_collaborators_keep_bodies eq_refl)
    as (ep & t & obs & self' & s0 & s1 & s2 & s3 & s4 & s5 & s6 & s7 & _ & _
        & Hreset & _ & Hp & _ & _ & Hg).
  eexists obs, self', _. split; [exact Hreset|]. split; [exact Hp|].
  rewrite Hg. reflexivity.
Defined.

Lemma terrain_touches_only_the_ground_witness :
  3 <= 90
  /\ exists self',
       _gen_uav_terrain gymnasium_constants 90 false (blank_env false)
       = Ok self'
       /\ cursor (np_random self') = 93%nat
       /\ next_body (world self') = 1%nat
       /\ legs self' = [].
Proof.
  assert (H1 : 3 <= 90) by lia.
  destruct (terrain_touches_only_the_ground gymnasium_constants 90 false
              (blank_env false) H1)
    as (self' & Hrun & Hg & _ & Hn & _ & _ & _ & _ & Hlegs & _).
  split; [exact H1|].
  exists self'. split; [exact Hrun|]. split; [rewrite Hg; reflexivity|].
  split; [exact Hn|exact Hlegs].
Defined.

Lemma shaping_is_bounded_witness :
  exists ep t,
    step_locals gymnasium_constants idle_collaborators ep (DiscreteAction 2)
    = Ok t
    /\ (l_shaping t <= 20)%R.
Proof.
  destruct sample_step as (ep & t & _ & _ & _ & Ht & _).
  destruct (shaping_is_bounded gymnasium_constants idle_collaborators ep
              (DiscreteAction 2) t Ht) as (leg0 & leg1 & _ & _ & _ & Hb & _).
  exists ep, t. split; [exact Ht|exact Hb].
Defined.

Lemma step_can_be_repeated_witness :
  keeps_bodies idle_collaborators
  /\ exists ep,
       step_ready ep
       /\ valid_action ep (DiscreteAction 2)
       /\ exists r self',
            step gymnasium_constants idle_collaborators ep (DiscreteAction 2)
            = Ok (r, self')
            /\ step_ready self'
            /\ valid_action self' (DiscreteAction 2).
Proof.
  split; [exact idle_collaborators_keep_bodies|].
  destruct sample_reset_ready as (ep & _ & Hready & Hc & _).
  assert (Hv : valid_action ep (DiscreteAction 2))
    by (simpl; split; [exact Hc|lia]).
  destruct (step_can_be_repeated gymnasium_constants idle_collaborators ep
              (DiscreteAction 2) idle_collaborators_keep_bodies Hready Hv)
    as (r & self' & Hstep & Hr & Hsame).
  exists ep. split; [exact Hready|]. split; [exact Hv|].
  exists r, self'. split; [exact Hstep|]. split; [exact Hr|].
  apply Hsame. exact Hv.
Defined.
